(** * sql4go: cache manager and generic repository

    A shallow embedding of [pkg/redis/manager.go] and
    [pkg/repository/interface.go], with the properties of the caching and
    invalidation engine stated and proved over it.

    Conventions of the embedding:
    - a Go [string] and a Go [[]byte] are both a Rocq [string] (a sequence of
      bytes); [len] is [String.length];
    - a Go [int], [int64] or [time.Duration] is a [Z], the result of an
      arithmetic operation being wrapped to 64 bits by [Int.wrap];
    - a Go [error] result is an [option] of an error type ([None] is [nil]);
      a [(value, error)] result is a [res];
    - an [interface{}] identifier is an [Iface]: [INil] is the nil interface. *)

From Stdlib Require Import ZArith Ascii DecimalString DecimalZ DecimalPos DecimalFacts.
From stdpp Require Import base option list list_numbers strings gmap.

Local Open Scope Z_scope.

(** ** Machine integers *)

Module Int.

Definition MaxInt64 : Z := 2 ^ 63 - 1.
Definition MinInt64 : Z := - 2 ^ 63.

(** Two's complement wrap-around of a signed 64-bit result. *)
Definition wrap (z : Z) : Z := (z + 2 ^ 63) mod 2 ^ 64 - 2 ^ 63.

Definition add (a b : Z) : Z := wrap (a + b).
Definition sub (a b : Z) : Z := wrap (a - b).
Definition mul (a b : Z) : Z := wrap (a * b).
(** Go's [/] on integers truncates toward zero. *)
Definition quot (a b : Z) : Z := wrap (Z.quot a b).

Definition in_range (z : Z) : bool := (MinInt64 <=? z) && (z <=? MaxInt64).

(** Wrap-around of an unsigned 64-bit counter. *)
Definition uwrap (z : Z) : Z := z mod 2 ^ 64.

#[global] Arguments wrap : simpl never.
#[global] Arguments uwrap : simpl never.
#[global] Arguments add : simpl never.
#[global] Arguments sub : simpl never.
#[global] Arguments mul : simpl never.
#[global] Arguments quot : simpl never.
#[global] Arguments in_range : simpl never.

Lemma wrap_small z : MinInt64 <= z <= MaxInt64 -> wrap z = z.
Proof.
  unfold wrap, MinInt64, MaxInt64. intros H.
  rewrite Z.mod_small; lia.
Qed.

Lemma wrap_range z : MinInt64 <= wrap z <= MaxInt64.
Proof.
  unfold wrap, MinInt64, MaxInt64.
  pose proof (Z.mod_pos_bound (z + 2 ^ 63) (2 ^ 64)). lia.
Qed.

End Int.

(** ** Go strings *)

Module GoStr.

Definition len (s : string) : Z := Z.of_nat (String.length s).

(** [s[n:]] and [s[:n]] on a byte string. *)
Fixpoint drop (n : nat) (s : string) : string :=
  match n, s with
  | O, _ => s
  | S n', String _ r => drop n' r
  | S _, EmptyString => EmptyString
  end.

Fixpoint take (n : nat) (s : string) : string :=
  match n, s with
  | O, _ => EmptyString
  | S n', String c r => String c (take n' r)
  | S _, EmptyString => EmptyString
  end.

(** [data[lo:hi]].  Go panics unless [0 <= lo <= hi <= len data]; every
    use below is inside these bounds when its index arithmetic does not
    overflow, and the lemmas that depend on a slice carry that bound. *)
Definition slice (data : string) (lo hi : Z) : string :=
  take (Z.to_nat (hi - lo)) (drop (Z.to_nat lo) data).

(** [bytes.Buffer]: writing the chunks one after the other. *)
Definition concat (l : list string) : string :=
  foldr String.append EmptyString l.

(** [strings.HasPrefix(s, p)]. *)
Definition HasPrefix (s p : string) : bool := String.prefix p s.

(** [strings.Split(s, sep)] for a one-byte separator. *)
Fixpoint Split (s : string) (sep : ascii) : list string :=
  match s with
  | EmptyString => [EmptyString]
  | String c r =>
      if Ascii.eqb c sep then EmptyString :: Split r sep
      else match Split r sep with
           | h :: t => String c h :: t
           | [] => [String c EmptyString]
           end
  end.

(** The verb [%t]. *)
Definition FormatBool (b : bool) : string := if b then "true" else "false".

(** The verb [%d] on an [int]. *)
Definition Itoa (z : Z) : string := NilZero.string_of_int (Z.to_int z).

(** Decimal parsing without the range check: an optional sign, then one or
    more digits. *)
Definition parseInt (s : string) : option Z :=
  match s with
  | String c r =>
      if Ascii.eqb c "+" then Z.of_uint <$> NilZero.uint_of_string r
      else Z.of_int <$> NilZero.int_of_string s
  | EmptyString => None
  end.

(** [strconv.Atoi]: [None] is a syntax or a range error. *)
Definition Atoi (s : string) : option Z :=
  match parseInt s with
  | Some z => if Int.in_range z then Some z else None
  | None => None
  end.

(** A [(value, error)] result. *)
Inductive res (A E : Type) :=
| Ok (a : A)
| Err (e : E).
Arguments Ok {A E} a.
Arguments Err {A E} e.

(** An [interface{}] value used as an identifier: the nil interface, an
    integer or a string. *)
Inductive Iface := INil | IInt (z : Z) | IStr (s : string).

(** The verb [%v]. *)
Definition Sprint (v : Iface) : string :=
  match v with
  | INil => "<nil>"
  | IInt z => Itoa z
  | IStr s => s
  end.

(** No byte of [s] is [c]. *)
Fixpoint free_of (c : ascii) (s : string) : bool :=
  match s with
  | EmptyString => true
  | String a r => negb (Ascii.eqb a c) && free_of c r
  end.

(** *** Facts about byte strings and decimal numerals *)

Lemma append_nil (b : string) : EmptyString +:+ b = b.
Proof. reflexivity. Qed.

Lemma append_cons (c : ascii) (a b : string) : String c a +:+ b = String c (a +:+ b).
Proof. reflexivity. Qed.

Lemma append_assoc (a b c : string) : (a +:+ b) +:+ c = a +:+ (b +:+ c).
Proof. induction a as [|x a IH]; [done | by rewrite !append_cons, IH]. Qed.

Lemma append_inv_head (a x y : string) : a +:+ x = a +:+ y -> x = y.
Proof. induction a as [|c a IH]; [done | rewrite !append_cons; intros [= H]; auto]. Qed.

Lemma length_append (a b : string) :
  String.length (a +:+ b) = (String.length a + String.length b)%nat.
Proof. induction a as [|c a IH]; [done | by rewrite append_cons; simpl; rewrite IH]. Qed.

Lemma append_ne_self (a s : string) : s <> EmptyString -> a +:+ s <> a.
Proof.
  intros Hs H. apply (f_equal String.length) in H. rewrite length_append in H.
  destruct s; [done | simpl in H; lia].
Qed.

Lemma length_drop (n : nat) (s : string) :
  String.length (drop n s) = (String.length s - n)%nat.
Proof. revert s; induction n as [|n IH]; intros [|c s]; simpl; auto with lia. Qed.

Lemma drop_all (n : nat) (s : string) : (String.length s <= n)%nat -> drop n s = EmptyString.
Proof.
  revert s; induction n as [|n IH]; intros [|c s]; simpl; try done; try lia.
  intros; apply IH; lia.
Qed.

Lemma take_all (n : nat) (s : string) : (String.length s <= n)%nat -> take n s = s.
Proof.
  revert s; induction n as [|n IH]; intros [|c s]; simpl; try done; try lia.
  intros; f_equal; apply IH; lia.
Qed.

Lemma Split_free (s : string) (sep : ascii) :
  free_of sep s = true -> Split s sep = [s].
Proof.
  induction s as [|c s IH]; simpl; [done|].
  intros [Hc Hs]%andb_prop. apply negb_true_iff in Hc. rewrite Hc, IH; done.
Qed.

Lemma Split_app (a b : string) (sep : ascii) :
  free_of sep a = true -> Split (a +:+ String sep b) sep = a :: Split b sep.
Proof.
  induction a as [|c a IH]; [rewrite append_nil | rewrite append_cons]; simpl.
  - intros _. by rewrite Ascii.eqb_refl.
  - intros [Hc Hs]%andb_prop. apply negb_true_iff in Hc. rewrite Hc, IH; done.
Qed.

Lemma uint_free_colon (d : Decimal.uint) :
  free_of ":" (NilEmpty.string_of_uint d) = true.
Proof. induction d; simpl; auto. Qed.

Lemma Itoa_free_colon (z : Z) : free_of ":" (Itoa z) = true.
Proof.
  unfold Itoa. destruct (Z.to_int z) as [d|d]; simpl.
  - destruct d; simpl; auto using uint_free_colon.
  - destruct d; simpl; auto using uint_free_colon.
Qed.

Lemma to_int_not_nil (z : Z) : Z.to_int z <> Decimal.Pos Decimal.Nil /\ Z.to_int z <> Decimal.Neg Decimal.Nil.
Proof.
  destruct z; simpl; split; try discriminate;
    intros [= H]; by apply Unsigned.to_uint_nonnil in H.
Qed.

Lemma Itoa_head (z : Z) : exists c r, Itoa z = String c r /\ Ascii.eqb c "+" = false.
Proof.
  unfold Itoa. destruct z as [|p|p]; simpl.
  - by eexists _, _.
  - pose proof (Unsigned.to_uint_nonnil p) as Hn.
    destruct (Pos.to_uint p); try done; simpl; by eexists _, _.
  - by eexists _, _.
Qed.

Lemma parseInt_Itoa (z : Z) : parseInt (Itoa z) = Some z.
Proof.
  destruct (Itoa_head z) as (c & r & Hs & Hc).
  unfold parseInt. rewrite Hs, Hc, <- Hs. unfold Itoa.
  destruct (to_int_not_nil z) as [H1 H2].
  rewrite NilZero.isi by done. simpl. by rewrite DecimalZ.of_to.
Qed.

Lemma Atoi_Itoa (z : Z) : Int.in_range z = true -> Atoi (Itoa z) = Some z.
Proof. intros H. unfold Atoi. by rewrite parseInt_Itoa, H. Qed.

Lemma Itoa_inj (a b : Z) : Itoa a = Itoa b -> a = b.
Proof.
  intros H. apply (f_equal parseInt) in H. rewrite !parseInt_Itoa in H. congruence.
Qed.

End GoStr.


(** ** The cache manager, [pkg/redis/manager.go] *)

Module Redis.
Import GoStr.

Definition cacheKeyPrefix : string := "sql4go".
Definition cacheKeySeparator : string := ":".
Definition cacheDependencyPrefix : string := "deps".
Definition cacheMetadataSuffix : string := "_internal:meta".
Definition cacheChunkPrefix : string := "_internal:chunk".

(** *** The backend

    The Redis server as the manager sees it through its client: a key holds a
    string or a set, with an optional time to live in milliseconds.  The
    server is reachable; the only errors of a command are [Nil] (no such key)
    and [WRONGTYPE]. *)

Inductive rvalue :=
| RString (s : string)
| RSet (members : gset string).

Record entry := Entry { e_val : rvalue; e_ttl : option Z }.

Abbreviation backend := (gmap string entry).

Inductive client_err := Nil | WRONGTYPE.

Definition KeepTTL : Z := -1.

(** A [time.Duration] counts nanoseconds.  The client sends a time to live
    as a whole number of milliseconds or of seconds: [usePrecise],
    [formatMs] and [formatSec] of go-redis. *)
Definition Millisecond : Z := 1000000.
Definition Second : Z := 1000000000.

Definition usePrecise (dur : Z) : bool :=
  (dur <? Second) || negb (Z.rem dur Second =? 0).

Definition formatMs (dur : Z) : Z :=
  if (0 <? dur) && (dur <? Millisecond) then 1 else Z.quot dur Millisecond.

Definition formatSec (dur : Z) : Z :=
  if (0 <? dur) && (dur <? Second) then 1 else Z.quot dur Second.

(** The milliseconds a [SET] with a positive expiration gives the key: [PX]
    with the duration in milliseconds when it is no whole number of seconds,
    [EX] with the seconds otherwise. *)
Definition setMillis (dur : Z) : Z :=
  if usePrecise dur then formatMs dur else 1000 * formatSec dur.

(** The milliseconds an [EXPIRE] gives the key: it is sent whole seconds. *)
Definition expireMillis (dur : Z) : Z := 1000 * formatSec dur.

(** The expiry a [SET key value] with expiration [ttl] leaves on the key. *)
Definition ttl_after_set (old : option entry) (ttl : Z) : option Z :=
  if 0 <? ttl then Some (setMillis ttl)
  else if ttl =? KeepTTL then old ≫= e_ttl
  else None.

Definition cGet (b : backend) (k : string) : res string client_err :=
  match b !! k with
  | None => Err Nil
  | Some (Entry (RString s) _) => Ok s
  | Some (Entry (RSet _) _) => Err WRONGTYPE
  end.

Definition cSet (b : backend) (k v : string) (ttl : Z) : backend :=
  <[k := Entry (RString v) (ttl_after_set (b !! k) ttl)]> b.

Definition cDel (b : backend) (keys : list string) : backend :=
  foldl (fun acc k => delete k acc) b keys.

Definition cExists (b : backend) (k : string) : bool :=
  match b !! k with Some _ => true | None => false end.

Definition cSAdd (b : backend) (k member : string) : backend * option client_err :=
  match b !! k with
  | None => (<[k := Entry (RSet {[member]}) None]> b, None)
  | Some (Entry (RSet ms) t) => (<[k := Entry (RSet ({[member]} ∪ ms)) t]> b, None)
  | Some (Entry (RString _) _) => (b, Some WRONGTYPE)
  end.

Definition cSMembers (b : backend) (k : string) : res (list string) client_err :=
  match b !! k with
  | None => Ok []
  | Some (Entry (RSet ms) _) => Ok (elements ms)
  | Some (Entry (RString _) _) => Err WRONGTYPE
  end.

(** [EXPIRE]: a missing key is left missing, a non-positive number of
    seconds deletes. *)
Definition cExpire (b : backend) (k : string) (ttl : Z) : backend :=
  match b !! k with
  | None => b
  | Some e =>
      if 0 <? formatSec ttl then <[k := Entry (e_val e) (Some (expireMillis ttl))]> b
      else delete k b
  end.

#[global] Arguments cGet : simpl never.
#[global] Arguments cSet : simpl never.
#[global] Arguments cDel : simpl never.
#[global] Arguments cExists : simpl never.
#[global] Arguments cSAdd : simpl never.
#[global] Arguments cSMembers : simpl never.
#[global] Arguments cExpire : simpl never.
#[global] Arguments formatMs : simpl never.
#[global] Arguments formatSec : simpl never.
#[global] Arguments setMillis : simpl never.
#[global] Arguments expireMillis : simpl never.

(** A pipeline: the queued commands run in order, every one of them, and
    [Exec] reports the first error. *)
Inductive cmd :=
| CSet (k v : string) (ttl : Z)
| CSAdd (k member : string)
| CExpire (k : string) (ttl : Z).

Definition run_cmd (b : backend) (c : cmd) : backend * option client_err :=
  match c with
  | CSet k v ttl => (cSet b k v ttl, None)
  | CSAdd k member => cSAdd b k member
  | CExpire k ttl => (cExpire b k ttl, None)
  end.

Fixpoint Exec (b : backend) (pipe : list cmd) : backend * option client_err :=
  match pipe with
  | [] => (b, None)
  | c :: rest =>
      let '(b1, e1) := run_cmd b c in
      let '(b2, e2) := Exec b1 rest in
      (b2, match e1 with Some e => Some e | None => e2 end)
  end.

(** *** Metrics, configuration and the manager

    The counters of [Metrics] are unsigned 64-bit.  The latency totals are
    wall-clock measurements and are left out. *)

Record Metrics := {
  cacheHits : Z;
  cacheMisses : Z;
  cacheErrors : Z;
  getOperations : Z;
  setOperations : Z;
  deleteOperations : Z;
  compressionSaves : Z;
  chunkedOperations : Z;
  invalidationCount : Z;
  dependencyCount : Z
}.

Definition NewMetrics : Metrics :=
  {| cacheHits := 0; cacheMisses := 0; cacheErrors := 0; getOperations := 0;
     setOperations := 0; deleteOperations := 0; compressionSaves := 0;
     chunkedOperations := 0; invalidationCount := 0; dependencyCount := 0 |}.

Record LargeValueConfig := {
  MaxValueSize : Z;
  ChunkSize : Z;
  CompressThreshold : Z;
  EnableCompression : bool;
  EnableChunking : bool
}.

Record Config := {
  Enabled : bool;
  DefaultTTL : Z;
  LargeValue : LargeValueConfig
}.

(** [client] tells whether the manager's client is non-nil. *)
Record Manager := {
  config : Config;
  client : bool
}.

(** What a call can change: the keys of the backend and the counters. *)
Record State := { store : backend; metrics : Metrics }.

Definition with_store (st : State) (b : backend) : State :=
  {| store := b; metrics := metrics st |}.

Definition with_metrics (st : State) (f : Metrics -> Metrics) : State :=
  {| store := store st; metrics := f (metrics st) |}.

Definition RecordCacheHit (x : Metrics) : Metrics :=
  {| cacheHits := Int.uwrap (cacheHits x + 1); cacheMisses := cacheMisses x;
     cacheErrors := cacheErrors x; getOperations := getOperations x;
     setOperations := setOperations x; deleteOperations := deleteOperations x;
     compressionSaves := compressionSaves x; chunkedOperations := chunkedOperations x;
     invalidationCount := invalidationCount x; dependencyCount := dependencyCount x |}.

Definition RecordCacheMiss (x : Metrics) : Metrics :=
  {| cacheHits := cacheHits x; cacheMisses := Int.uwrap (cacheMisses x + 1);
     cacheErrors := cacheErrors x; getOperations := getOperations x;
     setOperations := setOperations x; deleteOperations := deleteOperations x;
     compressionSaves := compressionSaves x; chunkedOperations := chunkedOperations x;
     invalidationCount := invalidationCount x; dependencyCount := dependencyCount x |}.

Definition RecordCacheError (x : Metrics) : Metrics :=
  {| cacheHits := cacheHits x; cacheMisses := cacheMisses x;
     cacheErrors := Int.uwrap (cacheErrors x + 1); getOperations := getOperations x;
     setOperations := setOperations x; deleteOperations := deleteOperations x;
     compressionSaves := compressionSaves x; chunkedOperations := chunkedOperations x;
     invalidationCount := invalidationCount x; dependencyCount := dependencyCount x |}.

Definition RecordGet (x : Metrics) : Metrics :=
  {| cacheHits := cacheHits x; cacheMisses := cacheMisses x;
     cacheErrors := cacheErrors x; getOperations := Int.uwrap (getOperations x + 1);
     setOperations := setOperations x; deleteOperations := deleteOperations x;
     compressionSaves := compressionSaves x; chunkedOperations := chunkedOperations x;
     invalidationCount := invalidationCount x; dependencyCount := dependencyCount x |}.

Definition RecordSet (x : Metrics) : Metrics :=
  {| cacheHits := cacheHits x; cacheMisses := cacheMisses x;
     cacheErrors := cacheErrors x; getOperations := getOperations x;
     setOperations := Int.uwrap (setOperations x + 1); deleteOperations := deleteOperations x;
     compressionSaves := compressionSaves x; chunkedOperations := chunkedOperations x;
     invalidationCount := invalidationCount x; dependencyCount := dependencyCount x |}.

Definition RecordCompression (bytesSaved : Z) (x : Metrics) : Metrics :=
  {| cacheHits := cacheHits x; cacheMisses := cacheMisses x;
     cacheErrors := cacheErrors x; getOperations := getOperations x;
     setOperations := setOperations x; deleteOperations := deleteOperations x;
     compressionSaves := Int.uwrap (compressionSaves x + bytesSaved);
     chunkedOperations := chunkedOperations x;
     invalidationCount := invalidationCount x; dependencyCount := dependencyCount x |}.

Definition RecordChunked (x : Metrics) : Metrics :=
  {| cacheHits := cacheHits x; cacheMisses := cacheMisses x;
     cacheErrors := cacheErrors x; getOperations := getOperations x;
     setOperations := setOperations x; deleteOperations := deleteOperations x;
     compressionSaves := compressionSaves x;
     chunkedOperations := Int.uwrap (chunkedOperations x + 1);
     invalidationCount := invalidationCount x; dependencyCount := dependencyCount x |}.

Definition RecordDependency (x : Metrics) : Metrics :=
  {| cacheHits := cacheHits x; cacheMisses := cacheMisses x;
     cacheErrors := cacheErrors x; getOperations := getOperations x;
     setOperations := setOperations x; deleteOperations := deleteOperations x;
     compressionSaves := compressionSaves x; chunkedOperations := chunkedOperations x;
     invalidationCount := invalidationCount x;
     dependencyCount := Int.uwrap (dependencyCount x + 1) |}.

(** The errors the manager returns.  A call that returns bytes and an error
    is [Ok bytes] when the error is nil and [Err e] otherwise; the bytes
    beside an error are nil, except for [ErrGzip], which comes with the bytes
    read before the decompression failed. *)
Inductive error :=
| ErrCacheDisabled
| ErrClientNotInitialized
| ErrKeyNotFound
| ErrClient (e : client_err)
| ErrRedisGet (e : client_err)
| ErrValueTooLarge (size max : Z)
| ErrAddDependency (e : client_err)
| ErrGetDependencies (e : client_err)
| ErrInvalidChunkMetadata (metadata : string)
| ErrInvalidChunkCount (part : string)
| ErrGetChunk (i : Z) (e : client_err)
| ErrInvalidMetadata (metadata : string)
| ErrGzip (readSoFar : string).

(** The bytes a call returns, beside an error too. *)
Definition bytesOf (r : res string error) : string :=
  match r with
  | Ok bytes => bytes
  | Err (ErrGzip readSoFar) => readSoFar
  | Err _ => EmptyString
  end.

Definition checkClient (m : Manager) : option error :=
  if negb (Enabled (config m)) then Some ErrCacheDisabled
  else if negb (client m) then Some ErrClientNotInitialized
  else None.

Definition Get (m : Manager) (key : string) (st : State) : res string error * State :=
  match checkClient m with
  | Some err => (Err err, st)
  | None =>
      let st := with_metrics st RecordGet in
      match cGet (store st) key with
      | Err Nil => (Err ErrKeyNotFound, with_metrics st RecordCacheMiss)
      | Err e => (Err (ErrRedisGet e), with_metrics st RecordCacheError)
      | Ok v => (Ok v, with_metrics st RecordCacheHit)
      end
  end.

Definition Set_ (m : Manager) (key value : string) (st : State) : option error * State :=
  match checkClient m with
  | Some err => (Some err, st)
  | None =>
      let b := cSet (store st) key value (DefaultTTL (config m)) in
      (None, with_metrics (with_store st b) RecordSet)
  end.

Definition SetWithTTL (m : Manager) (key value : string) (ttl : Z) (st : State)
  : option error * State :=
  match checkClient m with
  | Some err => (Some err, st)
  | None => (None, with_store st (cSet (store st) key value ttl))
  end.

Definition DeleteKeys (m : Manager) (keys : list string) (st : State)
  : option error * State :=
  match checkClient m with
  | Some err => (Some err, st)
  | None =>
      match keys with
      | [] => (None, st)
      | _ => (None, with_store st (cDel (store st) keys))
      end
  end.

Definition Exists (m : Manager) (key : string) (st : State) : res bool error * State :=
  match checkClient m with
  | Some err => (Err err, st)
  | None => (Ok (cExists (store st) key), st)
  end.

(** The key of an entity's dependency set, ["sql4go:deps:customer:123"]. *)
Definition dependencyKey (entityType : string) (entityID : Iface) : string :=
  cacheKeyPrefix +:+ cacheKeySeparator +:+ cacheDependencyPrefix +:+ cacheKeySeparator
    +:+ entityType +:+ cacheKeySeparator +:+ Sprint entityID.

Definition AddDependency (m : Manager) (entityType : string) (entityID : Iface)
    (cacheKey : string) (st : State) : option error * State :=
  match checkClient m with
  | Some err => (Some err, st)
  | None =>
      let dk := dependencyKey entityType entityID in
      match cSAdd (store st) dk cacheKey with
      | (_, Some e) => (Some (ErrAddDependency e), st)
      | (b, None) =>
          let st := with_metrics (with_store st b) RecordDependency in
          let b := cExpire (store st) dk (Int.mul (DefaultTTL (config m)) 2) in
          (None, with_store st b)
      end
  end.

(** The commands queued for a dependency map, in its iteration order. *)
Definition dependencyCmds (ttl : Z) (dependencies : list (string * list Iface))
    (cacheKey : string) : list cmd :=
  '(entityType, ids) ← dependencies;
  entityID ← ids;
  let dk := dependencyKey entityType entityID in
  [CSAdd dk cacheKey; CExpire dk (Int.mul ttl 2)].

Definition lift_err (e : option client_err) : option error := ErrClient <$> e.

Definition AddMultipleDependencies (m : Manager) (dependencies : list (string * list Iface))
    (cacheKey : string) (st : State) : option error * State :=
  match checkClient m with
  | Some err => (Some err, st)
  | None =>
      let pipe := dependencyCmds (DefaultTTL (config m)) dependencies cacheKey in
      let '(b, e) := Exec (store st) pipe in
      (lift_err e, with_store st b)
  end.

Definition SetWithDependencies (m : Manager) (cacheKey value : string)
    (dependencies : list (string * list Iface)) (st : State) : option error * State :=
  match checkClient m with
  | Some err => (Some err, st)
  | None =>
      let ttl := DefaultTTL (config m) in
      let pipe := CSet cacheKey value ttl :: dependencyCmds ttl dependencies cacheKey in
      let '(b, e) := Exec (store st) pipe in
      (lift_err e, with_store st b)
  end.

(** *** Large values: metadata and chunk keys *)

Definition metadataKey (key : string) : string := key +:+ cacheMetadataSuffix.

(** [fmt.Sprintf("%s%s:%d", key, cacheChunkPrefix, i)]. *)
Definition chunkKey (key : string) (i : Z) : string :=
  key +:+ cacheChunkPrefix +:+ ":" +:+ Itoa i.

#[global] Arguments metadataKey : simpl never.
#[global] Arguments chunkKey : simpl never.

Definition colon : ascii := ":"%char.

Definition isChunkedValue (key : string) (st : State) : res bool error :=
  match cGet (store st) (metadataKey key) with
  | Err Nil => Ok false
  | Err e => Err (ErrClient e)
  | Ok metadata => Ok (HasPrefix metadata "chunked:")
  end.

(** The chunk keys [DeleteLarge] adds for a chunked value, read off its
    metadata. *)
Definition chunkKeysOf (key : string) (st : State) : list string :=
  match cGet (store st) (metadataKey key) with
  | Ok metadata =>
      match Split metadata colon with
      | [_; _; count] =>
          match Atoi count with
          | Some chunkCount => chunkKey key <$> seqZ 0 chunkCount
          | None => []
          end
      | _ => []
      end
  | Err _ => []
  end.

Definition DeleteLarge (m : Manager) (key : string) (st : State) : option error * State :=
  match checkClient m with
  | Some err => (Some err, st)
  | None =>
      match isChunkedValue key st with
      | Err err => (Some err, st)
      | Ok isChunked =>
          let keysToDelete :=
            if isChunked then [key] ++ chunkKeysOf key st ++ [metadataKey key]
            else
              match Exists m (metadataKey key) st with
              | (Ok true, _) => [key; metadataKey key]
              | _ => [key]
              end in
          DeleteKeys m keysToDelete st
      end
  end.

(** The loop of [InvalidateEntityDependencies]: an error of [DeleteLarge] is
    skipped. *)
Definition deleteDependents (m : Manager) (dependentKeys : list string) (st : State) : State :=
  foldl (fun acc cacheKey => snd (DeleteLarge m cacheKey acc)) st dependentKeys.

Definition InvalidateEntityDependencies (m : Manager) (entityType : string)
    (entityID : Iface) (st : State) : option error * State :=
  match checkClient m with
  | Some err => (Some err, st)
  | None =>
      let dk := dependencyKey entityType entityID in
      match cSMembers (store st) dk with
      | Err e => (Some (ErrGetDependencies e), st)
      | Ok [] => (None, st)
      | Ok dependentKeys =>
          let st := deleteDependents m dependentKeys st in
          (None, with_store st (cDel (store st) [dk]))
      end
  end.

(** *** Large values: compression and chunking

    [compressData] and [decompressData] call [compress/gzip].  Compression
    writes into a [bytes.Buffer], whose [Write] returns no error, so
    [compressData] is a function.  Decompression fails on bytes that are not
    a gzip stream: [Err readSoFar] is an error together with the bytes
    [io.ReadAll] returns beside it, none when the header is already
    refused. *)

Section LargeValues.

Variable compressData : string -> string.
Variable decompressData : string -> res string string.

(** [getLargeValueConfig]: a non-positive limit falls back to its default. *)
Definition getLargeValueConfig (m : Manager) : Z * Z * Z * bool * bool :=
  let c := LargeValue (config m) in
  let maxSize := if MaxValueSize c <=? 0 then 1024 * 1024 * 10 else MaxValueSize c in
  let chunkSize := if ChunkSize c <=? 0 then 1024 * 1024 * 2 else ChunkSize c in
  let compressThreshold :=
    if CompressThreshold c <=? 0 then 1024 * 100 else CompressThreshold c in
  (maxSize, chunkSize, compressThreshold, EnableCompression c, EnableChunking c).

(** Ceiling division, [(len(data) + chunkSize - 1) / chunkSize]. *)
Definition chunkCountOf (data : string) (chunkSize : Z) : Z :=
  Int.quot (Int.sub (Int.add (len data) chunkSize) 1) chunkSize.

(** The bytes of chunk [i]: [data[start:end]]. *)
Definition chunkOf (data : string) (chunkSize i : Z) : string :=
  let start := Int.mul i chunkSize in
  let end_ := Int.add start chunkSize in
  let end_ := if len data <? end_ then len data else end_ in
  slice data start end_.

Definition chunkedMetadata (compressed : bool) (chunkCount : Z) : string :=
  "chunked:" +:+ FormatBool compressed +:+ ":" +:+ Itoa chunkCount.

Definition singleMetadata (compressed : bool) : string :=
  "single:" +:+ FormatBool compressed +:+ ":1".

#[global] Arguments chunkCountOf : simpl never.
#[global] Arguments chunkOf : simpl never.
#[global] Arguments chunkedMetadata : simpl never.

Definition setChunked (m : Manager) (key data : string) (compressed : bool)
    (chunkSize : Z) (st : State) : option error * State :=
  let chunkCount := chunkCountOf data chunkSize in
  let ttl := DefaultTTL (config m) in
  let pipe :=
    CSet (metadataKey key) (chunkedMetadata compressed chunkCount) ttl ::
    ((fun i => CSet (chunkKey key i) (chunkOf data chunkSize i) ttl) <$> seqZ 0 chunkCount) in
  let '(b, e) := Exec (store st) pipe in
  (lift_err e, with_store st b).

Definition setWithMetadata (m : Manager) (key data : string) (compressed chunked : bool)
    (st : State) : option error * State :=
  if compressed then
    let ttl := DefaultTTL (config m) in
    let pipe := [CSet (metadataKey key) (singleMetadata compressed) ttl; CSet key data ttl] in
    let '(b, e) := Exec (store st) pipe in
    (lift_err e, with_store st b)
  else Set_ m key data st.

Definition SetLarge (m : Manager) (key value : string) (st : State) : option error * State :=
  match checkClient m with
  | Some err => (Some err, st)
  | None =>
      let '(maxSize, chunkSize, compressThreshold, enableCompression, enableChunking) :=
        getLargeValueConfig m in
      if maxSize <? len value then (Some (ErrValueTooLarge (len value) maxSize), st)
      else
        let '(processedValue, compressed, st) :=
          if enableCompression && (compressThreshold <? len value) then
            let compressedValue := compressData value in
            if len compressedValue <? len value then
              let bytesSaved := Int.sub (len value) (len compressedValue) in
              (compressedValue, true, with_metrics st (RecordCompression bytesSaved))
            else (value, false, st)
          else (value, false, st) in
        if enableChunking && (chunkSize <? len processedValue)
        then setChunked m key processedValue compressed chunkSize
               (with_metrics st RecordChunked)
        else setWithMetadata m key processedValue compressed false st
  end.

(** The loop of [getChunked]: the first chunk that cannot be read ends it. *)
Fixpoint getChunks (b : backend) (key : string) (indices : list Z) : res (list string) error :=
  match indices with
  | [] => Ok []
  | i :: rest =>
      match cGet b (chunkKey key i) with
      | Err e => Err (ErrGetChunk i e)
      | Ok chunk =>
          match getChunks b key rest with
          | Ok chunks => Ok (chunk :: chunks)
          | Err err => Err err
          end
      end
  end.

Definition getChunked (key : string) (st : State) : res (string * bool) error :=
  match cGet (store st) (metadataKey key) with
  | Err Nil => Err ErrKeyNotFound
  | Err e => Err (ErrClient e)
  | Ok metadata =>
      match Split metadata colon with
      | [tag; flag; count] =>
          if negb (String.eqb tag "chunked") then Err (ErrInvalidChunkMetadata metadata)
          else
            let compressed := String.eqb flag "true" in
            match Atoi count with
            | None => Err (ErrInvalidChunkCount count)
            | Some chunkCount =>
                match getChunks (store st) key (seqZ 0 chunkCount) with
                | Err err => Err err
                | Ok chunks => Ok (concat chunks, compressed)
                end
            end
      | _ => Err (ErrInvalidChunkMetadata metadata)
      end
  end.

Definition getWithMetadata (m : Manager) (key : string) (st : State)
  : res (string * bool) error * State :=
  match cGet (store st) (metadataKey key) with
  | Err Nil =>
      match Get m key st with
      | (Ok data, st) => (Ok (data, false), st)
      | (Err err, st) => (Err err, st)
      end
  | Err e => (Err (ErrClient e), st)
  | Ok metadata =>
      match Split metadata colon with
      | [tag; flag; _] =>
          if negb (String.eqb tag "single") then (Err (ErrInvalidMetadata metadata), st)
          else
            let compressed := String.eqb flag "true" in
            match Get m key st with
            | (Ok data, st) => (Ok (data, compressed), st)
            | (Err err, st) => (Err err, st)
            end
      | _ => (Err (ErrInvalidMetadata metadata), st)
      end
  end.

(** The result of [decompressData] as [GetLarge] returns it: on a failure
    the error, together with the bytes [io.ReadAll] read before it. *)
Definition decompressed (data : string) : res string error :=
  match decompressData data with
  | Ok raw => Ok raw
  | Err readSoFar => Err (ErrGzip readSoFar)
  end.

Definition GetLarge (m : Manager) (key : string) (st : State) : res string error * State :=
  match checkClient m with
  | Some err => (Err err, st)
  | None =>
      match isChunkedValue key st with
      | Err err => (Err err, st)
      | Ok isChunked =>
          let '(r, st) :=
            if isChunked then (getChunked key st, st) else getWithMetadata m key st in
          match r with
          | Err err => (Err err, st)
          | Ok (data, compressed) =>
              if compressed then (decompressed data, st) else (Ok data, st)
          end
      end
  end.

End LargeValues.

(** *** Properties of the manager *)

(** *** Facts about keys *)

Lemma metadataKey_ne (key : string) : metadataKey key <> key.
Proof. apply append_ne_self. done. Qed.

Lemma chunkKey_ne_metadataKey (key : string) (i : Z) : chunkKey key i <> metadataKey key.
Proof. unfold chunkKey, metadataKey. intros H%append_inv_head. discriminate H. Qed.

Lemma chunkKey_inj (key : string) (i j : Z) : chunkKey key i = chunkKey key j -> i = j.
Proof.
  unfold chunkKey. intros H%append_inv_head%append_inv_head%append_inv_head.
  by apply Itoa_inj.
Qed.

(** *** Facts about the backend *)

Definition is_write (c : cmd) : bool :=
  match c with CSAdd _ _ => false | _ => true end.

Lemma Exec_writes (pipe : list cmd) (b : backend) :
  forallb is_write pipe = true -> snd (Exec b pipe) = None.
Proof.
  revert b; induction pipe as [|c pipe IH]; intros b; simpl; [done|].
  intros [Hc Hp]%andb_prop.
  destruct (run_cmd b c) as [b1 e1] eqn:Hr.
  specialize (IH b1 Hp). destruct (Exec b1 pipe) as [b2 e2]; simpl in *; subst.
  destruct c; simpl in *; try done; by inversion Hr.
Qed.

Lemma Exec_app (p q : list cmd) (b : backend) :
  Exec b (p ++ q) =
  let '(b1, e1) := Exec b p in
  let '(b2, e2) := Exec b1 q in
  (b2, match e1 with Some e => Some e | None => e2 end).
Proof.
  revert b; induction p as [|c p IH]; intros b; simpl.
  - by destruct (Exec b q).
  - destruct (run_cmd b c) as [b1 e1]. rewrite IH.
    destruct (Exec b1 p) as [b2 e2], (Exec b2 q) as [b3 e3].
    by destruct e1, e2.
Qed.

Lemma cGet_cSet (b : backend) (k v : string) (ttl : Z) : cGet (cSet b k v ttl) k = Ok v.
Proof. unfold cGet, cSet. by rewrite lookup_insert_eq. Qed.

Lemma lookup_cSet_ne (b : backend) (k k' v : string) (ttl : Z) :
  k <> k' -> cSet b k v ttl !! k' = b !! k'.
Proof. intros. unfold cSet. by rewrite lookup_insert_ne. Qed.

(** A pipeline of [SET]s on keys other than [k] leaves [k] as it is. *)
Lemma Exec_sets_other {A} (f : A -> string) (g : A -> string) (ttl : Z) (l : list A)
    (b : backend) (k : string) :
  (forall a, a ∈ l -> f a <> k) ->
  fst (Exec b ((fun a => CSet (f a) (g a) ttl) <$> l)) !! k = b !! k.
Proof.
  revert b; induction l as [|a l IH]; intros b H; simpl; [done|].
  destruct (Exec _ _) as [b2 e2] eqn:He. simpl.
  change b2 with (fst (b2, e2)). rewrite <- He, IH.
  - apply lookup_cSet_ne, H. left.
  - intros a' Ha'. apply H. by right.
Qed.

(** Each key of a pipeline of [SET]s on distinct keys ends with its value. *)
Lemma Exec_sets_member {A} (f : A -> string) (g : A -> string) (ttl : Z) (l : list A)
    (b : backend) (a : A) :
  (forall x y, x ∈ l -> y ∈ l -> f x = f y -> x = y) ->
  a ∈ l ->
  cGet (fst (Exec b ((fun a => CSet (f a) (g a) ttl) <$> l))) (f a) = Ok (g a).
Proof.
  revert b; induction l as [|x l IH]; intros b Hinj Ha; [by apply elem_of_nil in Ha|].
  simpl. destruct (Exec _ _) as [b2 e2] eqn:He. simpl.
  change b2 with (fst (b2, e2)). rewrite <- He.
  destruct (decide (f a ∈ f <$> l)) as [Hl|Hl].
  - apply list_elem_of_fmap in Hl as (y & Hy & Hyl).
    assert (a = y) as -> by (apply Hinj; [done|by right|done]).
    apply IH; [|done]. intros; apply Hinj; by try right.
  - apply elem_of_cons in Ha as [->|Ha]; [|by destruct Hl; apply list_elem_of_fmap_2].
    unfold cGet at 1. rewrite Exec_sets_other.
    + fold (cGet (cSet b (f x) (g x) ttl) (f x)). apply cGet_cSet.
    + intros y Hy Heq. apply Hl. rewrite <- Heq. by apply list_elem_of_fmap_2.
Qed.

Definition maxValueSize (m : Manager) : Z :=
  let '(maxSize, _, _, _, _) := getLargeValueConfig m in maxSize.
Definition chunkSizeOf (m : Manager) : Z :=
  let '(_, chunkSize, _, _, _) := getLargeValueConfig m in chunkSize.
Definition compressThresholdOf (m : Manager) : Z :=
  let '(_, _, compressThreshold, _, _) := getLargeValueConfig m in compressThreshold.

Section Boundary.
Variable compressData : string -> string.

Lemma setChunked_ok m key data compressed chunkSize st :
  fst (setChunked m key data compressed chunkSize st) = None.
Proof.
  unfold setChunked.
  destruct (Exec _ _) as [b e] eqn:He. cbn [fst].
  assert (e = None) as ->; [|done].
  change e with (snd (b, e)). rewrite <- He. apply Exec_writes.
  cbn [forallb is_write andb]. apply forallb_forall. intros c Hc%list_elem_of_In%list_elem_of_fmap.
  by destruct Hc as (i & -> & _).
Qed.

Lemma setWithMetadata_ok m key data compressed chunked st :
  checkClient m = None ->
  fst (setWithMetadata m key data compressed chunked st) = None.
Proof.
  intros Hc. unfold setWithMetadata. destruct compressed; simpl; [done|].
  unfold Set_. by rewrite Hc.
Qed.

End Boundary.

Definition needsChunking (m : Manager) (data : string) : bool :=
  let '(_, chunkSize, _, _, enableChunking) := getLargeValueConfig m in
  enableChunking && (chunkSize <? len data).

Section Compression.
Variable compressData : string -> string.

Lemma setChunked_metadata m key data compressed chunkSize st :
  cGet (store (snd (setChunked m key data compressed chunkSize st))) (metadataKey key) =
  Ok (chunkedMetadata compressed (chunkCountOf data chunkSize)).
Proof.
  unfold setChunked. cbn [Exec run_cmd].
  destruct (Exec _ _) as [b e] eqn:He. cbn [fst snd store with_store].
  change b with (fst (b, e)). rewrite <- He.
  unfold cGet at 1.
  rewrite (Exec_sets_other (chunkKey key) (chunkOf data chunkSize)).
  - fold (cGet (cSet (store st) (metadataKey key)
                  (chunkedMetadata compressed (chunkCountOf data chunkSize))
                  (DefaultTTL (config m))) (metadataKey key)).
    apply cGet_cSet.
  - intros i _. apply chunkKey_ne_metadataKey.
Qed.

Lemma setChunked_chunk m key data compressed chunkSize st i :
  0 <= i < chunkCountOf data chunkSize ->
  cGet (store (snd (setChunked m key data compressed chunkSize st))) (chunkKey key i) =
  Ok (chunkOf data chunkSize i).
Proof.
  intros Hi. unfold setChunked. cbn [Exec run_cmd].
  destruct (Exec _ _) as [b e] eqn:He. cbn [fst snd store with_store].
  change b with (fst (b, e)). rewrite <- He.
  apply (Exec_sets_member (chunkKey key) (chunkOf data chunkSize)).
  - intros x y _ _. apply chunkKey_inj.
  - apply elem_of_seqZ. lia.
Qed.

Lemma setWithMetadata_compressed m key data chunked st :
  let st' := snd (setWithMetadata m key data true chunked st) in
  cGet (store st') key = Ok data /\
  cGet (store st') (metadataKey key) = Ok (singleMetadata true).
Proof.
  simpl. split.
  - apply cGet_cSet.
  - unfold cGet. rewrite lookup_cSet_ne by (apply not_eq_sym, metadataKey_ne).
    apply cGet_cSet.
Qed.

Lemma setWithMetadata_plain m key data chunked st :
  checkClient m = None ->
  let st' := snd (setWithMetadata m key data false chunked st) in
  cGet (store st') key = Ok data /\
  store st' !! metadataKey key = store st !! metadataKey key.
Proof.
  intros Hc. unfold setWithMetadata, Set_. rewrite Hc. simpl. split.
  - apply cGet_cSet.
  - apply lookup_cSet_ne, not_eq_sym, metadataKey_ne.
Qed.

End Compression.

Lemma Split_prefix (s a b : string) (sep : ascii) (l : list string) :
  Split s sep = a :: b :: l -> String.prefix (a +:+ String sep EmptyString) s = true.
Proof.
  revert a; induction s as [|c s IH]; intros a; simpl; [done|].
  destruct (Ascii.eqb c sep) eqn:Hc.
  - intros [= <- _]. apply Ascii.eqb_eq in Hc as ->.
    rewrite append_nil. simpl. destruct (ascii_dec sep sep); [by destruct s | done].
  - destruct (Split s sep) as [|h t]; [done|].
    intros [= <- ->]. rewrite append_cons. simpl.
    destruct (ascii_dec c c); [|done]. by apply IH.
Qed.

Section Chunks.
Variable decompressData : string -> res string string.

Lemma getChunks_all (b : backend) (key : string) (indices : list Z) (chunks : list string) :
  Forall2 (fun i chunk => cGet b (chunkKey key i) = Ok chunk) indices chunks ->
  getChunks b key indices = Ok chunks.
Proof. induction 1 as [|i c idx cs Hi _ IH]; simpl; [done|]. by rewrite Hi, IH. Qed.

Lemma getChunks_missing (b : backend) (key : string) (indices : list Z) (i : Z) (e : client_err) :
  i ∈ indices -> cGet b (chunkKey key i) = Err e ->
  exists j e', j ∈ indices /\ cGet b (chunkKey key j) = Err e' /\
               getChunks b key indices = Err (ErrGetChunk j e').
Proof.
  intros Hi He. induction indices as [|j idx IH]; [by apply elem_of_nil in Hi|].
  cbn [getChunks]. destruct (cGet b (chunkKey key j)) as [c|e'] eqn:Hj.
  - apply elem_of_cons in Hi as [->|Hi]; [congruence|].
    destruct (IH Hi) as (j' & e'' & Hin & Hj' & ->). exists j', e''. split; [by right|done].
  - exists j, e'. split; [by left|done].
Qed.

(** C4, as amended.  For a value whose metadata announces [n] chunks,
    [GetLarge] reads the chunks [0 .. n-1] in index order.  When one of them
    cannot be read it returns the error of an unreadable chunk and no bytes.
    When all can be read it returns them joined in index order, decompressed
    when the metadata says "compressed", and an error when that
    decompression fails.  Chunks with an index from [n] on are not read. *)
Theorem GetLarge_chunked (m : Manager) (key metadata flag count : string) (n : Z) (st : State) :
  checkClient m = None ->
  cGet (store st) (metadataKey key) = Ok metadata ->
  Split metadata colon = ["chunked"; flag; count] ->
  Atoi count = Some n ->
  (forall i e, 0 <= i < n -> cGet (store st) (chunkKey key i) = Err e ->
     (exists j e', 0 <= j < n /\ cGet (store st) (chunkKey key j) = Err e' /\
                   GetLarge decompressData m key st = (Err (ErrGetChunk j e'), st)) /\
     bytesOf (fst (GetLarge decompressData m key st)) = EmptyString) /\
  (forall chunks,
     Forall2 (fun i chunk => cGet (store st) (chunkKey key i) = Ok chunk) (seqZ 0 n) chunks ->
     (String.eqb flag "true" = false ->
      GetLarge decompressData m key st = (Ok (concat chunks), st)) /\
     (String.eqb flag "true" = true ->
      (forall raw, decompressData (concat chunks) = Ok raw ->
         GetLarge decompressData m key st = (Ok raw, st)) /\
      (forall readSoFar, decompressData (concat chunks) = Err readSoFar ->
         exists err, GetLarge decompressData m key st = (Err err, st)))).
Proof.
  intros Hc Hmeta Hsplit Hn.
  assert (isChunkedValue key st = Ok true) as Hchunked.
  { unfold isChunkedValue. rewrite Hmeta. f_equal. unfold HasPrefix.
    apply Split_prefix in Hsplit. exact Hsplit. }
  unfold GetLarge. rewrite Hc, Hchunked. unfold getChunked. rewrite Hmeta, Hsplit, Hn.
  cbn [String.eqb Ascii.eqb Bool.eqb negb andb]. split.
  - intros i e Hi He.
    destruct (getChunks_missing (store st) key (seqZ 0 n) i e) as (j & e' & Hj & Hg & ->);
      [apply elem_of_seqZ; lia|done|].
    split; [|done]. exists j, e'. apply elem_of_seqZ in Hj. split; [lia|done].
  - intros chunks Hall. rewrite (getChunks_all _ _ _ _ Hall). split.
    + by intros ->.
    + intros ->. unfold decompressed. split.
      * by intros raw ->.
      * intros readSoFar ->. by eexists.
Qed.
End Chunks.

Lemma deleted_members (b : backend) (k : string) : cSMembers (cDel b [k]) k = Ok [].
Proof. unfold cSMembers, cDel. simpl. by rewrite lookup_delete_eq. Qed.

(** C6.  A second [InvalidateEntityDependencies] right after the first
    leaves the state the first one left and returns what the first returned;
    on an empty or absent dependency set the call returns no error and
    changes nothing. *)
Theorem InvalidateEntityDependencies_idempotent (m : Manager) (entityType : string)
    (entityID : Iface) (st : State) :
  let once := InvalidateEntityDependencies m entityType entityID st in
  let twice := InvalidateEntityDependencies m entityType entityID (snd once) in
  snd twice = snd once /\ fst twice = fst once /\
  (checkClient m = None ->
   cSMembers (store st) (dependencyKey entityType entityID) = Ok [] ->
   once = (None, st)).
Proof.
  cbv zeta. unfold InvalidateEntityDependencies.
  destruct (checkClient m) as [err|] eqn:Hc; [by repeat split|].
  destruct (cSMembers (store st) _) as [[|k ks]|e] eqn:Hm; cbn [fst snd store with_store].
  - rewrite Hm. by repeat split.
  - rewrite deleted_members. by repeat split.
  - rewrite Hm. by repeat split.
Qed.

Lemma formatSec_pos (dur : Z) : 0 < dur -> 0 < formatSec dur.
Proof.
  intros Hd. unfold formatSec, Second.
  destruct (Z.ltb_spec 0 dur), (Z.ltb_spec dur 1000000000); cbn [andb]; try lia.
  Z.quot_rem_to_equations. lia.
Qed.

Lemma formatSec_pos_ltb (dur : Z) : 0 < dur -> (0 <? formatSec dur) = true.
Proof. intros Hd. apply Z.ltb_lt. by apply formatSec_pos. Qed.

(** A value stored with a time to live is outlived by a set that expires
    after twice that time. *)
Lemma setMillis_lt_expireMillis (dur : Z) : 0 < dur -> setMillis dur < expireMillis (2 * dur).
Proof.
  intros Hd. unfold setMillis, expireMillis, usePrecise, formatMs, formatSec, Second, Millisecond.
  destruct (Z.ltb_spec 0 dur); [|lia].
  destruct (Z.ltb_spec 0 (2 * dur)); [|lia].
  destruct (Z.ltb_spec dur 1000000000), (Z.ltb_spec (2 * dur) 1000000000),
    (Z.ltb_spec dur 1000000), (Z.eqb_spec (Z.rem dur 1000000000) 0);
    cbn [andb orb negb]; Z.quot_rem_to_equations; lia.
Qed.

(** Twice a time that is a whole number of seconds is kept as it is. *)
Lemma expireMillis_exact (dur : Z) :
  0 < dur -> Z.rem dur Second = 0 -> Millisecond * expireMillis dur = dur.
Proof.
  intros Hd. unfold expireMillis, formatSec, Second, Millisecond.
  destruct (Z.ltb_spec 0 dur), (Z.ltb_spec dur 1000000000); cbn [andb];
    Z.quot_rem_to_equations; lia.
Qed.

(** Key [k] is present and expires after [t] milliseconds. *)
Definition expires (b : backend) (k : string) (t : Z) : Prop :=
  exists v, b !! k = Some (Entry v (Some t)).

(** The commands queued for a dependency: [SADD], and [EXPIRE] with the
    duration [t]. *)
Definition dep_cmd (t : Z) (c : cmd) : Prop :=
  match c with
  | CSAdd _ _ => True
  | CExpire _ t' => t' = t
  | CSet _ _ _ => False
  end.

Definition cmd_key (c : cmd) : string :=
  match c with
  | CSet k _ _ | CSAdd k _ | CExpire k _ => k
  end.

Lemma run_cmd_other (c : cmd) (b : backend) (k : string) :
  cmd_key c <> k -> fst (run_cmd b c) !! k = b !! k.
Proof.
  intros Hk. destruct c as [k' v t|k' x|k' t]; simpl in *.
  - by apply lookup_cSet_ne.
  - unfold cSAdd. destruct (b !! k') as [[[s|ms] t]|]; simpl; by rewrite ?lookup_insert_ne.
  - unfold cExpire. destruct (b !! k') as [e|]; [|done].
    destruct (0 <? formatSec t); by rewrite ?lookup_insert_ne, ?lookup_delete_ne.
Qed.

Lemma Exec_other (pipe : list cmd) (b : backend) (k : string) :
  Forall (fun c => cmd_key c <> k) pipe -> fst (Exec b pipe) !! k = b !! k.
Proof.
  intros H; revert b; induction H as [|c pipe Hc _ IH]; intros b; simpl; [done|].
  destruct (run_cmd b c) as [b1 e1] eqn:Hr.
  specialize (IH b1). destruct (Exec b1 pipe) as [b2 e2]. simpl in *.
  rewrite IH. change b1 with (fst (b1, e1)). rewrite <- Hr. by apply run_cmd_other.
Qed.

Lemma run_dep_cmd_expires (t : Z) (c : cmd) (b : backend) (k : string) :
  0 < t -> dep_cmd t c ->
  expires b k (expireMillis t) -> expires (fst (run_cmd b c)) k (expireMillis t).
Proof.
  intros Ht Hc [v Hv]. destruct (decide (cmd_key c = k)) as [<-|Hne].
  - destruct c as [k' v' t'|k' x|k' t']; simpl in *; [done| |].
    + unfold cSAdd. rewrite Hv. destruct v; simpl.
      * by exists (RString s).
      * eexists. apply lookup_insert_eq.
    + subst t'. unfold cExpire. rewrite Hv, formatSec_pos_ltb by done.
      eexists. apply lookup_insert_eq.
  - exists v. by rewrite run_cmd_other.
Qed.

Lemma Exec_dep_cmds_expires (t : Z) (pipe : list cmd) (b : backend) (k : string) :
  0 < t -> Forall (dep_cmd t) pipe ->
  expires b k (expireMillis t) -> expires (fst (Exec b pipe)) k (expireMillis t).
Proof.
  intros Ht H; revert b; induction H as [|c pipe Hc _ IH]; intros b Hb; simpl; [done|].
  destruct (run_cmd b c) as [b1 e1] eqn:Hr.
  specialize (IH b1). destruct (Exec b1 pipe) as [b2 e2]. simpl in *.
  apply IH. change b1 with (fst (b1, e1)). rewrite <- Hr. by apply run_dep_cmd_expires.
Qed.

Lemma SAdd_Expire_expires (b : backend) (k member : string) (t : Z) :
  0 < t -> expires (cExpire (fst (cSAdd b k member)) k t) k (expireMillis t).
Proof.
  intros Ht. unfold cExpire, cSAdd. rewrite formatSec_pos_ltb by done.
  destruct (b !! k) as [[[s|ms] t0]|] eqn:Hk; simpl;
    rewrite ?Hk, ?lookup_insert_eq; eexists; apply lookup_insert_eq.
Qed.

Lemma dependencyCmds_dep_cmd (ttl : Z) (deps : list (string * list Iface)) (ck : string) :
  Forall (dep_cmd (Int.mul ttl 2)) (dependencyCmds ttl deps ck).
Proof.
  unfold dependencyCmds. apply Forall_forall. intros c Hc.
  apply list_elem_of_bind in Hc as ([et ids] & Hc & _).
  apply list_elem_of_bind in Hc as (id & Hc & _).
  apply elem_of_cons in Hc as [->|Hc]; [done|].
  apply elem_of_cons in Hc as [->|Hc]; [done|]. by apply elem_of_nil in Hc.
Qed.

Lemma dependencyCmds_split (ttl : Z) (deps : list (string * list Iface)) (ck et : string)
    (ids : list Iface) (id : Iface) :
  (et, ids) ∈ deps -> id ∈ ids ->
  exists l1 l2,
    dependencyCmds ttl deps ck =
    l1 ++ [CSAdd (dependencyKey et id) ck; CExpire (dependencyKey et id) (Int.mul ttl 2)] ++ l2.
Proof.
  intros (d1 & d2 & ->)%list_elem_of_split (i1 & i2 & ->)%list_elem_of_split.
  unfold dependencyCmds. rewrite bind_app, bind_cons. cbn beta iota.
  rewrite bind_app, bind_cons.
  match goal with
  | |- exists l1 l2, ?a ++ (?b ++ ?c ++ ?d) ++ ?e = _ => exists (a ++ b), (d ++ e)
  end.
  by rewrite <- !app_assoc.
Qed.

Lemma Exec_dependencyCmds_expires (ttl : Z) (deps : list (string * list Iface)) (ck et : string)
    (ids : list Iface) (id : Iface) (b : backend) :
  0 < Int.mul ttl 2 -> (et, ids) ∈ deps -> id ∈ ids ->
  expires (fst (Exec b (dependencyCmds ttl deps ck))) (dependencyKey et id)
    (expireMillis (Int.mul ttl 2)).
Proof.
  intros Ht Hd Hi.
  pose proof (dependencyCmds_dep_cmd ttl deps ck) as Hall.
  destruct (dependencyCmds_split ttl deps ck et ids id Hd Hi) as (l1 & l2 & Heq).
  rewrite Heq in *. apply Forall_app in Hall as [_ Hall]. apply Forall_app in Hall as [_ Hall].
  rewrite Exec_app. destruct (Exec b l1) as [b1 e1].
  rewrite Exec_app. destruct (Exec b1 _) as [b2 e2] eqn:H2.
  destruct (Exec b2 l2) as [b3 e3] eqn:H3. simpl.
  change b3 with (fst (b3, e3)). rewrite <- H3.
  apply Exec_dep_cmds_expires; [done..|].
  change b2 with (fst (b2, e2)). rewrite <- H2. simpl.
  destruct (cSAdd b1 _ ck) as [b' e'] eqn:Hs. simpl.
  change b' with (fst (b', e')). rewrite <- Hs. by apply SAdd_Expire_expires.
Qed.

Lemma dependencyCmds_keys (ttl : Z) (deps : list (string * list Iface)) (ck : string) (c : cmd) :
  c ∈ dependencyCmds ttl deps ck ->
  exists et ids id, (et, ids) ∈ deps /\ id ∈ ids /\ cmd_key c = dependencyKey et id.
Proof.
  unfold dependencyCmds. intros Hc.
  apply list_elem_of_bind in Hc as ([et ids] & Hc & Hd).
  apply list_elem_of_bind in Hc as (id & Hc & Hi).
  exists et, ids, id. repeat split; [done..|].
  apply elem_of_cons in Hc as [->|Hc]; [done|].
  apply elem_of_cons in Hc as [->|Hc]; [done|]. by apply elem_of_nil in Hc.
Qed.

(** C7, as amended.  With a positive [DefaultTTL] whose double fits in 64
    bits, [AddDependency], [AddMultipleDependencies] and
    [SetWithDependencies] leave every dependency set they touch with the
    time to live of an [EXPIRE] of [2 * DefaultTTL]: that duration cut to
    whole seconds, one second at least, and the duration itself when it is a
    whole number of seconds.  [SetWithDependencies] stores its value with
    the time to live of a [SET] of [DefaultTTL], which is shorter: the set
    outlives the value.  The time to live of the key a dependency names is
    not read. *)
Theorem dependency_ttl_twice_default (m : Manager) (st : State) :
  checkClient m = None ->
  0 < DefaultTTL (config m) ->
  2 * DefaultTTL (config m) <= Int.MaxInt64 ->
  (forall et id ck,
     ((forall s t, store st !! dependencyKey et id <> Some (Entry (RString s) t)) ->
      fst (AddDependency m et id ck st) = None) /\
     (fst (AddDependency m et id ck st) = None ->
      expires (store (snd (AddDependency m et id ck st))) (dependencyKey et id)
        (expireMillis (2 * DefaultTTL (config m))))) /\
  (forall deps ck et ids id, (et, ids) ∈ deps -> id ∈ ids ->
     expires (store (snd (AddMultipleDependencies m deps ck st))) (dependencyKey et id)
       (expireMillis (2 * DefaultTTL (config m)))) /\
  (forall ck v deps,
     (forall et ids id, (et, ids) ∈ deps -> id ∈ ids ->
        expires (store (snd (SetWithDependencies m ck v deps st))) (dependencyKey et id)
          (expireMillis (2 * DefaultTTL (config m)))) /\
     ((forall et ids id, (et, ids) ∈ deps -> id ∈ ids -> dependencyKey et id <> ck) ->
      store (snd (SetWithDependencies m ck v deps st)) !! ck =
        Some (Entry (RString v) (Some (setMillis (DefaultTTL (config m))))))) /\
  expireMillis (2 * DefaultTTL (config m)) =
    1000 * (if 2 * DefaultTTL (config m) <? Second then 1
            else Z.quot (2 * DefaultTTL (config m)) Second) /\
  (Z.rem (2 * DefaultTTL (config m)) Second = 0 ->
   Millisecond * expireMillis (2 * DefaultTTL (config m)) = 2 * DefaultTTL (config m)) /\
  setMillis (DefaultTTL (config m)) < expireMillis (2 * DefaultTTL (config m)).
Proof.
  intros Hc Hpos Hmax.
  assert (Int.mul (DefaultTTL (config m)) 2 = 2 * DefaultTTL (config m)) as Hmul.
  { unfold Int.mul. rewrite Int.wrap_small; unfold Int.MinInt64, Int.MaxInt64 in *; lia. }
  assert (0 < Int.mul (DefaultTTL (config m)) 2) as Hpos2 by lia.
  split; [|split; [|split; [|split; [|split]]]].
  - intros et id ck. unfold AddDependency. rewrite Hc.
    destruct (cSAdd (store st) (dependencyKey et id) ck) as [b e] eqn:Hs.
    split.
    + intros Hno. unfold cSAdd in Hs.
      destruct (store st !! dependencyKey et id) as [[[s|ms] t]|] eqn:Hk;
        [by destruct (Hno s t) | by inversion Hs; subst..].
    + destruct e; [done|]. intros _. cbn [fst snd store with_store with_metrics].
      change b with (fst (b, @None client_err)). rewrite <- Hs, <- Hmul.
      by apply SAdd_Expire_expires.
  - intros deps ck et ids id Hd Hi. unfold AddMultipleDependencies. rewrite Hc.
    destruct (Exec _ _) as [b e] eqn:He. cbn [fst snd store with_store].
    change b with (fst (b, e)). rewrite <- He, <- Hmul.
    by apply Exec_dependencyCmds_expires with ids.
  - intros ck v deps. unfold SetWithDependencies. rewrite Hc.
    destruct (Exec _ _) as [b e] eqn:He. cbn [Exec run_cmd fst snd store with_store] in *.
    destruct (Exec (cSet _ _ _ _) _) as [b2 e2] eqn:He2. inversion He; subst b e. clear He.
    change b2 with (fst (b2, e2)). rewrite <- He2. split.
    + intros et ids id Hd Hi. rewrite <- Hmul.
      by apply Exec_dependencyCmds_expires with ids.
    + intros Hne. rewrite Exec_other.
      * unfold cSet. rewrite lookup_insert_eq. unfold ttl_after_set.
        by replace (0 <? DefaultTTL (config m)) with true by (symmetry; by apply Z.ltb_lt).
      * apply Forall_forall. intros c (et & ids & id & Hd & Hi & ->)%dependencyCmds_keys.
        by apply (Hne et ids id).
  - unfold expireMillis, formatSec.
    by replace (0 <? 2 * DefaultTTL (config m)) with true by (symmetry; apply Z.ltb_lt; lia).
  - apply expireMillis_exact. lia.
  - by apply setMillis_lt_expireMillis.
Qed.

(** *** Reassembling the chunks *)

Lemma append_nil_r (s : string) : s +:+ EmptyString = s.
Proof. induction s as [|c s IH]; [done | by rewrite append_cons, IH]. Qed.

Lemma concat_app (l1 l2 : list string) : concat (l1 ++ l2) = concat l1 +:+ concat l2.
Proof.
  induction l1 as [|s l1 IH]; simpl; [by rewrite append_nil|].
  unfold concat in *. simpl. by rewrite IH, append_assoc.
Qed.

Lemma take_take_drop (a b : nat) (s : string) :
  take a s +:+ take b (drop a s) = take (a + b) s.
Proof.
  revert s; induction a as [|a IH]; intros s; simpl.
  - by rewrite append_nil.
  - destruct s as [|c s]; [by destruct b|]. by rewrite append_cons, IH.
Qed.

Lemma take_min (n : nat) (s : string) : take (Nat.min n (String.length s)) s = take n s.
Proof.
  revert s; induction n as [|n IH]; intros [|c s]; simpl; try done. by rewrite IH.
Qed.

Lemma concat_chunks (cs : nat) (data : string) (k : nat) :
  concat ((fun i => take cs (drop (i * cs) data)) <$> seq 0 k) = take (k * cs) data.
Proof.
  induction k as [|k IH]; [done|].
  rewrite seq_S, fmap_app, concat_app, IH. simpl.
  unfold concat. simpl. rewrite append_nil_r, take_take_drop. f_equal. lia.
Qed.

(** When the index arithmetic stays inside 64 bits, chunk [i] is the [i]-th
    block of [chunkSize] bytes. *)
Lemma chunkOf_block (data : string) (chunkSize i : Z) :
  0 < chunkSize -> 0 <= i -> i * chunkSize + chunkSize <= Int.MaxInt64 ->
  chunkOf data chunkSize i =
  take (Z.to_nat chunkSize) (drop (Z.to_nat i * Z.to_nat chunkSize) data).
Proof.
  intros Hcs Hi Hmax. unfold chunkOf, Int.mul, Int.add.
  rewrite (Int.wrap_small (i * chunkSize)) by (unfold Int.MinInt64, Int.MaxInt64 in *; nia).
  rewrite Int.wrap_small by (unfold Int.MinInt64, Int.MaxInt64 in *; nia).
  unfold slice, len.
  replace (Z.to_nat (i * chunkSize)) with (Z.to_nat i * Z.to_nat chunkSize)%nat by nia.
  destruct (Z.ltb_spec (Z.of_nat (String.length data)) (i * chunkSize + chunkSize)) as [Hlt|Hge].
  - rewrite <- (take_min (Z.to_nat chunkSize)), length_drop.
    destruct (decide (i * chunkSize <= Z.of_nat (String.length data))).
    + f_equal. lia.
    + rewrite !drop_all by lia. by destruct (Z.to_nat _), (Nat.min _ _).
  - f_equal. lia.
Qed.

Lemma chunkCountOf_ceil (data : string) (chunkSize : Z) :
  0 < chunkSize -> len data + chunkSize <= Int.MaxInt64 ->
  chunkCountOf data chunkSize = (len data + chunkSize - 1) / chunkSize.
Proof.
  intros Hcs Hmax. unfold chunkCountOf, Int.quot, Int.sub, Int.add.
  assert (0 <= len data) by (unfold len; lia).
  rewrite (Int.wrap_small (len data + chunkSize)) by (unfold Int.MinInt64, Int.MaxInt64 in *; lia).
  rewrite (Int.wrap_small (_ - 1)) by (unfold Int.MinInt64, Int.MaxInt64 in *; lia).
  rewrite Z.quot_div_nonneg by lia.
  apply Int.wrap_small. unfold Int.MinInt64, Int.MaxInt64 in *.
  split; [pose proof (Z.div_pos (len data + chunkSize - 1) chunkSize); lia|].
  apply Z.le_trans with (len data + chunkSize - 1); [|lia].
  apply Z.div_le_upper_bound; nia.
Qed.

Lemma chunks_reassemble (data : string) (chunkSize : Z) :
  0 < chunkSize -> len data + chunkSize <= Int.MaxInt64 ->
  concat (chunkOf data chunkSize <$> seqZ 0 (chunkCountOf data chunkSize)) = data.
Proof.
  intros Hcs Hmax. rewrite chunkCountOf_ceil by done.
  set (n := (len data + chunkSize - 1) / chunkSize).
  assert (0 <= len data) by (unfold len; lia).
  assert (0 <= n) by (apply Z.div_pos; lia).
  assert (len data <= n * chunkSize /\ n * chunkSize < len data + chunkSize) as [Hlo Hhi].
  { pose proof (Z.div_mod (len data + chunkSize - 1) chunkSize ltac:(lia)) as Hdm.
    pose proof (Z.mod_pos_bound (len data + chunkSize - 1) chunkSize Hcs). fold n in Hdm. nia. }
  unfold seqZ. rewrite <- list_fmap_compose.
  erewrite (list_fmap_ext _ (fun i => take (Z.to_nat chunkSize) (drop (i * Z.to_nat chunkSize) data))).
  - rewrite concat_chunks. apply take_all. unfold len in *. nia.
  - intros k i Hk. simpl. apply lookup_seq in Hk as [-> Hk]. simpl.
    rewrite chunkOf_block by nia. f_equal. f_equal. lia.
Qed.

Lemma Split_chunkedMetadata (compressed : bool) (n : Z) :
  Split (chunkedMetadata compressed n) colon = ["chunked"; FormatBool compressed; Itoa n].
Proof.
  unfold chunkedMetadata.
  change ("chunked:" +:+ FormatBool compressed +:+ ":" +:+ Itoa n)
    with ("chunked" +:+ String colon (FormatBool compressed +:+ String colon (Itoa n))).
  rewrite Split_app by done. rewrite Split_app by (by destruct compressed).
  by rewrite Split_free by apply Itoa_free_colon.
Qed.

Lemma HasPrefix_chunkedMetadata (compressed : bool) (n : Z) :
  HasPrefix (chunkedMetadata compressed n) "chunked:" = true.
Proof.
  unfold HasPrefix. apply (Split_prefix _ "chunked" (FormatBool compressed) colon [Itoa n]).
  apply Split_chunkedMetadata.
Qed.

Lemma FormatBool_true (b : bool) : String.eqb (FormatBool b) "true" = b.
Proof. by destruct b. Qed.

Lemma chunkCountOf_range (data : string) (chunkSize : Z) :
  Int.in_range (chunkCountOf data chunkSize) = true.
Proof.
  unfold chunkCountOf, Int.quot, Int.in_range.
  pose proof (Int.wrap_range (Int.sub (Int.add (len data) chunkSize) 1 ÷ chunkSize)).
  apply andb_true_intro; split; apply Z.leb_le; lia.
Qed.

Lemma getLargeValueConfig_pos (m : Manager) : 0 < maxValueSize m /\ 0 < chunkSizeOf m.
Proof.
  unfold maxValueSize, chunkSizeOf, getLargeValueConfig.
  split; match goal with |- context [if ?c <=? 0 then _ else _] =>
    destruct (Z.leb_spec c 0) end; lia.
Qed.

Section Roundtrip.
Variable compressData : string -> string.
Variable decompressData : string -> res string string.
Hypothesis gzip_roundtrip : forall v, decompressData (compressData v) = Ok v.

Lemma getChunked_setChunked m key data compressed chunkSize st :
  0 < chunkSize -> len data + chunkSize <= Int.MaxInt64 ->
  getChunked key (snd (setChunked m key data compressed chunkSize st)) = Ok (data, compressed).
Proof.
  intros Hcs Hmax. unfold getChunked.
  rewrite setChunked_metadata, Split_chunkedMetadata.
  rewrite String.eqb_refl. cbn [negb].
  rewrite Atoi_Itoa by apply chunkCountOf_range.
  rewrite (getChunks_all _ _ _ (chunkOf data chunkSize <$> seqZ 0 (chunkCountOf data chunkSize))).
  - by rewrite chunks_reassemble, FormatBool_true.
  - apply Forall2_fmap_r, Forall_Forall2_diag, Forall_forall.
    intros i Hi%elem_of_seqZ. apply setChunked_chunk. lia.
Qed.

Lemma GetLarge_setChunked m key data compressed chunkSize st :
  checkClient m = None ->
  0 < chunkSize -> len data + chunkSize <= Int.MaxInt64 ->
  fst (GetLarge decompressData m key (snd (setChunked m key data compressed chunkSize st))) =
  if compressed then decompressed decompressData data else Ok data.
Proof.
  intros Hc Hcs Hmax. unfold GetLarge, isChunkedValue.
  rewrite Hc, setChunked_metadata, HasPrefix_chunkedMetadata.
  rewrite getChunked_setChunked by done. by destruct compressed.
Qed.

Lemma Get_value m key data st :
  checkClient m = None -> cGet (store st) key = Ok data ->
  fst (Get m key st) = Ok data.
Proof. intros Hc Hk. unfold Get. rewrite Hc. simpl. by rewrite Hk. Qed.

Lemma GetLarge_single m key data st :
  checkClient m = None ->
  cGet (store st) key = Ok data ->
  cGet (store st) (metadataKey key) = Ok (singleMetadata true) ->
  fst (GetLarge decompressData m key st) = decompressed decompressData data.
Proof.
  intros Hc Hk Hm. unfold GetLarge, isChunkedValue, getWithMetadata. rewrite Hc, Hm.
  pose proof (Get_value m key data st Hc Hk) as Hg.
  simpl. destruct (Get m key st) as [[d|e] st1]; simpl in *; by inversion Hg.
Qed.

Lemma GetLarge_plain m key data st :
  checkClient m = None ->
  cGet (store st) key = Ok data ->
  store st !! metadataKey key = None ->
  fst (GetLarge decompressData m key st) = Ok data.
Proof.
  intros Hc Hk Hm. unfold GetLarge, isChunkedValue, getWithMetadata.
  unfold cGet at 1 2. rewrite Hc, Hm.
  pose proof (Get_value m key data st Hc Hk) as Hg.
  simpl. destruct (Get m key st) as [[d|e] st1]; simpl in *; by inversion Hg.
Qed.

(** The round trip on a key that holds no metadata: a payload within
    [maxValueSize] that [SetLarge] stores is what [GetLarge] returns,
    whether it was compressed or not and stored in chunks or not.  The codec
    is any pair that round-trips, and the chunk arithmetic stays inside 64
    bits. *)
Theorem SetLarge_GetLarge_fresh (m : Manager) (key value : string) (st : State) :
  checkClient m = None ->
  len value <= maxValueSize m ->
  maxValueSize m + chunkSizeOf m <= Int.MaxInt64 ->
  store st !! metadataKey key = None ->
  fst (SetLarge compressData m key value st) = None /\
  fst (GetLarge decompressData m key (snd (SetLarge compressData m key value st))) = Ok value.
Proof.
  intros Hc Hlen Hmax Hfresh.
  destruct (getLargeValueConfig_pos m) as [_ Hcs].
  unfold SetLarge, maxValueSize, chunkSizeOf in *. rewrite Hc.
  destruct (getLargeValueConfig m) as [[[[maxSize chunkSize] threshold] enC] enK].
  replace (maxSize <? len value) with false by (symmetry; apply Z.ltb_ge; lia).
  destruct (enC && (threshold <? len value)); [destruct (Z.ltb_spec (len (compressData value)) (len value))|];
    match goal with |- context [if ?c then setChunked _ _ _ _ _ _ else _] => destruct c end;
    (split; [auto using setChunked_ok, setWithMetadata_ok|]).
  - rewrite GetLarge_setChunked by (done || lia).
    unfold decompressed. by rewrite gzip_roundtrip.
  - match goal with
    | |- context [setWithMetadata m key ?d true false ?s] =>
        destruct (setWithMetadata_compressed m key d false s) as [Hk Hm]
    end.
    rewrite (GetLarge_single _ _ _ _ Hc Hk Hm). unfold decompressed. by rewrite gzip_roundtrip.
  - by rewrite GetLarge_setChunked by (done || lia).
  - destruct (setWithMetadata_plain m key value false st Hc) as [Hk Hm].
    apply GetLarge_plain; [done..|]. by rewrite Hm.
  - by rewrite GetLarge_setChunked by (done || lia).
  - destruct (setWithMetadata_plain m key value false st Hc) as [Hk Hm].
    apply GetLarge_plain; [done..|]. by rewrite Hm.
Qed.
End Roundtrip.

(** *** What [SetLarge] stores *)

Section Stored.
Variable compressData : string -> string.
Variable decompressData : string -> res string string.

(** Whether [SetLarge] stores the compressed bytes of a value. *)
Definition storesCompressed (m : Manager) (value : string) : bool :=
  EnableCompression (LargeValue (config m)) && (compressThresholdOf m <? len value) &&
  (len (compressData value) <? len value).

(** The bytes [SetLarge] stores for a value. *)
Definition storedBytes (m : Manager) (value : string) : string :=
  if storesCompressed m value then compressData value else value.

(** The backend holds a value the way [SetLarge] stores it: cut into the
    chunk keys, under a metadata key that tells their number, or under its
    own key, with a metadata key when the bytes are compressed. *)
Definition holdsValue (m : Manager) (key value : string) (b : backend) : Prop :=
  let data := storedBytes m value in
  if needsChunking m data then
    cGet b (metadataKey key) =
      Ok (chunkedMetadata (storesCompressed m value) (chunkCountOf data (chunkSizeOf m))) /\
    forall i, 0 <= i < chunkCountOf data (chunkSizeOf m) ->
      cGet b (chunkKey key i) = Ok (chunkOf data (chunkSizeOf m) i)
  else
    cGet b key = Ok data /\
    (storesCompressed m value = true -> cGet b (metadataKey key) = Ok (singleMetadata true)).

Lemma SetLarge_holdsValue (m : Manager) (key value : string) (st : State) :
  checkClient m = None ->
  len value <= maxValueSize m ->
  holdsValue m key value (store (snd (SetLarge compressData m key value st))).
Proof.
  intros Hc Hm.
  unfold holdsValue, storedBytes, storesCompressed, SetLarge, needsChunking, chunkSizeOf,
    compressThresholdOf, maxValueSize in *.
  rewrite Hc.
  assert ((getLargeValueConfig m).1.2 = EnableCompression (LargeValue (config m))) as Hcfg
    by done.
  destruct (getLargeValueConfig m) as [[[[maxSize chunkSize] threshold] enC] enK].
  cbn [fst snd] in Hcfg. subst enC.
  replace (maxSize <? len value) with false by (symmetry; apply Z.ltb_ge; lia).
  destruct (EnableCompression (LargeValue (config m)) && (threshold <? len value));
    cbn [andb]; [destruct (len (compressData value) <? len value)|];
    destruct (enK && (chunkSize <? len _)).
  - split; [apply setChunked_metadata | intros; by apply setChunked_chunk].
  - by destruct (setWithMetadata_compressed m key (compressData value) false
                   (with_metrics st (RecordCompression
                      (Int.sub (len value) (len (compressData value)))))).
  - split; [apply setChunked_metadata | intros; by apply setChunked_chunk].
  - by destruct (setWithMetadata_plain m key value false st Hc).
  - split; [apply setChunked_metadata | intros; by apply setChunked_chunk].
  - by destruct (setWithMetadata_plain m key value false st Hc).
Qed.

(** What [GetLarge] returns after [SetLarge], when the value is stored with
    a metadata key or the key had none before. *)
Lemma SetLarge_GetLarge_decision (m : Manager) (key value : string) (st : State) :
  checkClient m = None ->
  len value <= maxValueSize m ->
  (needsChunking m (storedBytes m value) = true ->
   maxValueSize m + chunkSizeOf m <= Int.MaxInt64) ->
  storesCompressed m value || needsChunking m (storedBytes m value) = true \/
    store st !! metadataKey key = None ->
  fst (GetLarge decompressData m key (snd (SetLarge compressData m key value st))) =
    (if storesCompressed m value then decompressed decompressData (compressData value)
     else Ok value) /\
  (storesCompressed m value || needsChunking m (storedBytes m value) = false ->
   store (snd (SetLarge compressData m key value st)) !! metadataKey key = None).
Proof.
  intros Hc Hm Hmax Hfresh.
  destruct (getLargeValueConfig_pos m) as [_ Hcs].
  unfold storedBytes, storesCompressed, SetLarge, needsChunking, chunkSizeOf,
    compressThresholdOf, maxValueSize in *.
  rewrite Hc.
  assert ((getLargeValueConfig m).1.2 = EnableCompression (LargeValue (config m))) as Hcfg
    by done.
  destruct (getLargeValueConfig m) as [[[[maxSize chunkSize] threshold] enC] enK].
  cbn [fst snd] in Hcfg. subst enC.
  replace (maxSize <? len value) with false by (symmetry; apply Z.ltb_ge; lia).
  destruct (EnableCompression (LargeValue (config m)) && (threshold <? len value));
    cbn [andb] in *;
    [destruct (Z.ltb_spec (len (compressData value)) (len value))|];
    cbn [andb] in *;
    destruct (enK && (chunkSize <? len _)); cbn [orb] in *.
  - split; [|done]. specialize (Hmax eq_refl).
    by rewrite GetLarge_setChunked by (done || lia).
  - split; [|done].
    match goal with
    | |- context [setWithMetadata m key ?d true false ?s] =>
        destruct (setWithMetadata_compressed m key d false s) as [Hk Hmeta]
    end.
    by rewrite (GetLarge_single decompressData _ _ _ _ Hc Hk Hmeta).
  - split; [|done]. specialize (Hmax eq_refl).
    by rewrite GetLarge_setChunked by (done || lia).
  - destruct Hfresh as [?|Hfresh]; [done|].
    destruct (setWithMetadata_plain m key value false st Hc) as [Hk Hmeta].
    split; [|intros _; by rewrite Hmeta].
    apply GetLarge_plain; [done..|]. by rewrite Hmeta.
  - split; [|done]. specialize (Hmax eq_refl).
    by rewrite GetLarge_setChunked by (done || lia).
  - destruct Hfresh as [?|Hfresh]; [done|].
    destruct (setWithMetadata_plain m key value false st Hc) as [Hk Hmeta].
    split; [|intros _; by rewrite Hmeta].
    apply GetLarge_plain; [done..|]. by rewrite Hmeta.
Qed.

(** C2.  A value of exactly [maxValueSize] bytes is accepted: [SetLarge]
    returns no error and the backend then holds the value, in chunks or
    under its key, compressed or not, as the configuration decides.  A value
    one byte longer is refused with [ErrValueTooLarge] and the call leaves
    the backend and the counters as they were: no key is written. *)
Theorem SetLarge_boundary (m : Manager) (key value over : string) (st : State) :
  checkClient m = None ->
  len value = maxValueSize m ->
  len over = maxValueSize m + 1 ->
  fst (SetLarge compressData m key value st) = None /\
  holdsValue m key value (store (snd (SetLarge compressData m key value st))) /\
  SetLarge compressData m key over st =
    (Some (ErrValueTooLarge (len over) (maxValueSize m)), st).
Proof.
  intros Hc Hv Ho. split; [|split].
  - unfold SetLarge, maxValueSize in *. rewrite Hc.
    destruct (getLargeValueConfig m) as [[[[maxSize chunkSize] threshold] enC] enK].
    replace (maxSize <? len value) with false by (symmetry; apply Z.ltb_ge; lia).
    repeat match goal with
           | |- context [if ?c then _ else _] => destruct c
           end; auto using setChunked_ok, setWithMetadata_ok.
  - apply SetLarge_holdsValue; [done|lia].
  - unfold SetLarge, maxValueSize in *. rewrite Hc.
    destruct (getLargeValueConfig m) as [[[[maxSize chunkSize] threshold] enC] enK].
    replace (maxSize <? len over) with true by (symmetry; apply Z.ltb_lt; lia).
    by rewrite Ho.
Qed.

(** C3, as amended.  For a payload above [compressThreshold] and within
    [maxValueSize], [SetLarge] stores the compressed bytes exactly when
    compression is enabled and they are strictly shorter than the payload,
    and the payload itself otherwise.  When the value is stored in chunks or
    compressed, the choice is written to the metadata key
    (["chunked:<bool>:<count>"], ["single:true:1"]) and [GetLarge]
    decompresses exactly when the metadata says so.  An uncompressed value
    stored under its own key comes without metadata key: where there was
    none before there is none afterwards, and [GetLarge] returns the bytes
    as they are stored. *)
Theorem SetLarge_compression_decision (m : Manager) (key value : string) (st : State) :
  checkClient m = None ->
  compressThresholdOf m < len value <= maxValueSize m ->
  let c := compressData value in
  let compressed := EnableCompression (LargeValue (config m)) && (len c <? len value) in
  let data := if compressed then c else value in
  let st' := snd (SetLarge compressData m key value st) in
  let read := fst (GetLarge decompressData m key st') in
  if needsChunking m data then
    cGet (store st') (metadataKey key) =
      Ok (chunkedMetadata compressed (chunkCountOf data (chunkSizeOf m))) /\
    (forall i, 0 <= i < chunkCountOf data (chunkSizeOf m) ->
       cGet (store st') (chunkKey key i) = Ok (chunkOf data (chunkSizeOf m) i)) /\
    (maxValueSize m + chunkSizeOf m <= Int.MaxInt64 ->
     read = if compressed then decompressed decompressData c else Ok value)
  else
    cGet (store st') key = Ok data /\
    if compressed then
      cGet (store st') (metadataKey key) = Ok (singleMetadata true) /\
      read = decompressed decompressData c
    else
      store st !! metadataKey key = None ->
      store st' !! metadataKey key = None /\ read = Ok value.
Proof.
  intros Hc [Ht Hm]. cbv zeta.
  pose proof (SetLarge_holdsValue m key value st Hc Hm) as Hs.
  pose proof (SetLarge_GetLarge_decision m key value st Hc Hm) as Hr.
  assert (storesCompressed m value =
          EnableCompression (LargeValue (config m)) && (len (compressData value) <? len value))
    as Hsc.
  { unfold storesCompressed.
    replace (compressThresholdOf m <? len value) with true
      by (symmetry; apply Z.ltb_lt; lia).
    by rewrite andb_true_r. }
  unfold holdsValue, storedBytes in *. rewrite Hsc in *.
  destruct (EnableCompression (LargeValue (config m)) && (len (compressData value) <? len value));
    destruct (needsChunking m _); cbn [orb] in *.
  - destruct Hs as [H1 H2]. split; [done|]. split; [done|]. intros Hb.
    by apply Hr; [|left].
  - destruct Hs as [H1 H2]. split; [done|]. split; [by apply H2|].
    by apply Hr; [|left].
  - destruct Hs as [H1 H2]. split; [done|]. split; [done|]. intros Hb.
    by apply Hr; [|left].
  - destruct Hs as [H1 _]. split; [done|]. intros Hfresh.
    destruct Hr as [H3 H4]; [done|by right|]. split; [by apply H4|done].
Qed.

End Stored.

(** *** Worked instances

    A run-length codec stands in for gzip: the first byte of the data,
    preceded by the number of times it is repeated right after (at most
    255), then the rest. *)

Fixpoint headRun (c : ascii) (s : string) (limit : nat) : nat :=
  match limit, s with
  | S l, String a r => if Ascii.eqb a c then S (headRun c r l) else O
  | _, _ => O
  end.

Fixpoint replicate (n : nat) (c : ascii) (s : string) : string :=
  match n with
  | O => s
  | S n' => String c (replicate n' c s)
  end.

Definition rleCompress (s : string) : string :=
  match s with
  | EmptyString => EmptyString
  | String c r =>
      let k := headRun c r 255 in
      String (ascii_of_nat k) (String c (drop k r))
  end.

Definition rleDecompress (s : string) : res string string :=
  match s with
  | EmptyString => Ok EmptyString
  | String n (String c r) => Ok (String c (replicate (nat_of_ascii n) c r))
  | String _ EmptyString => Err EmptyString
  end.

Lemma headRun_le (c : ascii) (s : string) (limit : nat) : (headRun c s limit <= limit)%nat.
Proof.
  revert s; induction limit as [|l IH]; intros [|a r]; simpl; try lia.
  destruct (Ascii.eqb a c); [specialize (IH r)|]; lia.
Qed.

Lemma replicate_headRun (c : ascii) (s : string) (limit : nat) :
  replicate (headRun c s limit) c (drop (headRun c s limit) s) = s.
Proof.
  revert s; induction limit as [|l IH]; intros [|a r]; simpl; try done.
  destruct (Ascii.eqb_spec a c) as [->|]; simpl; [by rewrite IH | done].
Qed.

Lemma rle_roundtrip (v : string) : rleDecompress (rleCompress v) = Ok v.
Proof.
  destruct v as [|c r]; [done|]. unfold rleCompress, rleDecompress.
  rewrite nat_ascii_embedding by (pose proof (headRun_le c r 255); lia).
  by rewrite replicate_headRun.
Qed.

Definition emptyState : State := {| store := ∅; metrics := NewMetrics |}.

(** A manager with small limits: at most 16 bytes, chunks of 4 bytes,
    compression above 2 bytes, a default time to live of 10 nanoseconds. *)
Definition smallManager (compression chunking : bool) : Manager :=
  {| config :=
       {| Enabled := true; DefaultTTL := 10;
          LargeValue :=
            {| MaxValueSize := 16; ChunkSize := 4; CompressThreshold := 2;
               EnableCompression := compression; EnableChunking := chunking |} |};
     client := true |}.

(** A backend that holds the given string values. *)
Definition stateOf (values : list (string * string)) : State :=
  {| store := list_to_map ((fun '(k, v) => (k, Entry (RString v) (Some 10))) <$> values);
     metrics := NewMetrics |}.

(** C1, the failing run: a value stored in chunks, then overwritten by a
    value that needs neither compression nor chunks.  The second [SetLarge]
    succeeds, and [GetLarge] returns the first value. *)
Theorem SetLarge_GetLarge_stale_metadata (compressData : string -> string)
    (decompressData : string -> res string string) :
  let m := smallManager false true in
  let st1 := snd (SetLarge compressData m "k" "abcde" emptyState) in
  let st2 := snd (SetLarge compressData m "k" "z" st1) in
  fst (SetLarge compressData m "k" "abcde" emptyState) = None /\
  fst (SetLarge compressData m "k" "z" st1) = None /\
  fst (GetLarge decompressData m "k" st2) = Ok "abcde".
Proof. by vm_compute. Qed.

(** The round trip on eight equal bytes, stored compressed under the key. *)
Lemma SetLarge_GetLarge_fresh_witness :
  fst (GetLarge rleDecompress (smallManager true true) "k"
         (snd (SetLarge rleCompress (smallManager true true) "k" "aaaaaaaa" emptyState))) =
  Ok "aaaaaaaa".
Proof.
  assert (len "aaaaaaaa" <= maxValueSize (smallManager true true)) as Hlen by done.
  assert (maxValueSize (smallManager true true) + chunkSizeOf (smallManager true true)
          <= Int.MaxInt64) as Hmax by done.
  exact (proj2 (SetLarge_GetLarge_fresh rleCompress rleDecompress rle_roundtrip
                  (smallManager true true) "k" "aaaaaaaa" emptyState
                  eq_refl Hlen Hmax eq_refl)).
Defined.

(** C2 on a manager with a limit of 16 bytes: the sixteen bytes are stored
    in four chunks, the seventeen are refused. *)
Lemma SetLarge_boundary_witness :
  let m := smallManager true true in
  let st' := snd (SetLarge rleCompress m "k" "0123456789abcdef" emptyState) in
  fst (SetLarge rleCompress m "k" "0123456789abcdef" emptyState) = None /\
  cGet (store st') (metadataKey "k") = Ok "chunked:false:4" /\
  cGet (store st') (chunkKey "k" 3) = Ok "cdef" /\
  SetLarge rleCompress m "k" "0123456789abcdefg" emptyState =
    (Some (ErrValueTooLarge 17 16), emptyState).
Proof.
  assert (0 <= 3 < 4) as Hi by lia.
  destruct (SetLarge_boundary rleCompress (smallManager true true) "k"
              "0123456789abcdef" "0123456789abcdefg" emptyState eq_refl eq_refl eq_refl)
    as (Hok & Hheld & Hover).
  exact (conj Hok (conj (proj1 Hheld) (conj (proj2 Hheld 3 Hi) Hover))).
Defined.

(** C3 on eight equal bytes, which the codec shortens to two, and on three
    bytes that it does not shorten. *)
Lemma SetLarge_compression_decision_witness :
  (let st' := snd (SetLarge rleCompress (smallManager true true) "k" "aaaaaaaa" emptyState) in
   cGet (store st') "k" = Ok (rleCompress "aaaaaaaa") /\
   cGet (store st') (metadataKey "k") = Ok "single:true:1" /\
   fst (GetLarge rleDecompress (smallManager true true) "k" st') = Ok "aaaaaaaa") /\
  (let st' := snd (SetLarge rleCompress (smallManager true true) "k" "abc" emptyState) in
   cGet (store st') "k" = Ok "abc" /\
   store st' !! metadataKey "k" = None /\
   fst (GetLarge rleDecompress (smallManager true true) "k" st') = Ok "abc").
Proof.
  assert (compressThresholdOf (smallManager true true) < len "aaaaaaaa"
          <= maxValueSize (smallManager true true)) as Hsize by (by vm_compute).
  assert (compressThresholdOf (smallManager true true) < len "abc"
          <= maxValueSize (smallManager true true)) as Hsize' by (by vm_compute).
  pose proof (SetLarge_compression_decision rleCompress rleDecompress (smallManager true true)
                "k" "aaaaaaaa" emptyState eq_refl Hsize) as (H1 & H2 & H3).
  pose proof (SetLarge_compression_decision rleCompress rleDecompress (smallManager true true)
                "k" "abc" emptyState eq_refl Hsize') as (H4 & H5).
  destruct (H5 eq_refl) as [H6 H7].
  exact (conj (conj H1 (conj H2 H3)) (conj H4 (conj H6 H7))).
Defined.

(** C3 as stated fails: a payload above the threshold that does not get
    shorter is stored under its key and no metadata is stored with it. *)
Lemma SetLarge_plain_without_metadata :
  let m := smallManager true true in
  let st' := snd (SetLarge rleCompress m "k" "abc" emptyState) in
  compressThresholdOf m < len "abc" /\
  cGet (store st') "k" = Ok "abc" /\
  cGet (store st') (metadataKey "k") = Err Nil.
Proof. by vm_compute. Qed.

(** Two chunks announced, two present. *)
Definition twoChunks : State :=
  stateOf [("k_internal:meta", "chunked:false:2");
           ("k_internal:chunk:0", "ab"); ("k_internal:chunk:1", "cd")].

(** Two chunks announced, the second one missing. *)
Definition secondChunkMissing : State :=
  stateOf [("k_internal:meta", "chunked:false:2"); ("k_internal:chunk:0", "ab")].

(** Two chunks announced, three present. *)
Definition surplusChunk : State :=
  stateOf [("k_internal:meta", "chunked:false:2"); ("k_internal:chunk:0", "ab");
           ("k_internal:chunk:1", "cd"); ("k_internal:chunk:2", "ef")].

(** C4 on two chunks, all present and the second one missing. *)
Lemma GetLarge_chunked_witness :
  GetLarge rleDecompress (smallManager true true) "k" twoChunks = (Ok "abcd", twoChunks) /\
  bytesOf (fst (GetLarge rleDecompress (smallManager true true) "k" secondChunkMissing)) =
    EmptyString /\
  exists j e,
    GetLarge rleDecompress (smallManager true true) "k" secondChunkMissing =
    (Err (ErrGetChunk j e), secondChunkMissing).
Proof.
  assert (0 <= 1 < 2) as Hi by lia.
  assert (Forall2 (fun i chunk => cGet (store twoChunks) (chunkKey "k" i) = Ok chunk)
            (seqZ 0 2) ["ab"; "cd"]) as Hall by repeat constructor.
  pose proof (proj1 (proj2 (GetLarge_chunked rleDecompress (smallManager true true) "k"
                              "chunked:false:2" "false" "2" 2 twoChunks
                              eq_refl eq_refl eq_refl eq_refl) ["ab"; "cd"] Hall) eq_refl)
    as Hfull.
  destruct (proj1 (GetLarge_chunked rleDecompress (smallManager true true) "k"
                     "chunked:false:2" "false" "2" 2 secondChunkMissing
                     eq_refl eq_refl eq_refl eq_refl) 1 Nil Hi eq_refl)
    as [(j & e & _ & _ & Hmiss) Hbytes].
  exact (conj Hfull (conj Hbytes (ex_intro _ j (ex_intro _ e Hmiss)))).
Defined.

(** C4 as stated fails: the metadata announces two chunks, three are
    present, and [GetLarge] returns the first two without an error. *)
Lemma GetLarge_surplus_chunk :
  cGet (store surplusChunk) (metadataKey "k") = Ok "chunked:false:2" /\
  cGet (store surplusChunk) (chunkKey "k" 2) = Ok "ef" /\
  GetLarge rleDecompress (smallManager true true) "k" surplusChunk = (Ok "abcd", surplusChunk).
Proof. by vm_compute. Qed.

(** A dependency set of ["users":1] that names one cached key. *)
Definition oneDependent : State :=
  {| store :=
       <["sql4go:deps:users:1" := Entry (RSet {["sql4go:shop:users:find_all"]}) (Some 20)]>
         (store (stateOf [("sql4go:shop:users:find_all", "[]")]));
     metrics := NewMetrics |}.

(** C6 on a set with one dependent key, and on an absent set. *)
Lemma InvalidateEntityDependencies_idempotent_witness :
  let m := smallManager true true in
  let once := InvalidateEntityDependencies m "users" (IInt 1) oneDependent in
  let twice := InvalidateEntityDependencies m "users" (IInt 1) (snd once) in
  snd twice = snd once /\ fst twice = fst once /\
  InvalidateEntityDependencies m "orders" (IInt 7) oneDependent = (None, oneDependent).
Proof.
  pose proof (InvalidateEntityDependencies_idempotent (smallManager true true) "users" (IInt 1)
                oneDependent) as (H1 & H2 & _).
  pose proof (InvalidateEntityDependencies_idempotent (smallManager true true) "orders" (IInt 7)
                oneDependent) as (_ & _ & H3).
  exact (conj H1 (conj H2 (H3 eq_refl eq_refl))).
Defined.

(** A manager with the limits of [smallManager] and the given default time
    to live. *)
Definition timedManager (ttl : Z) : Manager :=
  {| config :=
       {| Enabled := true; DefaultTTL := ttl;
          LargeValue :=
            {| MaxValueSize := 16; ChunkSize := 4; CompressThreshold := 2;
               EnableCompression := true; EnableChunking := true |} |};
     client := true |}.

(** C7 on two identifiers of one entity type, with a default of 90 seconds:
    the set lives 180 seconds. *)
Lemma dependency_ttl_twice_default_witness :
  expires
    (store (snd (AddMultipleDependencies (timedManager (90 * Second))
                   [("users", [IInt 1; IInt 2])] "k" emptyState)))
    (dependencyKey "users" (IInt 2)) 180000.
Proof.
  assert (0 < DefaultTTL (config (timedManager (90 * Second)))) as Hpos by done.
  assert (2 * DefaultTTL (config (timedManager (90 * Second))) <= Int.MaxInt64) as Hmax by done.
  refine (proj1 (proj2 (dependency_ttl_twice_default (timedManager (90 * Second)) emptyState
                          eq_refl Hpos Hmax))
            [("users", [IInt 1; IInt 2])] "k" "users" [IInt 1; IInt 2] (IInt 2) _ _).
  - left.
  - right. left.
Defined.

(** C7 as stated fails.  With a default of 10 seconds, a value stored by
    [SetWithTTL] for 3 seconds gets a dependency set that lives 20 seconds.
    With a default of 750 milliseconds, [SetWithDependencies] stores the value
    for 750 milliseconds and the set for one second. *)
Lemma dependency_ttl_not_twice_value_ttl :
  (let m := timedManager (10 * Second) in
   let st1 := snd (SetWithTTL m "k" "v" (3 * Second) emptyState) in
   let st2 := snd (AddDependency m "users" (IInt 1) "k" st1) in
   store st2 !! "k" = Some (Entry (RString "v") (Some 3000)) /\
   store st2 !! dependencyKey "users" (IInt 1) = Some (Entry (RSet {["k"]}) (Some 20000)) /\
   20000 <> 2 * 3000) /\
  (let m := timedManager (750 * Millisecond) in
   let st := snd (SetWithDependencies m "k" "v" [("users", [IInt 1])] emptyState) in
   store st !! "k" = Some (Entry (RString "v") (Some 750)) /\
   store st !! dependencyKey "users" (IInt 1) = Some (Entry (RSet {["k"]}) (Some 1000)) /\
   1000 <> 2 * 750).
Proof. by vm_compute. Qed.

(** *** Deleting a large value *)

Lemma cDel_member (keys : list string) (b : backend) (k : string) :
  k ∈ keys -> cDel b keys !! k = None.
Proof.
  unfold cDel. revert b. induction keys as [|x keys IH]; intros b Hk; [by apply elem_of_nil in Hk|].
  cbn [foldl]. destruct (decide (k ∈ keys)) as [Hin|Hout]; [by apply IH|].
  apply elem_of_cons in Hk as [->|]; [|done].
  clear IH. revert b. induction keys as [|y keys IH]; intros b; cbn [foldl].
  - apply lookup_delete_eq.
  - rewrite delete_delete. apply IH. intros Hx. apply Hout. by right.
Qed.

(** With a readable metadata key, [DeleteLarge] returns no error and leaves
    neither the key nor its metadata key, nor any chunk that the metadata of
    a chunked value announces. *)
Theorem DeleteLarge_removes (m : Manager) (key : string) (st : State) :
  checkClient m = None ->
  cGet (store st) (metadataKey key) <> Err WRONGTYPE ->
  fst (DeleteLarge m key st) = None /\
  store (snd (DeleteLarge m key st)) !! key = None /\
  store (snd (DeleteLarge m key st)) !! metadataKey key = None /\
  (forall metadata tag flag count n i,
     cGet (store st) (metadataKey key) = Ok metadata ->
     HasPrefix metadata "chunked:" = true ->
     Split metadata colon = [tag; flag; count] ->
     Atoi count = Some n ->
     0 <= i < n ->
     store (snd (DeleteLarge m key st)) !! chunkKey key i = None).
Proof.
  intros Hc Hmeta. unfold DeleteLarge, isChunkedValue, DeleteKeys, Exists. rewrite Hc.
  destruct (cGet (store st) (metadataKey key)) as [metadata|[|]] eqn:Hg; [| |done].
  - destruct (HasPrefix metadata "chunked:") eqn:Hp.
    + cbn [fst snd store with_store app].
      repeat split.
      * apply cDel_member. left.
      * apply cDel_member. right. apply elem_of_app. right. left.
      * intros md tag flag count n i [= <-] _ Hs Hn Hi.
        apply cDel_member. right. apply elem_of_app. left.
        unfold chunkKeysOf. rewrite Hg, Hs, Hn.
        apply list_elem_of_fmap_2, elem_of_seqZ. lia.
    + assert (cExists (store st) (metadataKey key) = true) as ->.
      { unfold cExists. unfold cGet in Hg. by destruct (store st !! metadataKey key). }
      cbn [fst snd store with_store]. repeat split.
      * apply cDel_member. left.
      * apply cDel_member. right. left.
      * intros md tag flag count n i [= <-] Hp'. congruence.
  - assert (cExists (store st) (metadataKey key) = false) as Hex.
    { unfold cExists. unfold cGet in Hg.
      by destruct (store st !! metadataKey key) as [[[s|ms] t]|]. }
    rewrite Hex. cbn [fst snd store with_store]. repeat split.
    + apply cDel_member. left.
    + unfold cDel. cbn [foldl]. rewrite lookup_delete_ne by apply not_eq_sym, metadataKey_ne.
      unfold cExists in Hex. by destruct (store st !! metadataKey key).
    + intros md tag flag count n i [=].
Qed.

(** Three chunks announced, three present. *)
Definition threeChunks : State :=
  stateOf [("k_internal:meta", "chunked:false:3"); ("k_internal:chunk:0", "ab");
           ("k_internal:chunk:1", "cd"); ("k_internal:chunk:2", "e")].

(** Deleting the value stored in three chunks removes the last one too. *)
Lemma DeleteLarge_removes_witness :
  store (snd (DeleteLarge (smallManager false true) "k" threeChunks)) !! chunkKey "k" 2 = None.
Proof.
  assert (0 <= 2 < 3) as Hi by done.
  assert (cGet (store threeChunks) (metadataKey "k") <> Err WRONGTYPE) as Hmeta by done.
  exact (proj2 (proj2 (proj2 (DeleteLarge_removes (smallManager false true) "k" threeChunks
                                eq_refl Hmeta)))
           "chunked:false:3" "chunked" "false" "3" 3 2 eq_refl eq_refl eq_refl eq_refl Hi).
Defined.

(** *** More of the manager: single keys and dependency sets *)

Definition RecordDelete (x : Metrics) : Metrics :=
  {| cacheHits := cacheHits x; cacheMisses := cacheMisses x;
     cacheErrors := cacheErrors x; getOperations := getOperations x;
     setOperations := setOperations x;
     deleteOperations := Int.uwrap (deleteOperations x + 1);
     compressionSaves := compressionSaves x; chunkedOperations := chunkedOperations x;
     invalidationCount := invalidationCount x; dependencyCount := dependencyCount x |}.

(** [Ping]: a disabled cache is no error; the server of the model answers. *)
Definition Ping (m : Manager) : option error :=
  if negb (Enabled (config m)) then None
  else if negb (client m) then Some ErrClientNotInitialized
  else None.

Definition Delete (m : Manager) (key : string) (st : State) : option error * State :=
  match checkClient m with
  | Some err => (Some err, st)
  | None => (None, with_metrics (with_store st (cDel (store st) [key])) RecordDelete)
  end.

Definition GetDependencies (m : Manager) (entityType : string) (entityID : Iface)
    (st : State) : res (list string) error :=
  match checkClient m with
  | Some err => Err err
  | None =>
      match cSMembers (store st) (dependencyKey entityType entityID) with
      | Err Nil => Ok []
      | Err e => Err (ErrClient e)
      | Ok members => Ok members
      end
  end.

(** *** Facts about prefixes and deletions *)

Lemma prefix_app (a x : string) : String.prefix a (a +:+ x) = true.
Proof.
  induction a as [|c a IH]; [by destruct x|].
  rewrite append_cons. cbn [String.prefix]. by destruct (ascii_dec c c).
Qed.

Lemma prefix_refl (a : string) : String.prefix a a = true.
Proof. induction a as [|c a IH]; [done|]. cbn [String.prefix]. by destruct (ascii_dec c c). Qed.

Lemma cDel_subseteq (keys : list string) (b : backend) : cDel b keys ⊆ b.
Proof.
  unfold cDel. revert b. induction keys as [|k keys IH]; intros b; cbn [foldl]; [done|].
  etrans; [apply IH|]. apply delete_subseteq.
Qed.

Lemma cDel_other (keys : list string) (b : backend) (k : string) :
  k ∉ keys -> cDel b keys !! k = b !! k.
Proof.
  unfold cDel. revert b. induction keys as [|x keys IH]; intros b Hk; cbn [foldl]; [done|].
  rewrite IH by (intros H; apply Hk; by right).
  apply lookup_delete_ne. intros ->. apply Hk. left.
Qed.

(** The keys [DeleteLarge] hands to [DeleteKeys]. *)
Definition keysToDelete (m : Manager) (key : string) (st : State) : list string :=
  match isChunkedValue key st with
  | Ok true => [key] ++ chunkKeysOf key st ++ [metadataKey key]
  | _ =>
      match Exists m (metadataKey key) st with
      | (Ok true, _) => [key; metadataKey key]
      | _ => [key]
      end
  end.

Lemma DeleteLarge_eq (m : Manager) (key : string) (st : State) :
  DeleteLarge m key st = (None, with_store st (cDel (store st) (keysToDelete m key st))) \/
  (exists err, DeleteLarge m key st = (Some err, st)).
Proof.
  unfold DeleteLarge, keysToDelete, DeleteKeys.
  destruct (checkClient m) as [err|]; [right; by eexists|].
  destruct (isChunkedValue key st) as [[|]|err]; [| |right; by eexists].
  - left. done.
  - left. by destruct (Exists m (metadataKey key) st) as [[[|]|e] s].
Qed.

Lemma keysToDelete_prefix (m : Manager) (key : string) (st : State) (k : string) :
  k ∈ keysToDelete m key st -> String.prefix key k = true.
Proof.
  assert (forall l, k ∈ [key] ++ l ++ [metadataKey key] ->
          (forall x, x ∈ l -> String.prefix key x = true) -> String.prefix key k = true) as Hall.
  { intros l Hk Hl. apply elem_of_app in Hk as [Hk|Hk].
    - apply list_elem_of_singleton in Hk as ->. apply prefix_refl.
    - apply elem_of_app in Hk as [Hk|Hk]; [by apply Hl|].
      apply list_elem_of_singleton in Hk as ->. apply prefix_app. }
  unfold keysToDelete.
  destruct (isChunkedValue key st) as [[|]|err]; intros Hk.
  - apply (Hall _ Hk). intros x Hx. unfold chunkKeysOf in Hx.
    destruct (cGet (store st) (metadataKey key)) as [md|]; [|by apply elem_of_nil in Hx].
    destruct (Split md colon) as [|? [|? [|count [|]]]]; try by apply elem_of_nil in Hx.
    destruct (Atoi count); [|by apply elem_of_nil in Hx].
    apply list_elem_of_fmap in Hx as (i & -> & _). apply prefix_app.
  - destruct (Exists m (metadataKey key) st) as [[[|]|e] s];
      [apply (Hall [] Hk); intros x Hx; by apply elem_of_nil in Hx|..];
      apply list_elem_of_singleton in Hk as ->; apply prefix_refl.
  - destruct (Exists m (metadataKey key) st) as [[[|]|e] s];
      [apply (Hall [] Hk); intros x Hx; by apply elem_of_nil in Hx|..];
      apply list_elem_of_singleton in Hk as ->; apply prefix_refl.
Qed.

Lemma DeleteLarge_subseteq (m : Manager) (key : string) (st : State) :
  store (snd (DeleteLarge m key st)) ⊆ store st /\
  metrics (snd (DeleteLarge m key st)) = metrics st.
Proof.
  destruct (DeleteLarge_eq m key st) as [->|[err ->]]; cbn [snd store with_store metrics];
    [|done]. split; [apply cDel_subseteq | done].
Qed.

Lemma DeleteLarge_other (m : Manager) (key k : string) (st : State) :
  String.prefix key k = false -> store (snd (DeleteLarge m key st)) !! k = store st !! k.
Proof.
  intros Hk. destruct (DeleteLarge_eq m key st) as [->|[err ->]]; cbn [snd store with_store];
    [|done]. apply cDel_other. intros Hin%keysToDelete_prefix. congruence.
Qed.

(** A key whose metadata key can be read is gone after [DeleteLarge], and so
    is its metadata key. *)
Lemma DeleteLarge_gone (m : Manager) (key : string) (st : State) :
  checkClient m = None ->
  cGet (store st) (metadataKey key) <> Err WRONGTYPE ->
  store (snd (DeleteLarge m key st)) !! key = None /\
  store (snd (DeleteLarge m key st)) !! metadataKey key = None.
Proof.
  intros Hc Hmeta.
  assert (store st !! metadataKey key = None ->
          cDel (store st) [key] !! metadataKey key = None) as Hnone.
  { intros H. rewrite cDel_other; [done|].
    intros Heq%list_elem_of_singleton. by apply metadataKey_ne in Heq. }
  unfold DeleteLarge, isChunkedValue, DeleteKeys, Exists. rewrite Hc.
  unfold cGet in *. unfold cExists.
  destruct (store st !! metadataKey key) as [[[md|ms] t]|] eqn:Hg; [|done|].
  - destruct (HasPrefix md "chunked:"); cbn [fst snd store with_store].
    + split; apply cDel_member; [left|]. right. apply elem_of_app. right. left.
    + split; apply cDel_member; [left|]. right. left.
  - cbn [fst snd store with_store]. split; [apply cDel_member; left|by apply Hnone].
Qed.

Lemma deleteDependents_subseteq (m : Manager) (keys : list string) (st : State) :
  store (deleteDependents m keys st) ⊆ store st /\
  metrics (deleteDependents m keys st) = metrics st.
Proof.
  unfold deleteDependents. revert st.
  induction keys as [|k keys IH]; intros st; cbn [foldl]; [done|].
  destruct (IH (snd (DeleteLarge m k st))) as [Hs Hm].
  destruct (DeleteLarge_subseteq m k st) as [Hs' Hm'].
  split; [by etrans | congruence].
Qed.

Lemma deleteDependents_other (m : Manager) (keys : list string) (st : State) (k : string) :
  (forall c, c ∈ keys -> String.prefix c k = false) ->
  store (deleteDependents m keys st) !! k = store st !! k.
Proof.
  unfold deleteDependents. revert st.
  induction keys as [|c keys IH]; intros st Hk; cbn [foldl]; [done|].
  rewrite IH by (intros c' Hc'; apply Hk; by right).
  apply DeleteLarge_other, Hk. left.
Qed.

Lemma not_wrongtype_subseteq (b b' : backend) (k : string) :
  b' ⊆ b -> cGet b k <> Err WRONGTYPE -> cGet b' k <> Err WRONGTYPE.
Proof.
  intros Hsub Hk. unfold cGet in *.
  destruct (b' !! k) as [e|] eqn:He; [|done].
  by rewrite (lookup_weaken _ _ _ _ He Hsub) in Hk.
Qed.

Lemma lookup_none_subseteq (b b' : backend) (k : string) :
  b' ⊆ b -> b !! k = None -> b' !! k = None.
Proof.
  intros Hsub Hk. destruct (b' !! k) as [e|] eqn:He; [|done].
  by rewrite (lookup_weaken _ _ _ _ He Hsub) in Hk.
Qed.

(** Every dependent key whose metadata key can be read is gone after the
    loop, whatever happens to the other keys of the list. *)
Lemma deleteDependents_gone (m : Manager) (keys : list string) (st : State) (k : string) :
  checkClient m = None ->
  k ∈ keys ->
  cGet (store st) (metadataKey k) <> Err WRONGTYPE ->
  store (deleteDependents m keys st) !! k = None /\
  store (deleteDependents m keys st) !! metadataKey k = None.
Proof.
  intros Hc. unfold deleteDependents. revert st.
  induction keys as [|c keys IH]; intros st Hk Hmeta; [by apply elem_of_nil in Hk|].
  cbn [foldl]. destruct (DeleteLarge_subseteq m c st) as [Hsub _].
  destruct (decide (k ∈ keys)) as [Hin|Hout].
  - apply IH; [done|]. by apply (not_wrongtype_subseteq (store st)).
  - apply elem_of_cons in Hk as [->|]; [|done].
    destruct (DeleteLarge_gone m c st Hc Hmeta) as [H1 H2].
    destruct (deleteDependents_subseteq m keys (snd (DeleteLarge m c st))) as [Hsub' _].
    unfold deleteDependents in Hsub'.
    split; by apply (lookup_none_subseteq (store (snd (DeleteLarge m c st)))).
Qed.

Lemma Get_missing (m : Manager) (key : string) (st : State) :
  checkClient m = None -> store st !! key = None ->
  fst (Get m key st) = Err ErrKeyNotFound.
Proof.
  intros Hc Hk. unfold Get, cGet. rewrite Hc. cbn [store with_metrics]. by rewrite Hk.
Qed.

Lemma GetLarge_missing (decompressData : string -> res string string) (m : Manager)
    (key : string) (st : State) :
  checkClient m = None ->
  store st !! key = None -> store st !! metadataKey key = None ->
  fst (GetLarge decompressData m key st) = Err ErrKeyNotFound.
Proof.
  intros Hc Hk Hm. unfold GetLarge, isChunkedValue, getWithMetadata.
  unfold cGet at 1 2. rewrite Hc, Hm.
  pose proof (Get_missing m key st Hc Hk) as Hg.
  destruct (Get m key st) as [[d|e] st1]; cbn [fst] in *; by inversion Hg.
Qed.

Lemma elements_member_cons (ms : gset string) (k : string) :
  k ∈ ms -> exists x l, elements ms = x :: l.
Proof.
  intros Hk%elem_of_elements. destruct (elements ms) as [|x l]; [by apply elem_of_nil in Hk|].
  by exists x, l.
Qed.

Lemma Invalidate_set (m : Manager) (entityType : string) (entityID : Iface) (st : State)
    (ms : gset string) (t : option Z) (k : string) :
  checkClient m = None ->
  store st !! dependencyKey entityType entityID = Some (Entry (RSet ms) t) ->
  k ∈ ms ->
  InvalidateEntityDependencies m entityType entityID st =
    (None, with_store (deleteDependents m (elements ms) st)
             (cDel (store (deleteDependents m (elements ms) st))
                [dependencyKey entityType entityID])).
Proof.
  intros Hc Hset Hk. unfold InvalidateEntityDependencies, cSMembers. rewrite Hc, Hset.
  by destruct (elements_member_cons ms k Hk) as (x & l & ->).
Qed.

Section Invalidation.
Variable decompressData : string -> res string string.

(** After [InvalidateEntityDependencies], every cache key the entity's
    dependency set named, and whose metadata key is not itself a set, is
    absent: [Get] and [GetLarge] answer [ErrKeyNotFound], and the dependency
    set is gone. *)
Theorem InvalidateEntityDependencies_removes_dependents (m : Manager) (entityType : string)
    (entityID : Iface) (st : State) (ms : gset string) (t : option Z) (cacheKey : string) :
  checkClient m = None ->
  store st !! dependencyKey entityType entityID = Some (Entry (RSet ms) t) ->
  cacheKey ∈ ms ->
  cGet (store st) (metadataKey cacheKey) <> Err WRONGTYPE ->
  fst (InvalidateEntityDependencies m entityType entityID st) = None /\
  fst (Get m cacheKey (snd (InvalidateEntityDependencies m entityType entityID st))) =
    Err ErrKeyNotFound /\
  fst (GetLarge decompressData m cacheKey
         (snd (InvalidateEntityDependencies m entityType entityID st))) = Err ErrKeyNotFound /\
  GetDependencies m entityType entityID
    (snd (InvalidateEntityDependencies m entityType entityID st)) = Ok [].
Proof.
  intros Hc Hset Hk Hmeta. rewrite (Invalidate_set m _ _ st ms t cacheKey Hc Hset Hk).
  cbn [fst snd].
  destruct (deleteDependents_gone m (elements ms) st cacheKey Hc) as [H1 H2];
    [by apply elem_of_elements | done |].
  assert (forall k, store (deleteDependents m (elements ms) st) !! k = None ->
          store (with_store (deleteDependents m (elements ms) st)
                   (cDel (store (deleteDependents m (elements ms) st))
                      [dependencyKey entityType entityID])) !! k = None) as Hdel.
  { intros k Hn. cbn [store with_store]. apply (lookup_none_subseteq _ _ _ (cDel_subseteq _ _) Hn). }
  repeat split.
  - apply Get_missing; auto.
  - apply GetLarge_missing; auto.
  - unfold GetDependencies, cSMembers. rewrite Hc. cbn [store with_store].
    rewrite cDel_member by left. done.
Qed.

End Invalidation.

(** [InvalidateEntityDependencies] only deletes: every key it leaves holds
    what it held, the counters are untouched, and a key that is neither the
    dependency set nor an extension of one of its members is left as it
    was. *)
Theorem InvalidateEntityDependencies_only_deletes (m : Manager) (entityType : string)
    (entityID : Iface) (st : State) :
  store (snd (InvalidateEntityDependencies m entityType entityID st)) ⊆ store st /\
  metrics (snd (InvalidateEntityDependencies m entityType entityID st)) = metrics st /\
  (forall members k,
     GetDependencies m entityType entityID st = Ok members ->
     k <> dependencyKey entityType entityID ->
     (forall c, c ∈ members -> String.prefix c k = false) ->
     store (snd (InvalidateEntityDependencies m entityType entityID st)) !! k = store st !! k).
Proof.
  unfold InvalidateEntityDependencies, GetDependencies.
  destruct (checkClient m) as [err|]; [by repeat split|].
  destruct (cSMembers (store st) _) as [[|x l]|e] eqn:Hm; cbn [fst snd]; [by repeat split| |by repeat split].
  destruct (deleteDependents_subseteq m (x :: l) st) as [Hs Hmet].
  repeat split.
  - cbn [store with_store]. etrans; [apply cDel_subseteq | done].
  - done.
  - intros members k [= <-] Hk Hpre. cbn [store with_store].
    rewrite cDel_other by (intros ->%list_elem_of_singleton; done).
    by apply deleteDependents_other.
Qed.

(** *** Registering dependencies, then invalidating *)

(** Key [dk] holds a set that names [member]. *)
Definition has_member (b : backend) (dk member : string) : Prop :=
  exists ms t, b !! dk = Some (Entry (RSet ms) t) /\ member ∈ ms.

(** Key [k] does not hold a string. *)
Definition not_string (b : backend) (k : string) : Prop :=
  forall s t, b !! k <> Some (Entry (RString s) t).

Lemma run_dep_cmd_not_string (t : Z) (c : cmd) (b : backend) (k : string) :
  dep_cmd t c -> not_string b k -> not_string (fst (run_cmd b c)) k.
Proof.
  intros Hc Hk s t0. destruct (decide (cmd_key c = k)) as [<-|Hne];
    [|rewrite run_cmd_other by done; apply Hk].
  destruct c as [k' v' t'|k' x|k' t']; cbn [run_cmd cmd_key fst dep_cmd] in *.
  - done.
  - unfold cSAdd. destruct (b !! k') as [[[s'|ms] t1]|] eqn:Hb; cbn [fst];
      rewrite ?lookup_insert_eq; try done.
  - unfold cExpire. destruct (b !! k') as [[[s'|ms] t1]|] eqn:Hb; [by destruct (Hk s' t1)| |].
    + destruct (0 <? formatSec t'); by rewrite ?lookup_insert_eq, ?lookup_delete_eq.
    + by rewrite Hb.
Qed.

Lemma Exec_dep_cmds_not_string (t : Z) (pipe : list cmd) (b : backend) (k : string) :
  Forall (dep_cmd t) pipe -> not_string b k -> not_string (fst (Exec b pipe)) k.
Proof.
  intros H; revert b; induction H as [|c pipe Hc _ IH]; intros b Hb; cbn [Exec]; [done|].
  destruct (run_cmd b c) as [b1 e1] eqn:Hr.
  specialize (IH b1). destruct (Exec b1 pipe) as [b2 e2]. cbn [fst] in *.
  apply IH. change b1 with (fst (b1, e1)). rewrite <- Hr. by apply run_dep_cmd_not_string with t.
Qed.

Lemma run_dep_cmd_has_member (t : Z) (c : cmd) (b : backend) (dk member : string) :
  0 < t -> dep_cmd t c -> has_member b dk member -> has_member (fst (run_cmd b c)) dk member.
Proof.
  intros Ht Hc (ms & t0 & Hb & Hin). destruct (decide (cmd_key c = dk)) as [<-|Hne];
    [|exists ms, t0; by rewrite run_cmd_other].
  destruct c as [k' v' t'|k' x|k' t']; cbn [run_cmd cmd_key fst dep_cmd] in *.
  - done.
  - unfold cSAdd. rewrite Hb. cbn [fst]. exists ({[x]} ∪ ms), t0.
    rewrite lookup_insert_eq. split; [done | set_solver].
  - subst t'. unfold cExpire. rewrite Hb, formatSec_pos_ltb by done.
    exists ms, (Some (expireMillis t)). by rewrite lookup_insert_eq.
Qed.

Lemma Exec_dep_cmds_has_member (t : Z) (pipe : list cmd) (b : backend) (dk member : string) :
  0 < t -> Forall (dep_cmd t) pipe -> has_member b dk member ->
  has_member (fst (Exec b pipe)) dk member.
Proof.
  intros Ht H; revert b; induction H as [|c pipe Hc _ IH]; intros b Hb; cbn [Exec]; [done|].
  destruct (run_cmd b c) as [b1 e1] eqn:Hr.
  specialize (IH b1). destruct (Exec b1 pipe) as [b2 e2]. cbn [fst] in *.
  apply IH. change b1 with (fst (b1, e1)). rewrite <- Hr. by apply run_dep_cmd_has_member with t.
Qed.

Lemma SAdd_has_member (b : backend) (dk member : string) :
  not_string b dk -> has_member (fst (cSAdd b dk member)) dk member.
Proof.
  intros Hk. unfold cSAdd. destruct (b !! dk) as [[[s|ms] t]|] eqn:Hb; cbn [fst].
  - by destruct (Hk s t).
  - exists ({[member]} ∪ ms), t. rewrite lookup_insert_eq. split; [done | set_solver].
  - exists {[member]}, None. rewrite lookup_insert_eq. split; [done | set_solver].
Qed.

Lemma Exec_cons_fst (c : cmd) (pipe : list cmd) (b : backend) :
  fst (Exec b (c :: pipe)) = fst (Exec (fst (run_cmd b c)) pipe).
Proof.
  cbn [Exec]. destruct (run_cmd b c) as [b1 e1]. cbn [fst].
  by destruct (Exec b1 pipe).
Qed.

Lemma Exec_app_fst (p q : list cmd) (b : backend) :
  fst (Exec b (p ++ q)) = fst (Exec (fst (Exec b p)) q).
Proof.
  revert b; induction p as [|c p IH]; intros b; [done|].
  rewrite <- app_comm_cons, !Exec_cons_fst. apply IH.
Qed.

Lemma Exec_dependencyCmds_has_member (ttl : Z) (deps : list (string * list Iface))
    (ck et : string) (ids : list Iface) (id : Iface) (b : backend) :
  0 < Int.mul ttl 2 -> (et, ids) ∈ deps -> id ∈ ids ->
  not_string b (dependencyKey et id) ->
  has_member (fst (Exec b (dependencyCmds ttl deps ck))) (dependencyKey et id) ck.
Proof.
  intros Ht Hd Hi Hns.
  pose proof (dependencyCmds_dep_cmd ttl deps ck) as Hall.
  destruct (dependencyCmds_split ttl deps ck et ids id Hd Hi) as (l1 & l2 & Heq).
  rewrite Heq in *. apply Forall_app in Hall as [Hl1 Hall].
  rewrite Exec_app_fst.
  change ([CSAdd (dependencyKey et id) ck; CExpire (dependencyKey et id) (Int.mul ttl 2)] ++ l2)
    with (CSAdd (dependencyKey et id) ck
            :: (CExpire (dependencyKey et id) (Int.mul ttl 2) :: l2)) in *.
  apply Forall_cons in Hall as [_ Hall].
  rewrite Exec_cons_fst. cbn [run_cmd].
  apply Exec_dep_cmds_has_member with (Int.mul ttl 2); [done..|].
  apply SAdd_has_member. by apply Exec_dep_cmds_not_string with (Int.mul ttl 2).
Qed.

Lemma ne_of_prefix_false (a k : string) : String.prefix a k = false -> k <> a.
Proof. intros H ->. by rewrite prefix_refl in H. Qed.

Lemma ne_of_prefix_false_app (a x k : string) : String.prefix a k = false -> k <> a +:+ x.
Proof. intros H ->. by rewrite prefix_app in H. Qed.

(** The dependency commands leave alone every key that no dependency key
    extends. *)
Lemma Exec_dependencyCmds_other (ttl : Z) (deps : list (string * list Iface))
    (ck k : string) (b : backend) :
  (forall et ids id, (et, ids) ∈ deps -> id ∈ ids -> dependencyKey et id <> k) ->
  fst (Exec b (dependencyCmds ttl deps ck)) !! k = b !! k.
Proof.
  intros Hne. apply Exec_other, Forall_forall.
  intros c (et & ids & id & Hd & Hi & ->)%dependencyCmds_keys. by apply (Hne et ids id).
Qed.

(** A value stored with [SetWithDependencies] can be read back, and is gone
    after the invalidation of any of the entities it was registered under. *)
Theorem SetWithDependencies_then_invalidate (m : Manager) (cacheKey value : string)
    (dependencies : list (string * list Iface)) (entityType : string) (ids : list Iface)
    (entityID : Iface) (st : State) :
  checkClient m = None ->
  0 < DefaultTTL (config m) ->
  2 * DefaultTTL (config m) <= Int.MaxInt64 ->
  (entityType, ids) ∈ dependencies -> entityID ∈ ids ->
  (forall et l id, (et, l) ∈ dependencies -> id ∈ l ->
     String.prefix cacheKey (dependencyKey et id) = false) ->
  not_string (store st) (dependencyKey entityType entityID) ->
  cGet (store st) (metadataKey cacheKey) <> Err WRONGTYPE ->
  fst (Get m cacheKey (snd (SetWithDependencies m cacheKey value dependencies st))) = Ok value /\
  fst (InvalidateEntityDependencies m entityType entityID
         (snd (SetWithDependencies m cacheKey value dependencies st))) = None /\
  fst (Get m cacheKey
         (snd (InvalidateEntityDependencies m entityType entityID
                 (snd (SetWithDependencies m cacheKey value dependencies st))))) =
    Err ErrKeyNotFound.
Proof.
  intros Hc Hpos Hmax Hd Hi Hpre Hns Hmeta.
  assert (0 < Int.mul (DefaultTTL (config m)) 2) as Hpos2.
  { unfold Int.mul. rewrite Int.wrap_small; unfold Int.MinInt64, Int.MaxInt64 in *; lia. }
  unfold SetWithDependencies. rewrite Hc. cbn [Exec run_cmd].
  set (b0 := cSet (store st) cacheKey value (DefaultTTL (config m))).
  set (pipe := dependencyCmds (DefaultTTL (config m)) dependencies cacheKey).
  assert (has_member (fst (Exec b0 pipe)) (dependencyKey entityType entityID) cacheKey) as Hm.
  { apply Exec_dependencyCmds_has_member with ids; [done..|].
    intros s t. unfold b0. rewrite lookup_cSet_ne; [apply Hns|].
    apply not_eq_sym, ne_of_prefix_false, (Hpre entityType ids); done. }
  assert (fst (Exec b0 pipe) !! cacheKey = b0 !! cacheKey) as Hck.
  { apply Exec_dependencyCmds_other. intros et l id H1 H2.
    by apply ne_of_prefix_false, (Hpre et l id). }
  assert (fst (Exec b0 pipe) !! metadataKey cacheKey = store st !! metadataKey cacheKey) as Hmk.
  { unfold pipe. rewrite Exec_dependencyCmds_other.
    - apply lookup_cSet_ne, not_eq_sym, metadataKey_ne.
    - intros et l id H1 H2. by apply ne_of_prefix_false_app, (Hpre et l id). }
  destruct (Exec b0 pipe) as [b1 e1]. cbn [fst snd] in *.
  destruct Hm as (ms & t & Hset & Hin).
  split.
  - apply Get_value; [done|]. unfold cGet. cbn [store with_store]. rewrite Hck.
    unfold b0, cSet. by rewrite lookup_insert_eq.
  - rewrite (Invalidate_set m _ _ (with_store st b1) ms t cacheKey Hc Hset Hin). cbn [fst snd].
    split; [done|]. apply Get_missing; [done|]. cbn [store with_store].
    apply (lookup_none_subseteq _ _ _ (cDel_subseteq _ _)).
    apply deleteDependents_gone; [done | by apply elem_of_elements |].
    unfold cGet in *. cbn [store with_store]. by rewrite Hmk.
Qed.

(** *** Large values with dependencies *)

Lemma setChunked_other (m : Manager) (key data : string) (compressed : bool)
    (chunkSize : Z) (st : State) (k : string) :
  String.prefix key k = false ->
  store (snd (setChunked m key data compressed chunkSize st)) !! k = store st !! k.
Proof.
  intros Hk. unfold setChunked.
  destruct (Exec (store st) _) as [b e] eqn:He. cbn [snd store with_store].
  change b with (fst (b, e)). rewrite <- He, Exec_cons_fst. cbn [run_cmd fst].
  rewrite (Exec_sets_other (chunkKey key) (chunkOf data chunkSize)).
  - by apply lookup_cSet_ne, not_eq_sym, ne_of_prefix_false_app.
  - intros i _. by apply not_eq_sym, ne_of_prefix_false_app.
Qed.

Lemma setWithMetadata_other (m : Manager) (key data : string) (compressed chunked : bool)
    (st : State) (k : string) :
  String.prefix key k = false ->
  store (snd (setWithMetadata m key data compressed chunked st)) !! k = store st !! k.
Proof.
  intros Hk. unfold setWithMetadata, Set_. destruct compressed.
  - cbn [Exec run_cmd snd store with_store].
    rewrite !lookup_cSet_ne; [done|..].
    + by apply not_eq_sym, ne_of_prefix_false_app.
    + by apply not_eq_sym, ne_of_prefix_false.
  - destruct (checkClient m); [done|]. cbn [snd store with_store with_metrics].
    by apply lookup_cSet_ne, not_eq_sym, ne_of_prefix_false.
Qed.

Section LargeDependencies.
Variable compressData : string -> string.
Variable decompressData : string -> res string string.

Definition SetLargeWithDependencies (m : Manager) (cacheKey value : string)
    (dependencies : list (string * list Iface)) (st : State) : option error * State :=
  match SetLarge compressData m cacheKey value st with
  | (Some err, st) => (Some err, st)
  | (None, st) => AddMultipleDependencies m dependencies cacheKey st
  end.

(** [SetLarge] writes nothing but the key, its metadata key and its chunk
    keys: a key that does not extend [key] is left as it was. *)
Lemma SetLarge_other (m : Manager) (key value : string) (st : State) (k : string) :
  String.prefix key k = false ->
  store (snd (SetLarge compressData m key value st)) !! k = store st !! k.
Proof.
  intros Hk. unfold SetLarge. destruct (checkClient m); [done|].
  destruct (getLargeValueConfig m) as [[[[maxSize chunkSize] threshold] enC] enK].
  destruct (maxSize <? len value); [done|].
  destruct (enC && (threshold <? len value));
    [destruct (len (compressData value) <? len value)|];
    match goal with |- context [if ?c then setChunked _ _ _ _ _ _ else _] => destruct c end;
    rewrite ?setChunked_other, ?setWithMetadata_other by done; done.
Qed.

Lemma SetLarge_within_ok (m : Manager) (key value : string) (st : State) :
  checkClient m = None ->
  len value <= maxValueSize m ->
  fst (SetLarge compressData m key value st) = None.
Proof.
  intros Hc Hv. unfold SetLarge, maxValueSize in *. rewrite Hc.
  destruct (getLargeValueConfig m) as [[[[maxSize chunkSize] threshold] enC] enK].
  replace (maxSize <? len value) with false by (symmetry; apply Z.ltb_ge; lia).
  repeat match goal with
         | |- context [if ?c then _ else _] => destruct c
         end; auto using setChunked_ok, setWithMetadata_ok.
Qed.

(** [SetLarge] never turns the metadata key into something [GetLarge] and
    [DeleteLarge] cannot read. *)
Lemma SetLarge_metadata_readable (m : Manager) (key value : string) (st : State) :
  cGet (store st) (metadataKey key) <> Err WRONGTYPE ->
  cGet (store (snd (SetLarge compressData m key value st))) (metadataKey key) <> Err WRONGTYPE.
Proof.
  intros Hm. unfold SetLarge. destruct (checkClient m) as [err|] eqn:Hc; [done|].
  destruct (getLargeValueConfig m) as [[[[maxSize chunkSize] threshold] enC] enK].
  destruct (maxSize <? len value); [done|].
  destruct (enC && (threshold <? len value));
    [destruct (len (compressData value) <? len value)|];
    match goal with |- context [if ?c then setChunked _ _ _ _ _ _ else _] => destruct c end;
    rewrite ?setChunked_metadata; try done.
  - match goal with |- context [setWithMetadata m key ?d true false ?s] =>
      destruct (setWithMetadata_compressed m key d false s) as [_ ->] end. done.
  - destruct (setWithMetadata_plain m key value false st Hc) as [_ Heq].
    unfold cGet in *. by rewrite Heq.
  - destruct (setWithMetadata_plain m key value false st Hc) as [_ Heq].
    unfold cGet in *. by rewrite Heq.
Qed.

(** A value stored with [SetLargeWithDependencies] is gone, for [GetLarge],
    after the invalidation of any of the entities it was registered under;
    a value over the size limit is refused and registers nothing. *)
Theorem SetLargeWithDependencies_then_invalidate (m : Manager) (cacheKey value : string)
    (dependencies : list (string * list Iface)) (entityType : string) (ids : list Iface)
    (entityID : Iface) (st : State) :
  checkClient m = None ->
  0 < DefaultTTL (config m) ->
  2 * DefaultTTL (config m) <= Int.MaxInt64 ->
  (entityType, ids) ∈ dependencies -> entityID ∈ ids ->
  (forall et l id, (et, l) ∈ dependencies -> id ∈ l ->
     String.prefix cacheKey (dependencyKey et id) = false) ->
  not_string (store st) (dependencyKey entityType entityID) ->
  cGet (store st) (metadataKey cacheKey) <> Err WRONGTYPE ->
  (maxValueSize m < len value ->
   SetLargeWithDependencies m cacheKey value dependencies st =
     (Some (ErrValueTooLarge (len value) (maxValueSize m)), st)) /\
  (len value <= maxValueSize m ->
   fst (InvalidateEntityDependencies m entityType entityID
          (snd (SetLargeWithDependencies m cacheKey value dependencies st))) = None /\
   fst (GetLarge decompressData m cacheKey
          (snd (InvalidateEntityDependencies m entityType entityID
                  (snd (SetLargeWithDependencies m cacheKey value dependencies st))))) =
     Err ErrKeyNotFound).
Proof.
  intros Hc Hpos Hmax Hd Hi Hpre Hns Hmeta.
  assert (0 < Int.mul (DefaultTTL (config m)) 2) as Hpos2.
  { unfold Int.mul. rewrite Int.wrap_small; unfold Int.MinInt64, Int.MaxInt64 in *; lia. }
  split.
  - intros Hbig. unfold SetLargeWithDependencies, SetLarge, maxValueSize in *. rewrite Hc.
    destruct (getLargeValueConfig m) as [[[[maxSize chunkSize] threshold] enC] enK].
    by replace (maxSize <? len value) with true by (symmetry; apply Z.ltb_lt; lia).
  - intros Hlen.
    pose proof (SetLarge_within_ok m cacheKey value st Hc Hlen) as Hok.
    pose proof (SetLarge_metadata_readable m cacheKey value st Hmeta) as Hmeta1.
    assert (not_string (store (snd (SetLarge compressData m cacheKey value st)))
              (dependencyKey entityType entityID)) as Hns1.
    { intros s t. rewrite SetLarge_other; [apply Hns|]. by apply (Hpre entityType ids). }
    unfold SetLargeWithDependencies.
    destruct (SetLarge compressData m cacheKey value st) as [[err|] st1]; [done|].
    cbn [fst snd] in *. unfold AddMultipleDependencies. rewrite Hc.
    set (pipe := dependencyCmds (DefaultTTL (config m)) dependencies cacheKey).
    assert (has_member (fst (Exec (store st1) pipe)) (dependencyKey entityType entityID)
              cacheKey) as Hm by (by apply Exec_dependencyCmds_has_member with ids).
    assert (fst (Exec (store st1) pipe) !! metadataKey cacheKey =
            store st1 !! metadataKey cacheKey) as Hmk.
    { apply Exec_dependencyCmds_other. intros et l id H1 H2.
      by apply ne_of_prefix_false_app, (Hpre et l id). }
    destruct (Exec (store st1) pipe) as [b1 e1]. cbn [fst snd] in *.
    destruct Hm as (ms & t & Hset & Hin).
    rewrite (Invalidate_set m _ _ (with_store st1 b1) ms t cacheKey Hc Hset Hin).
    cbn [fst snd]. split; [done|].
    destruct (deleteDependents_gone m (elements ms) (with_store st1 b1) cacheKey Hc) as [H1 H2].
    + by apply elem_of_elements.
    + unfold cGet in *. cbn [store with_store]. by rewrite Hmk.
    + apply GetLarge_missing; [done|..]; cbn [store with_store];
        by apply (lookup_none_subseteq _ _ _ (cDel_subseteq _ _)).
Qed.

End LargeDependencies.

(** *** Plain values *)

Lemma lookup_cDel_singleton (b : backend) (key k : string) :
  cDel b [key] !! k = if decide (k = key) then None else b !! k.
Proof.
  unfold cDel. cbn [foldl]. destruct (decide (k = key)) as [->|Hne].
  - apply lookup_delete_eq.
  - by apply lookup_delete_ne.
Qed.

(** What [Set], [SetWithTTL] and [Delete] leave behind for [Get] and
    [Exists]: a stored value is read back, a deleted key is not found, and
    no other key changes. *)
Theorem Set_Get_Delete (m : Manager) (key value : string) (ttl : Z) (st : State) :
  checkClient m = None ->
  fst (Get m key (snd (Set_ m key value st))) = Ok value /\
  fst (Get m key (snd (SetWithTTL m key value ttl st))) = Ok value /\
  fst (Exists m key (snd (Set_ m key value st))) = Ok true /\
  fst (Delete m key (snd (Set_ m key value st))) = None /\
  fst (Get m key (snd (Delete m key (snd (Set_ m key value st))))) = Err ErrKeyNotFound /\
  fst (Exists m key (snd (Delete m key (snd (Set_ m key value st))))) = Ok false /\
  (forall k, k <> key ->
     store (snd (Set_ m key value st)) !! k = store st !! k /\
     store (snd (SetWithTTL m key value ttl st)) !! k = store st !! k /\
     store (snd (Delete m key st)) !! k = store st !! k).
Proof.
  intros Hc. unfold Set_, SetWithTTL, Delete, Exists. rewrite !Hc.
  cbn [fst snd store with_store with_metrics].
  repeat split.
  - apply Get_value; [done|]. apply cGet_cSet.
  - apply Get_value; [done|]. apply cGet_cSet.
  - unfold cExists, cSet. by rewrite lookup_insert_eq.
  - apply Get_missing; [done|]. cbn [store with_store with_metrics].
    rewrite lookup_cDel_singleton. by rewrite decide_True.
  - unfold cExists. rewrite lookup_cDel_singleton. by rewrite decide_True.
  - by apply lookup_cSet_ne.
  - by apply lookup_cSet_ne.
  - rewrite lookup_cDel_singleton. by rewrite decide_False.
Qed.

(** *** Dependency sets *)

(** After [AddDependency] the entity's dependency set holds the cache key
    beside the keys it held before, and nothing else. *)
Theorem AddDependency_GetDependencies (m : Manager) (entityType : string) (entityID : Iface)
    (cacheKey : string) (st : State) :
  checkClient m = None ->
  0 < DefaultTTL (config m) ->
  2 * DefaultTTL (config m) <= Int.MaxInt64 ->
  not_string (store st) (dependencyKey entityType entityID) ->
  fst (AddDependency m entityType entityID cacheKey st) = None /\
  exists before after,
    GetDependencies m entityType entityID st = Ok before /\
    GetDependencies m entityType entityID
      (snd (AddDependency m entityType entityID cacheKey st)) = Ok after /\
    (forall k, (k ∈ after) <-> (k = cacheKey \/ k ∈ before)).
Proof.
  intros Hc Hpos Hmax Hns.
  assert ((0 <? formatSec (Int.mul (DefaultTTL (config m)) 2)) = true) as Hpos2.
  { apply formatSec_pos_ltb. unfold Int.mul.
    rewrite Int.wrap_small; unfold Int.MinInt64, Int.MaxInt64 in *; lia. }
  unfold AddDependency, GetDependencies. rewrite Hc.
  set (dk := dependencyKey entityType entityID) in *.
  unfold cSAdd, cSMembers. destruct (store st !! dk) as [[[s|ms] t]|] eqn:Hb.
  - by destruct (Hns s t).
  - cbn [fst snd store with_store with_metrics]. split; [done|].
    unfold cExpire. rewrite lookup_insert_eq, Hpos2.
    cbn [e_val]. rewrite lookup_insert_eq.
    eexists _, _. split; [done|]. split; [done|].
    intros k. rewrite !elem_of_elements, elem_of_union, elem_of_singleton. done.
  - cbn [fst snd store with_store with_metrics]. split; [done|].
    unfold cExpire. rewrite lookup_insert_eq, Hpos2.
    cbn [e_val]. rewrite lookup_insert_eq.
    eexists _, _. split; [done|]. split; [done|].
    intros k. rewrite elem_of_elements, elem_of_singleton, elem_of_nil. tauto.
Qed.

(** *** Chunks *)

Lemma take_length (n : nat) (s : string) :
  String.length (take n s) = Nat.min n (String.length s).
Proof. revert s; induction n as [|n IH]; intros [|c s]; simpl; auto with lia. Qed.

(** [setChunked] cuts the data into [ceil(len/chunkSize)] chunks: every
    chunk but the last holds [chunkSize] bytes, the last one what is left,
    and none is empty. *)
Theorem setChunked_chunk_sizes (m : Manager) (key data : string) (compressed : bool)
    (chunkSize : Z) (st : State) (i : Z) :
  0 < chunkSize -> len data + chunkSize <= Int.MaxInt64 ->
  0 <= i < chunkCountOf data chunkSize ->
  chunkCountOf data chunkSize = (len data + chunkSize - 1) / chunkSize /\
  exists chunk,
    cGet (store (snd (setChunked m key data compressed chunkSize st))) (chunkKey key i) =
      Ok chunk /\
    len chunk = Z.min chunkSize (len data - i * chunkSize) /\
    0 < len chunk.
Proof.
  intros Hcs Hmax Hi.
  pose proof (chunkCountOf_ceil data chunkSize Hcs Hmax) as Hceil.
  split; [done|]. exists (chunkOf data chunkSize i).
  split; [by apply setChunked_chunk|].
  rewrite Hceil in Hi.
  assert (i * chunkSize < len data) as Hlt.
  { destruct Hi as [H0 H1].
    assert (i + 1 <= (len data + chunkSize - 1) / chunkSize) as H2 by lia.
    pose proof (Z.mul_div_le (len data + chunkSize - 1) chunkSize Hcs) as H3.
    nia. }
  rewrite chunkOf_block by lia.
  assert (len (take (Z.to_nat chunkSize) (drop (Z.to_nat i * Z.to_nat chunkSize) data)) =
          Z.min chunkSize (len data - i * chunkSize)) as ->; [|lia].
  assert (0 <= i * chunkSize) by nia.
  unfold len in *. rewrite take_length, length_drop, <- Z2Nat.inj_mul by lia. lia.
Qed.

(** *** Keys that do not extend one another *)

Lemma prefix_comparable (a b k : string) :
  String.prefix a k = true -> String.prefix b k = true ->
  String.prefix a b = true \/ String.prefix b a = true.
Proof.
  revert a b; induction k as [|c k IH]; intros [|x a] [|y b] Ha Hb;
    cbn [String.prefix] in *; try done; auto.
  destruct (Ascii.ascii_dec x c) as [->|]; [|done].
  destruct (Ascii.ascii_dec y c) as [->|]; [|done].
  destruct (Ascii.ascii_dec c c); [|done]. by apply IH.
Qed.

Lemma Get_ext (m : Manager) (key : string) (st1 st2 : State) :
  store st1 !! key = store st2 !! key ->
  fst (Get m key st1) = fst (Get m key st2).
Proof.
  intros H. unfold Get. destruct (checkClient m); [done|].
  unfold cGet. cbn [store with_metrics]. rewrite H.
  by destruct (store st2 !! key) as [[[s|ms] t]|].
Qed.

Lemma getChunks_ext (b1 b2 : backend) (key : string) (indices : list Z) :
  (forall i, b1 !! chunkKey key i = b2 !! chunkKey key i) ->
  getChunks b1 key indices = getChunks b2 key indices.
Proof.
  intros H. induction indices as [|i rest IH]; [done|].
  cbn [getChunks]. unfold cGet. by rewrite H, IH.
Qed.

Section Isolation.
Variable compressData : string -> string.
Variable decompressData : string -> res string string.

Lemma getWithMetadata_ext (m : Manager) (key : string) (st1 st2 : State) :
  store st1 !! metadataKey key = store st2 !! metadataKey key ->
  store st1 !! key = store st2 !! key ->
  fst (getWithMetadata m key st1) = fst (getWithMetadata m key st2).
Proof.
  intros Hm Hk. pose proof (Get_ext m key st1 st2 Hk) as HG.
  unfold getWithMetadata, cGet. rewrite Hm.
  destruct (Get m key st1) as [r1 s1], (Get m key st2) as [r2 s2].
  cbn [fst] in HG. subst r2.
  destruct (store st2 !! metadataKey key) as [[[md|ms] t]|]; [| |by destruct r1]; [|done].
  destruct (Split md colon) as [|tag [|flag [|count [|? ?]]]]; try done.
  destruct (negb (String.eqb tag "single")); [done|]. by destruct r1.
Qed.

(** [GetLarge] reads nothing but the key, its metadata key and its chunk
    keys. *)
Lemma GetLarge_ext (m : Manager) (key : string) (st1 st2 : State) :
  (forall k, String.prefix key k = true -> store st1 !! k = store st2 !! k) ->
  fst (GetLarge decompressData m key st1) = fst (GetLarge decompressData m key st2).
Proof.
  intros H.
  assert (store st1 !! metadataKey key = store st2 !! metadataKey key) as Hm
    by apply H, prefix_app.
  assert (store st1 !! key = store st2 !! key) as Hk by apply H, prefix_refl.
  assert (forall i, store st1 !! chunkKey key i = store st2 !! chunkKey key i) as Hc
    by (intros i; apply H, prefix_app).
  assert (isChunkedValue key st1 = isChunkedValue key st2) as Hi
    by (unfold isChunkedValue, cGet; by rewrite Hm).
  assert (getChunked key st1 = getChunked key st2) as Hg.
  { unfold getChunked, cGet. rewrite Hm.
    destruct (store st2 !! metadataKey key) as [[[md|ms] t]|]; try done.
    destruct (Split md colon) as [|tag [|flag [|count [|? ?]]]]; try done.
    destruct (negb (String.eqb tag "chunked")); [done|].
    destruct (Atoi count) as [n|]; [|done]. by rewrite (getChunks_ext _ _ _ _ Hc). }
  pose proof (getWithMetadata_ext m key st1 st2 Hm Hk) as Hw.
  unfold GetLarge. destruct (checkClient m); [done|]. rewrite Hi, Hg.
  destruct (isChunkedValue key st2) as [[|]|e]; [| |done].
  - destruct (getChunked key st2) as [[d [|]]|e]; done.
  - destruct (getWithMetadata m key st1) as [r1 s1], (getWithMetadata m key st2) as [r2 s2].
    cbn [fst] in Hw. subst r2. by destruct r1 as [[d [|]]|e].
Qed.

(** Two keys of which neither extends the other do not interfere: what
    [GetLarge] returns for one is not changed by a [SetLarge] or a
    [DeleteLarge] of the other. *)
Theorem large_values_isolated (m : Manager) (key other value : string) (st : State) :
  String.prefix key other = false ->
  String.prefix other key = false ->
  fst (GetLarge decompressData m key (snd (SetLarge compressData m other value st))) =
    fst (GetLarge decompressData m key st) /\
  fst (GetLarge decompressData m key (snd (DeleteLarge m other st))) =
    fst (GetLarge decompressData m key st).
Proof.
  intros H1 H2.
  assert (forall k, String.prefix key k = true -> String.prefix other k = false) as Hk.
  { intros k Hp. destruct (String.prefix other k) eqn:Ho; [|done].
    destruct (prefix_comparable key other k Hp Ho); congruence. }
  split; apply GetLarge_ext; intros k Hp.
  - by apply SetLarge_other, Hk.
  - by apply DeleteLarge_other, Hk.
Qed.

(** *** A manager that is switched off *)

(** A manager that is disabled, or has no client, does nothing: every
    operation returns the error of [checkClient] and leaves the backend and
    the counters as they were.  [Ping] alone takes a disabled cache for a
    success. *)
Theorem unavailable_manager_inert (m : Manager) (err : error) (st : State)
    (key value : string) (keys : list string) (ttl : Z) (entityType : string)
    (entityID : Iface) (dependencies : list (string * list Iface)) :
  checkClient m = Some err ->
  err = (if Enabled (config m) then ErrClientNotInitialized else ErrCacheDisabled) /\
  Ping m = (if Enabled (config m) then Some ErrClientNotInitialized else None) /\
  Get m key st = (Err err, st) /\
  Set_ m key value st = (Some err, st) /\
  SetWithTTL m key value ttl st = (Some err, st) /\
  Delete m key st = (Some err, st) /\
  DeleteKeys m keys st = (Some err, st) /\
  Exists m key st = (Err err, st) /\
  AddDependency m entityType entityID key st = (Some err, st) /\
  AddMultipleDependencies m dependencies key st = (Some err, st) /\
  InvalidateEntityDependencies m entityType entityID st = (Some err, st) /\
  SetWithDependencies m key value dependencies st = (Some err, st) /\
  SetLargeWithDependencies compressData m key value dependencies st = (Some err, st) /\
  GetDependencies m entityType entityID st = Err err /\
  SetLarge compressData m key value st = (Some err, st) /\
  GetLarge decompressData m key st = (Err err, st) /\
  DeleteLarge m key st = (Some err, st).
Proof.
  intros Hc.
  unfold Get, Set_, SetWithTTL, Delete, DeleteKeys, Exists, AddDependency,
    AddMultipleDependencies, InvalidateEntityDependencies, SetWithDependencies,
    SetLargeWithDependencies, GetDependencies, SetLarge, GetLarge, DeleteLarge, Ping.
  rewrite !Hc. unfold checkClient in Hc.
  destruct (Enabled (config m)), (client m); cbn [negb] in *; try done;
    injection Hc as <-; repeat split.
Qed.

End Isolation.

(** *** Overwriting a large value *)

Section Overwrite.
Variable compressData : string -> string.
Variable decompressData : string -> res string string.
Hypothesis gzip_roundtrip : forall v, decompressData (compressData v) = Ok v.

(** Whether [SetLarge] stores the value compressed or in chunks, the two
    forms that come with a metadata key. *)
Definition storedWithMetadata (m : Manager) (value : string) : bool :=
  let '(_, chunkSize, compressThreshold, enableCompression, enableChunking) :=
    getLargeValueConfig m in
  let compressed :=
    enableCompression && (compressThreshold <? len value) &&
    (len (compressData value) <? len value) in
  let processedValue := if compressed then compressData value else value in
  compressed || (enableChunking && (chunkSize <? len processedValue)).

Lemma SetLarge_GetLarge_metadata (m : Manager) (key value : string) (st : State) :
  checkClient m = None ->
  len value <= maxValueSize m ->
  maxValueSize m + chunkSizeOf m <= Int.MaxInt64 ->
  store st !! metadataKey key = None \/ storedWithMetadata m value = true ->
  fst (GetLarge decompressData m key (snd (SetLarge compressData m key value st))) = Ok value.
Proof.
  intros Hc Hlen Hmax Hfresh.
  destruct (getLargeValueConfig_pos m) as [_ Hcs].
  unfold SetLarge, maxValueSize, chunkSizeOf, storedWithMetadata in *. rewrite Hc.
  destruct (getLargeValueConfig m) as [[[[maxSize chunkSize] threshold] enC] enK].
  replace (maxSize <? len value) with false by (symmetry; apply Z.ltb_ge; lia).
  destruct (enC && (threshold <? len value));
    [destruct (Z.ltb_spec (len (compressData value)) (len value))|];
    cbn [andb orb] in Hfresh;
    match goal with |- context [if ?c then setChunked _ _ _ _ _ _ else _] => destruct c end.
  - rewrite GetLarge_setChunked by (done || lia).
    unfold decompressed. by rewrite gzip_roundtrip.
  - match goal with
    | |- context [setWithMetadata m key ?d true false ?s] =>
        destruct (setWithMetadata_compressed m key d false s) as [Hk Hm]
    end.
    rewrite (GetLarge_single decompressData _ _ _ _ Hc Hk Hm). unfold decompressed. by rewrite gzip_roundtrip.
  - by rewrite GetLarge_setChunked by (done || lia).
  - destruct Hfresh as [Hfresh|?]; [|done].
    destruct (setWithMetadata_plain m key value false st Hc) as [Hk Hm].
    apply GetLarge_plain; [done..|]. by rewrite Hm.
  - by rewrite GetLarge_setChunked by (done || lia).
  - destruct Hfresh as [Hfresh|?]; [|done].
    destruct (setWithMetadata_plain m key value false st Hc) as [Hk Hm].
    apply GetLarge_plain; [done..|]. by rewrite Hm.
Qed.

(** Overwriting a large value.  [GetLarge] returns the value [SetLarge]
    stored last when that value is stored compressed or in chunks, whatever
    was under the key before; and for every value once [DeleteLarge] has
    cleared the key first. *)
Theorem SetLarge_overwrite (m : Manager) (key value : string) (st : State) :
  checkClient m = None ->
  len value <= maxValueSize m ->
  maxValueSize m + chunkSizeOf m <= Int.MaxInt64 ->
  (storedWithMetadata m value = true ->
   fst (GetLarge decompressData m key (snd (SetLarge compressData m key value st))) =
     Ok value) /\
  (cGet (store st) (metadataKey key) <> Err WRONGTYPE ->
   fst (GetLarge decompressData m key
          (snd (SetLarge compressData m key value (snd (DeleteLarge m key st))))) =
     Ok value).
Proof.
  intros Hc Hlen Hmax. split.
  - intros Hs. apply SetLarge_GetLarge_metadata; auto.
  - intros Hm. apply SetLarge_GetLarge_metadata; auto. left.
    by apply DeleteLarge_gone.
Qed.

End Overwrite.

(** *** Worked instances of the manager's further operations *)

(** The state [oneDependent] with a second cached value that no entity
    lists. *)
Definition unrelatedValue : State :=
  with_store oneDependent (cSet (store oneDependent) "sql4go:shop:orders:find_all" "[]" 10).

(** A manager whose cache is switched off. *)
Definition disabledManager : Manager :=
  {| config :=
       {| Enabled := false; DefaultTTL := 10;
          LargeValue :=
            {| MaxValueSize := 16; ChunkSize := 4; CompressThreshold := 2;
               EnableCompression := true; EnableChunking := true |} |};
     client := false |}.

(** Invalidating user 1 removes the one query result that depends on it. *)
Lemma InvalidateEntityDependencies_removes_dependents_witness :
  fst (GetLarge rleDecompress (smallManager true true) "sql4go:shop:users:find_all"
         (snd (InvalidateEntityDependencies (smallManager true true) "users" (IInt 1)
                 oneDependent))) = Err ErrKeyNotFound.
Proof.
  assert (store oneDependent !! dependencyKey "users" (IInt 1) =
          Some (Entry (RSet {["sql4go:shop:users:find_all"]}) (Some 20))) as Hset
    by (by vm_compute).
  assert ("sql4go:shop:users:find_all" ∈ ({["sql4go:shop:users:find_all"]} : gset string))
    as Hin by (by apply elem_of_singleton).
  assert (cGet (store oneDependent) (metadataKey "sql4go:shop:users:find_all") <>
          Err WRONGTYPE) as Hmeta by (by vm_compute).
  exact (proj1 (proj2 (proj2
    (InvalidateEntityDependencies_removes_dependents rleDecompress (smallManager true true)
       "users" (IInt 1) oneDependent _ _ _ eq_refl Hset Hin Hmeta)))).
Defined.

(** The value that user 1 does not list survives the invalidation. *)
Lemma InvalidateEntityDependencies_only_deletes_witness :
  store (snd (InvalidateEntityDependencies (smallManager true true) "users" (IInt 1)
                unrelatedValue)) !! "sql4go:shop:orders:find_all" =
  store unrelatedValue !! "sql4go:shop:orders:find_all".
Proof.
  assert (GetDependencies (smallManager true true) "users" (IInt 1) unrelatedValue =
          Ok ["sql4go:shop:users:find_all"]) as Hdeps by (by vm_compute).
  assert ("sql4go:shop:orders:find_all" <> dependencyKey "users" (IInt 1)) as Hne
    by (by vm_compute).
  assert (forall c, c ∈ ["sql4go:shop:users:find_all"] ->
            String.prefix c "sql4go:shop:orders:find_all" = false) as Hpre
    by (by intros c ->%list_elem_of_singleton).
  exact (proj2 (proj2
    (InvalidateEntityDependencies_only_deletes (smallManager true true) "users" (IInt 1)
       unrelatedValue)) _ _ Hdeps Hne Hpre).
Defined.

(** A result registered under users 1 and 2 is gone once user 2 is
    invalidated. *)
Lemma SetWithDependencies_then_invalidate_witness :
  let m := smallManager true true in
  let st := snd (SetWithDependencies m "sql4go:shop:users:find_all" "[]"
                   [("users", [IInt 1; IInt 2])] emptyState) in
  fst (Get m "sql4go:shop:users:find_all" st) = Ok "[]" /\
  fst (Get m "sql4go:shop:users:find_all"
         (snd (InvalidateEntityDependencies m "users" (IInt 2) st))) = Err ErrKeyNotFound.
Proof.
  assert (0 < DefaultTTL (config (smallManager true true))) as Hpos by done.
  assert (2 * DefaultTTL (config (smallManager true true)) <= Int.MaxInt64) as Hmax by done.
  assert (("users", [IInt 1; IInt 2]) ∈ [("users", [IInt 1; IInt 2])]) as Hd
    by apply list_elem_of_here.
  assert (IInt 2 ∈ [IInt 1; IInt 2]) as Hi by apply list_elem_of_further, list_elem_of_here.
  assert (forall et l id, (et, l) ∈ [("users", [IInt 1; IInt 2])] -> id ∈ l ->
            String.prefix "sql4go:shop:users:find_all" (dependencyKey et id) = false) as Hpre.
  { intros et l id [= -> ->]%list_elem_of_singleton [->|Hid]%elem_of_cons;
      [|apply list_elem_of_singleton in Hid as ->]; by vm_compute. }
  assert (not_string (store emptyState) (dependencyKey "users" (IInt 2))) as Hns
    by (intros s t; by vm_compute).
  assert (cGet (store emptyState) (metadataKey "sql4go:shop:users:find_all") <>
          Err WRONGTYPE) as Hmeta by (by vm_compute).
  destruct (SetWithDependencies_then_invalidate (smallManager true true)
              "sql4go:shop:users:find_all" "[]" [("users", [IInt 1; IInt 2])] "users"
              [IInt 1; IInt 2] (IInt 2) emptyState eq_refl Hpos Hmax Hd Hi Hpre Hns Hmeta)
    as (H1 & _ & H3).
  exact (conj H1 H3).
Defined.

(** The same with a value stored compressed by [SetLarge]. *)
Lemma SetLargeWithDependencies_then_invalidate_witness :
  let m := smallManager true true in
  let st := snd (SetLargeWithDependencies rleCompress m "sql4go:shop:users:find_all"
                   "aaaaaaaa" [("users", [IInt 1; IInt 2])] emptyState) in
  fst (GetLarge rleDecompress m "sql4go:shop:users:find_all"
         (snd (InvalidateEntityDependencies m "users" (IInt 2) st))) = Err ErrKeyNotFound.
Proof.
  assert (0 < DefaultTTL (config (smallManager true true))) as Hpos by done.
  assert (2 * DefaultTTL (config (smallManager true true)) <= Int.MaxInt64) as Hmax by done.
  assert (("users", [IInt 1; IInt 2]) ∈ [("users", [IInt 1; IInt 2])]) as Hd
    by apply list_elem_of_here.
  assert (IInt 2 ∈ [IInt 1; IInt 2]) as Hi by apply list_elem_of_further, list_elem_of_here.
  assert (forall et l id, (et, l) ∈ [("users", [IInt 1; IInt 2])] -> id ∈ l ->
            String.prefix "sql4go:shop:users:find_all" (dependencyKey et id) = false) as Hpre.
  { intros et l id [= -> ->]%list_elem_of_singleton [->|Hid]%elem_of_cons;
      [|apply list_elem_of_singleton in Hid as ->]; by vm_compute. }
  assert (not_string (store emptyState) (dependencyKey "users" (IInt 2))) as Hns
    by (intros s t; by vm_compute).
  assert (cGet (store emptyState) (metadataKey "sql4go:shop:users:find_all") <>
          Err WRONGTYPE) as Hmeta by (by vm_compute).
  assert (len "aaaaaaaa" <= maxValueSize (smallManager true true)) as Hlen by done.
  exact (proj2 (proj2 (SetLargeWithDependencies_then_invalidate rleCompress rleDecompress
           (smallManager true true) "sql4go:shop:users:find_all" "aaaaaaaa"
           [("users", [IInt 1; IInt 2])] "users" [IInt 1; IInt 2] (IInt 2) emptyState
           eq_refl Hpos Hmax Hd Hi Hpre Hns Hmeta) Hlen)).
Defined.

(** A value set, read, deleted and read again. *)
Lemma Set_Get_Delete_witness :
  let m := smallManager true true in
  fst (Get m "k" (snd (Set_ m "k" "v" emptyState))) = Ok "v" /\
  fst (Get m "k" (snd (Delete m "k" (snd (Set_ m "k" "v" emptyState))))) = Err ErrKeyNotFound.
Proof.
  destruct (Set_Get_Delete (smallManager true true) "k" "v" 5 emptyState eq_refl)
    as (H1 & _ & _ & _ & H5 & _).
  exact (conj H1 H5).
Defined.

(** A second dependent key joins the set of user 1. *)
Lemma AddDependency_GetDependencies_witness :
  fst (AddDependency (smallManager true true) "users" (IInt 1) "sql4go:shop:users:count"
         oneDependent) = None.
Proof.
  assert (0 < DefaultTTL (config (smallManager true true))) as Hpos by done.
  assert (2 * DefaultTTL (config (smallManager true true)) <= Int.MaxInt64) as Hmax by done.
  assert (not_string (store oneDependent) (dependencyKey "users" (IInt 1))) as Hns
    by (intros s t; by vm_compute).
  exact (proj1 (AddDependency_GetDependencies (smallManager true true) "users" (IInt 1)
                  "sql4go:shop:users:count" oneDependent eq_refl Hpos Hmax Hns)).
Defined.

(** Five bytes in chunks of four: two chunks, the second of one byte. *)
Lemma setChunked_chunk_sizes_witness :
  chunkCountOf "abcde" 4 = (len "abcde" + 4 - 1) / 4 /\
  exists chunk,
    cGet (store (snd (setChunked (smallManager false true) "k" "abcde" false 4 emptyState)))
      (chunkKey "k" 1) = Ok chunk /\
    len chunk = Z.min 4 (len "abcde" - 1 * 4) /\ 0 < len chunk.
Proof.
  assert (0 < 4) as Hcs by done.
  assert (len "abcde" + 4 <= Int.MaxInt64) as Hmax by done.
  assert (0 <= 1 < chunkCountOf "abcde" 4) as Hi by done.
  exact (setChunked_chunk_sizes (smallManager false true) "k" "abcde" false 4 emptyState 1
           Hcs Hmax Hi).
Defined.

(** Writing ["orders"] does not disturb the chunks of ["k"]. *)
Lemma large_values_isolated_witness :
  let m := smallManager true true in
  fst (GetLarge rleDecompress m "k"
         (snd (SetLarge rleCompress m "orders" "aaaaaaaa" twoChunks))) =
  fst (GetLarge rleDecompress m "k" twoChunks).
Proof.
  exact (proj1 (large_values_isolated rleCompress rleDecompress (smallManager true true)
                  "k" "orders" "aaaaaaaa" twoChunks eq_refl eq_refl)).
Defined.

(** With the cache switched off [Get] fails and [Ping] succeeds. *)
Lemma unavailable_manager_inert_witness :
  Ping disabledManager = None /\
  Get disabledManager "k" twoChunks = (Err ErrCacheDisabled, twoChunks).
Proof.
  destruct (unavailable_manager_inert rleCompress rleDecompress disabledManager
              ErrCacheDisabled twoChunks "k" "v" [] 5 "users" (IInt 1) [] eq_refl)
    as (_ & H2 & H3 & _).
  exact (conj H2 H3).
Defined.

(** The chunked value of [twoChunks], deleted and replaced by a plain one. *)
Lemma SetLarge_overwrite_witness :
  let m := smallManager false true in
  fst (GetLarge rleDecompress m "k"
         (snd (SetLarge rleCompress m "k" "ab" (snd (DeleteLarge m "k" twoChunks))))) =
  Ok "ab".
Proof.
  assert (len "ab" <= maxValueSize (smallManager false true)) as Hlen by done.
  assert (maxValueSize (smallManager false true) + chunkSizeOf (smallManager false true)
          <= Int.MaxInt64) as Hmax by done.
  assert (cGet (store twoChunks) (metadataKey "k") <> Err WRONGTYPE) as Hmeta
    by (by vm_compute).
  exact (proj2 (SetLarge_overwrite rleCompress rleDecompress rle_roundtrip
                  (smallManager false true) "k" "ab" twoChunks eq_refl Hlen Hmax) Hmeta).
Defined.

(** *** The patterns of [InvalidateRelationships] *)

(** [strings.ReplaceAll(s, old, new)] for an [old] that is not empty: the
    occurrences of [old] are found from the left and do not overlap;
    [skip] counts the bytes of an occurrence still to pass over. *)
Fixpoint replaceFrom (old new : string) (skip : nat) (s : string) : string :=
  match s with
  | EmptyString => EmptyString
  | String c r =>
      match skip with
      | S k => replaceFrom old new k r
      | O =>
          if String.prefix old s then new +:+ replaceFrom old new (String.length old - 1) r
          else String c (replaceFrom old new 0 r)
      end
  end.

Definition ReplaceAll (s old new : string) : string := replaceFrom old new 0 s.

(** [buildInvalidationPatterns]; [keyPatterns] is the map
    [config.Invalidation.KeyPatterns]. *)
Definition buildInvalidationPatterns (keyPatterns : string -> option (list string))
    (entityType : string) (entityID : Iface) : list string :=
  let patterns :=
    [cacheKeyPrefix +:+ cacheKeySeparator +:+ entityType +:+ cacheKeySeparator +:+ "*";
     cacheKeyPrefix +:+ cacheKeySeparator +:+ entityType +:+ cacheKeySeparator
       +:+ "find_by_id" +:+ cacheKeySeparator +:+ Sprint entityID] in
  match keyPatterns entityType with
  | Some customPatterns =>
      patterns ++ ((fun customPattern => ReplaceAll customPattern "{id}" (Sprint entityID))
                     <$> customPatterns)
  | None => patterns
  end.

Lemma ReplaceAll_free (s new : string) :
  free_of "{" s = true -> ReplaceAll s "{id}" new = s.
Proof.
  unfold ReplaceAll. induction s as [|c s IH]; [done|].
  cbn [free_of replaceFrom String.prefix]. intros [Hc Hs]%andb_prop.
  destruct (ascii_dec "{" c) as [<-|_]; [done|]. by rewrite IH.
Qed.

Lemma ReplaceAll_placeholder (a b new : string) :
  free_of "{" a = true ->
  ReplaceAll (a +:+ "{id}" +:+ b) "{id}" new = a +:+ new +:+ ReplaceAll b "{id}" new.
Proof.
  unfold ReplaceAll. induction a as [|c a IH].
  - intros _. rewrite !append_nil. by destruct b.
  - change (String c a +:+ ?x) with (String c (a +:+ x)).
    cbn [free_of replaceFrom String.prefix].
    intros [Hc Hs]%andb_prop. destruct (ascii_dec "{" c) as [<-|_]; [done|]. by rewrite IH.
Qed.

End Redis.

(** ** The generic repository, [pkg/repository/interface.go] *)

Module Repository.
Import GoStr.

Definition cacheKeyPrefix : string := "sql4go".
Definition cacheKeySeparator : string := ":".

Inductive db_err :=
| ErrRecordNotFound
| DbFailure (msg : string).

(** An error of the cache manager; [redis.IsKeyNotFound] tells the first
    from the others. *)
Inductive cache_err :=
| CacheKeyNotFound
| CacheFailure (msg : string).

Inductive error :=
| ErrIdNil
| ErrEntityNil
| ErrContext (msg : string)
| ErrDatabase (e : db_err)
| ErrDatabaseFindToDelete (e : db_err)
| ErrBatchCreate (e : db_err)
| ErrBatchUpdate (e : db_err).

(** [ctx.Err()] at the time an operation starts. *)
Record Context := { ctxErr : option string }.

Record RelatedEntity := { EntityType : string; EntityID : Iface }.

Section GenericRepository.

(** The entity type [T], the query values, and the handles of the
    collaborators: [*gorm.DB], [*db.Manager] and [*redis.Manager]. *)
Variables T Query DB DBManager RedisManager : Type.

(** The type assertion of [query] to a [gorm.DB] pointer succeeds. *)
Variable isGormDB : Query -> bool.

(** The twelve hexadecimal digits [generateCacheKeyFromQuery] takes from the
    xxhash of the query and its arguments. *)
Variable queryHash : Query -> list Iface -> string.

(** The methods of [Entity], [GetRelationships] when [T] implements
    [RelationshipAware], the relationships found by reflection, and the tests
    and encodings that go through [reflect] and [encoding/json]. *)
Variable GetPrimaryKeyValue : T -> Iface.
Variable GetRelationships : option (T -> list (string * list RelatedEntity)).
Variable extractRelationshipsFromEntity : T -> Iface -> list (string * list RelatedEntity).
Variable isZero : T -> bool.
Variable marshalEntities : list T -> option string.

(** The chain methods of [*gorm.DB]. *)
Variable gormPreload : DB -> string -> DB.
Variable gormJoins : DB -> string -> list Iface -> DB.
Variable gormOrder : DB -> Iface -> DB.
Variable gormLimit : DB -> Z -> DB.
Variable gormOffset : DB -> Z -> DB.

Record GenericRepository := {
  db : DB;
  dbManager : option DBManager;
  redis : option RedisManager;
  entityType : string;
  tableName : string;
  primaryKey : string;
  dbName : string
}.

(** *** Calls to the collaborators

    Each call to the cache manager or to the relational store is recorded in
    a trace; the environment answers it from the trace so far. *)

Inductive Call : Type -> Type :=
| GetValue (key : string) : Call (res T cache_err)
| SetValue (key : string) (entity : T) : Call (option cache_err)
| GetCountValue (key : string) : Call (res Z cache_err)
| SetCountValue (key : string) (count : Z) : Call (option cache_err)
| GetLargeValue (key : string) : Call (res (list T) cache_err)
| SetLargeValue (key : string) (entities : list T) : Call (option cache_err)
| SetLargeWithDependencies (key data : string) (dependencies : list (string * list Iface))
    : Call (option cache_err)
| InvalidatePattern (pattern : string) : Call (option cache_err)
| InvalidateEntityDependencies (entityType : string) (entityID : Iface)
    : Call (option cache_err)
| DbFirst (d : DB) (id : Iface) : Call (res T db_err)
| DbFind (d : DB) : Call (res (list T) db_err)
| DbWhereFind (d : DB) (query : Query) (args : list Iface) : Call (res (list T) db_err)
| DbWhereFirst (d : DB) (query : Query) (args : list Iface) : Call (res T db_err)
| DbCount (d : DB) : Call (res Z db_err)
| DbCreate (d : DB) (entity : T) : Call (T * option db_err)
| DbSave (d : DB) (entity : T) : Call (T * option db_err)
| DbDelete (d : DB) (entity : T) : Call (option db_err)
| DbCreateBatch (d : DB) (entities : list (option T)) : Call (list (option T) * option db_err)
| DbSaveBatch (d : DB) (entities : list (option T)) : Call (list (option T) * option db_err).

Inductive Event :=
| event : forall R : Type, Call R -> Event.
Arguments event {R} c.

Variable env : forall R, list Event -> Call R -> R.

Definition M (A : Type) : Type := list Event -> A * list Event.

Definition ret {A} (a : A) : M A := fun tr => (a, tr).

Definition bind {A B} (x : M A) (f : A -> M B) : M B :=
  fun tr => let '(a, tr1) := x tr in f a tr1.

Definition call {R} (c : Call R) : M R :=
  fun tr => (env R tr c, tr ++ [event c]).

#[local] Instance M_ret : MRet M := @ret.
#[local] Instance M_bind : MBind M := fun A B f x => bind x f.

Fixpoint forEach {A} (l : list A) (body : A -> M unit) : M unit :=
  match l with
  | [] => ret tt
  | a :: rest => body a ;; forEach rest body
  end.

(** *** Cache keys *)

Definition generateCacheKey (r : GenericRepository) (operation suffix : string) : string :=
  if String.eqb suffix "" then
    cacheKeyPrefix +:+ cacheKeySeparator +:+ dbName r +:+ cacheKeySeparator
      +:+ tableName r +:+ cacheKeySeparator +:+ operation
  else
    cacheKeyPrefix +:+ cacheKeySeparator +:+ dbName r +:+ cacheKeySeparator
      +:+ tableName r +:+ cacheKeySeparator +:+ operation +:+ cacheKeySeparator +:+ suffix.

Definition generateCacheKeyFromQuery (r : GenericRepository) (operation : string)
    (query : Query) (args : list Iface) : string :=
  cacheKeyPrefix +:+ cacheKeySeparator +:+ dbName r +:+ cacheKeySeparator
    +:+ tableName r +:+ cacheKeySeparator +:+ operation +:+ cacheKeySeparator
    +:+ queryHash query args.

(** *** Invalidation *)

Definition InvalidateCache (r : GenericRepository) : M (option cache_err) :=
  match redis r with
  | None => ret None
  | Some _ => call (InvalidatePattern ("sql4go:" +:+ dbName r +:+ ":" +:+ tableName r +:+ ":*"))
  end.

Definition relationshipsOf (entity : T) : list (string * list RelatedEntity) :=
  match GetRelationships with
  | Some get => get entity
  | None => extractRelationshipsFromEntity entity (GetPrimaryKeyValue entity)
  end.

Definition invalidateRelated (related : RelatedEntity) : M unit :=
  match EntityID related with
  | INil => ret tt
  | id => call (InvalidateEntityDependencies (EntityType related) id) ;; ret tt
  end.

Definition invalidateEntityCaches (r : GenericRepository) (entity : T) : M unit :=
  InvalidateCache r ;;
  call (InvalidateEntityDependencies (tableName r) (GetPrimaryKeyValue entity)) ;;
  forEach (relationshipsOf entity)
    (fun '(_, relatedEntities) => forEach relatedEntities invalidateRelated).

(** The dependency map of [extractDependenciesFromEntities], as the list of
    its keys with their identifiers. *)
Fixpoint appendDep (deps : list (string * list Iface)) (k : string) (id : Iface)
  : list (string * list Iface) :=
  match deps with
  | [] => [(k, [id])]
  | (k', ids) :: rest =>
      if String.eqb k' k then (k', ids ++ [id]) :: rest
      else (k', ids) :: appendDep rest k id
  end.

Definition appendRelated (deps : list (string * list Iface))
    (rels : list (string * list RelatedEntity)) : list (string * list Iface) :=
  foldl (fun acc '(_, relatedEntities) =>
           foldl (fun acc related =>
                    match EntityID related with
                    | INil => acc
                    | id => appendDep acc (EntityType related) id
                    end) acc relatedEntities) deps rels.

Definition extractDependenciesFromEntities (r : GenericRepository) (entities : list T)
  : list (string * list Iface) :=
  foldl (fun deps entity =>
           if isZero entity then deps
           else
             let pkValue := GetPrimaryKeyValue entity in
             let deps :=
               match pkValue with
               | INil => deps
               | _ => appendDep deps (tableName r) pkValue
               end in
             match GetRelationships with
             | Some get => appendRelated deps (get entity)
             | None =>
                 match pkValue with
                 | INil => deps
                 | _ => appendRelated deps (extractRelationshipsFromEntity entity pkValue)
                 end
             end) [] entities.

(** *** Read operations, cache first

    A read returns [(result, cacheHit, cacheStored)] or an error.
    [withQueryTimeout] only adds a deadline that lies ahead, so the context
    an operation checks is the caller's. *)

(** The cache check: any error of the cache manager leaves it a miss. *)
Definition tryCache {A} (r : GenericRepository) (c : Call (res A cache_err)) : M (option A) :=
  match redis r with
  | None => ret None
  | Some _ =>
      x ← call c;
      match x with
      | Ok a => ret (Some a)
      | Err _ => ret None
      end
  end.

(** Storing after the store read: [cacheStored] tells whether it worked. *)
Definition storeCache (r : GenericRepository) (c : Call (option cache_err)) : M bool :=
  match redis r with
  | None => ret false
  | Some _ =>
      e ← call c;
      ret (match e with None => true | Some _ => false end)
  end.

Definition FindByID (r : GenericRepository) (ctx : Context) (id : Iface)
  : M (res (option T * bool * bool) error) :=
  match id with
  | INil => ret (Err ErrIdNil)
  | _ =>
      match ctxErr ctx with
      | Some msg => ret (Err (ErrContext msg))
      | None =>
          let cacheKey := generateCacheKey r "find_by_id" (Sprint id) in
          hit ← tryCache r (GetValue cacheKey);
          match hit with
          | Some entity => ret (Ok (Some entity, true, false))
          | None =>
              result ← call (DbFirst (db r) id);
              match result with
              | Err ErrRecordNotFound => ret (Ok (None, false, false))
              | Err e => ret (Err (ErrDatabase e))
              | Ok entity =>
                  cacheStored ← storeCache r (SetValue cacheKey entity);
                  ret (Ok (Some entity, false, cacheStored))
              end
          end
      end
  end.

Definition FindAll (r : GenericRepository) (ctx : Context)
  : M (res (list T * bool * bool) error) :=
  match ctxErr ctx with
  | Some msg => ret (Err (ErrContext msg))
  | None =>
      let cacheKey := generateCacheKey r "find_all" "" in
      hit ← tryCache r (GetLargeValue cacheKey);
      match hit with
      | Some entities => ret (Ok (entities, true, false))
      | None =>
          result ← call (DbFind (db r));
          match result with
          | Err e => ret (Err (ErrDatabase e))
          | Ok entities =>
              cacheStored ← storeCache r (SetLargeValue cacheKey entities);
              ret (Ok (entities, false, cacheStored))
          end
      end
  end.

Definition FindWhere (r : GenericRepository) (ctx : Context) (query : Query)
    (args : list Iface) : M (res (list T * bool * bool) error) :=
  match ctxErr ctx with
  | Some msg => ret (Err (ErrContext msg))
  | None =>
      let shouldCache := negb (isGormDB query) in
      let cacheKey :=
        if shouldCache then generateCacheKeyFromQuery r "find_where" query args else "" in
      hit ← (if shouldCache then tryCache r (GetLargeValue cacheKey) else ret None);
      match hit with
      | Some entities => ret (Ok (entities, true, false))
      | None =>
          result ← call (DbWhereFind (db r) query args);
          match result with
          | Err e => ret (Err (ErrDatabase e))
          | Ok entities =>
              cacheStored ←
                (if shouldCache then
                   let dependencies := extractDependenciesFromEntities r entities in
                   match marshalEntities entities with
                   | Some data =>
                       storeCache r (SetLargeWithDependencies cacheKey data dependencies)
                   | None => ret false
                   end
                 else ret false);
              ret (Ok (entities, false, cacheStored))
          end
      end
  end.

Definition First (r : GenericRepository) (ctx : Context) (query : Query)
    (args : list Iface) : M (res (option T * bool * bool) error) :=
  match ctxErr ctx with
  | Some msg => ret (Err (ErrContext msg))
  | None =>
      let shouldCache := negb (isGormDB query) in
      let cacheKey :=
        if shouldCache then generateCacheKeyFromQuery r "first" query args else "" in
      hit ← (if shouldCache then tryCache r (GetValue cacheKey) else ret None);
      match hit with
      | Some entity => ret (Ok (Some entity, true, false))
      | None =>
          result ← call (DbWhereFirst (db r) query args);
          match result with
          | Err ErrRecordNotFound => ret (Ok (None, false, false))
          | Err e => ret (Err (ErrDatabase e))
          | Ok entity =>
              cacheStored ←
                (if shouldCache then storeCache r (SetValue cacheKey entity) else ret false);
              ret (Ok (Some entity, false, cacheStored))
          end
      end
  end.

Definition Count (r : GenericRepository) (ctx : Context)
  : M (res (Z * bool * bool) error) :=
  match ctxErr ctx with
  | Some msg => ret (Err (ErrContext msg))
  | None =>
      let cacheKey := generateCacheKey r "count" "" in
      hit ← tryCache r (GetCountValue cacheKey);
      match hit with
      | Some count => ret (Ok (count, true, false))
      | None =>
          result ← call (DbCount (db r));
          match result with
          | Err e => ret (Err (ErrDatabase e))
          | Ok count =>
              cacheStored ← storeCache r (SetCountValue cacheKey count);
              ret (Ok (count, false, cacheStored))
          end
      end
  end.

Definition Exists (r : GenericRepository) (ctx : Context) (id : Iface)
  : M (res (bool * bool * bool) error) :=
  found ← FindByID r ctx id;
  match found with
  | Err err => ret (Err err)
  | Ok (entity, cacheHit, cacheStored) =>
      ret (Ok (match entity with Some _ => true | None => false end, cacheHit, cacheStored))
  end.

(** *** Write operations

    A write returns [cacheInvalidated] or an error.  [entity] is a pointer:
    [None] is nil. *)

Definition invalidateAfterWrite (r : GenericRepository) (entity : T) : M bool :=
  match redis r with
  | None => ret false
  | Some _ => invalidateEntityCaches r entity ;; ret true
  end.

Definition Create (r : GenericRepository) (ctx : Context) (entity : option T)
  : M (res bool error) :=
  match entity with
  | None => ret (Err ErrEntityNil)
  | Some e =>
      '(e, err) ← call (DbCreate (db r) e);
      match err with
      | Some de => ret (Err (ErrDatabase de))
      | None => cacheInvalidated ← invalidateAfterWrite r e; ret (Ok cacheInvalidated)
      end
  end.

Definition Update (r : GenericRepository) (ctx : Context) (entity : option T)
  : M (res bool error) :=
  match entity with
  | None => ret (Err ErrEntityNil)
  | Some e =>
      '(e, err) ← call (DbSave (db r) e);
      match err with
      | Some de => ret (Err (ErrDatabase de))
      | None => cacheInvalidated ← invalidateAfterWrite r e; ret (Ok cacheInvalidated)
      end
  end.

Definition Delete (r : GenericRepository) (ctx : Context) (id : Iface)
  : M (res bool error) :=
  match id with
  | INil => ret (Err ErrIdNil)
  | _ =>
      found ← call (DbFirst (db r) id);
      match found with
      | Err ErrRecordNotFound => ret (Ok false)
      | Err e => ret (Err (ErrDatabaseFindToDelete e))
      | Ok entity =>
          err ← call (DbDelete (db r) entity);
          match err with
          | Some de => ret (Err (ErrDatabase de))
          | None =>
              cacheInvalidated ← invalidateAfterWrite r entity;
              ret (Ok cacheInvalidated)
          end
      end
  end.

Definition invalidateBatch (r : GenericRepository) (entities : list (option T)) : M unit :=
  match redis r with
  | None => ret tt
  | Some _ =>
      forEach entities
        (fun entity =>
           match entity with
           | Some e => invalidateEntityCaches r e
           | None => ret tt
           end)
  end.

Definition CreateBatch (r : GenericRepository) (ctx : Context) (entities : list (option T))
  : M (option error) :=
  match entities with
  | [] => ret None
  | _ =>
      '(entities, err) ← call (DbCreateBatch (db r) entities);
      match err with
      | Some de => ret (Some (ErrBatchCreate de))
      | None => invalidateBatch r entities ;; ret None
      end
  end.

Definition UpdateBatch (r : GenericRepository) (ctx : Context) (entities : list (option T))
  : M (option error) :=
  match entities with
  | [] => ret None
  | _ =>
      '(entities, err) ← call (DbSaveBatch (db r) entities);
      match err with
      | Some de => ret (Some (ErrBatchUpdate de))
      | None => invalidateBatch r entities ;; ret None
      end
  end.

(** *** Chain methods

    The receiver is a pointer into a heap of repository values; [newRepo :=
    *r] copies the value it points to and the method returns the address of
    the copy.  A receiver that points nowhere is a nil dereference. *)

Abbreviation Heap := (list GenericRepository).

Definition with_db (r : GenericRepository) (d : DB) : GenericRepository :=
  {| db := d; dbManager := dbManager r; redis := redis r; entityType := entityType r;
     tableName := tableName r; primaryKey := primaryKey r; dbName := dbName r |}.

Definition alloc (h : Heap) (v : GenericRepository) : Heap * nat := (h ++ [v], length h).

Definition Preload (h : Heap) (r : nat) (associations : list string) : option (Heap * nat) :=
  newRepo ← h !! r;
  let d := foldl gormPreload (db newRepo) associations in
  Some (alloc h (with_db newRepo d)).

Definition Joins (h : Heap) (r : nat) (query : string) (args : list Iface)
  : option (Heap * nat) :=
  newRepo ← h !! r;
  Some (alloc h (with_db newRepo (gormJoins (db newRepo) query args))).

Definition Order (h : Heap) (r : nat) (value : Iface) : option (Heap * nat) :=
  newRepo ← h !! r;
  Some (alloc h (with_db newRepo (gormOrder (db newRepo) value))).

Definition Limit (h : Heap) (r : nat) (limit : Z) : option (Heap * nat) :=
  let limit := if limit <? 0 then 0 else limit in
  newRepo ← h !! r;
  Some (alloc h (with_db newRepo (gormLimit (db newRepo) limit))).

Definition Offset (h : Heap) (r : nat) (offset : Z) : option (Heap * nat) :=
  let offset := if offset <? 0 then 0 else offset in
  newRepo ← h !! r;
  Some (alloc h (with_db newRepo (gormOffset (db newRepo) offset))).

(** *** Properties of the repository *)

(** The result of a read that went to the relational store: the store's
    record with [cacheHit] false, the absent result where the operation has
    one for "record not found", or the store's failure. *)
Definition viaStore {A B} (found : B -> A) (notFound : option A) (answer : res B db_err)
    (result : res (A * bool * bool) error) : Prop :=
  match answer with
  | Ok v => exists cacheStored, result = Ok (found v, false, cacheStored)
  | Err ErrRecordNotFound =>
      match notFound with
      | Some a => result = Ok (a, false, false)
      | None => result = Err (ErrDatabase ErrRecordNotFound)
      end
  | Err e => result = Err (ErrDatabase e)
  end.

Ltac unfold_M := unfold mbind, mret, M_bind, M_ret, bind, ret, call in *.

Lemma tryCache_error {A} (r : GenericRepository) (mgr : RedisManager)
    (c : Call (res A cache_err)) (tr : list Event) (e : cache_err) :
  redis r = Some mgr -> env _ tr c = Err e ->
  tryCache r c tr = (None, tr ++ [event c]).
Proof. intros Hr He. unfold tryCache. rewrite Hr. unfold_M. by rewrite He. Qed.

(** C5, as amended.  With an empty suffix the key is
    [sql4go:<db>:<table>:<operation>] and ends with the operation: no
    separator is appended.  With a non-empty suffix the separator and the
    suffix follow, and the key differs from the one without suffix. *)
Theorem generateCacheKey_suffix (r : GenericRepository) (operation suffix : string) :
  generateCacheKey r operation "" =
    "sql4go:" +:+ dbName r +:+ ":" +:+ tableName r +:+ ":" +:+ operation /\
  (suffix <> "" ->
   generateCacheKey r operation suffix =
     "sql4go:" +:+ dbName r +:+ ":" +:+ tableName r +:+ ":" +:+ operation +:+ ":" +:+ suffix /\
   generateCacheKey r operation suffix <> generateCacheKey r operation "").
Proof.
  split; [done|]. intros Hs. unfold generateCacheKey.
  destruct (String.eqb_spec suffix "") as [|_]; [done|].
  split; [done|]. cbn [String.eqb].
  intros H. repeat apply append_inv_head in H.
  by apply (append_ne_self operation (cacheKeySeparator +:+ suffix)) in H.
Qed.

(** C9.  A nil identifier given to [FindByID] or [Delete], and a nil entity
    pointer given to [Create] or [Update], is answered with an error at once:
    the trace of calls to the cache and to the store stays as it was. *)
Theorem nil_inputs_rejected (r : GenericRepository) (ctx : Context) (tr : list Event) :
  FindByID r ctx INil tr = (Err ErrIdNil, tr) /\
  Delete r ctx INil tr = (Err ErrIdNil, tr) /\
  Create r ctx None tr = (Err ErrEntityNil, tr) /\
  Update r ctx None tr = (Err ErrEntityNil, tr).
Proof. by repeat split. Qed.

Lemma storeCache_result (r : GenericRepository) (c : Call (option cache_err)) (tr : list Event) :
  exists cacheStored tr', storeCache r c tr = (cacheStored, tr').
Proof. destruct (storeCache r c tr) as [b tr'] eqn:H. by exists b, tr'. Qed.

Lemma FindByID_cache_error (r : GenericRepository) (mgr : RedisManager) (ctx : Context)
    (id : Iface) (tr : list Event) (e : cache_err) :
  redis r = Some mgr -> ctxErr ctx = None -> id <> INil ->
  env _ tr (GetValue (generateCacheKey r "find_by_id" (Sprint id))) = Err e ->
  viaStore Some (Some None)
    (env _ (tr ++ [event (GetValue (generateCacheKey r "find_by_id" (Sprint id)))])
       (DbFirst (db r) id))
    (fst (FindByID r ctx id tr)).
Proof.
  intros Hr Hctx Hid He. unfold FindByID. rewrite Hctx.
  assert (forall X (a b : X), match id with INil => a | _ => b end = b) as -> by (by destruct id).
  unfold mbind at 1, M_bind at 1, bind at 1.
  rewrite (tryCache_error r mgr _ tr e Hr He).
  unfold mbind at 1, M_bind at 1, bind at 1, call at 1.
  unfold viaStore. destruct (env _ _ (DbFirst (db r) id)) as [entity|[|msg]]; [|done..].
  unfold mbind, M_bind, bind.
  destruct (storeCache_result r (SetValue (generateCacheKey r "find_by_id" (Sprint id)) entity)
              ((tr ++ [event (GetValue (generateCacheKey r "find_by_id" (Sprint id)))])
                 ++ [event (DbFirst (db r) id)])) as (b & tr' & ->).
  by exists b.
Qed.

(** C8.  With a cache manager set and a live context: when the cache check
    of a read answers with an error, whichever it is, the read goes on to the
    relational store and returns what the store answers, records and "not
    found" without error; when the store fails a write, the error is
    returned and the calls made are those to the store alone, so no
    invalidation takes place. *)
Theorem cache_errors_swallowed_store_errors_returned (r : GenericRepository)
    (mgr : RedisManager) (ctx : Context) (tr : list Event) :
  redis r = Some mgr ->
  ctxErr ctx = None ->
  (forall id e, id <> INil ->
     let check := GetValue (generateCacheKey r "find_by_id" (Sprint id)) in
     env _ tr check = Err e ->
     viaStore Some (Some None) (env _ (tr ++ [event check]) (DbFirst (db r) id))
       (fst (FindByID r ctx id tr)) /\
     viaStore (fun _ => true) (Some false) (env _ (tr ++ [event check]) (DbFirst (db r) id))
       (fst (Exists r ctx id tr))) /\
  (forall e,
     let check := GetLargeValue (generateCacheKey r "find_all" "") in
     env _ tr check = Err e ->
     viaStore (fun l => l) None (env _ (tr ++ [event check]) (DbFind (db r)))
       (fst (FindAll r ctx tr))) /\
  (forall query args e, isGormDB query = false ->
     let check := GetLargeValue (generateCacheKeyFromQuery r "find_where" query args) in
     env _ tr check = Err e ->
     viaStore (fun l => l) None (env _ (tr ++ [event check]) (DbWhereFind (db r) query args))
       (fst (FindWhere r ctx query args tr))) /\
  (forall query args e, isGormDB query = false ->
     let check := GetValue (generateCacheKeyFromQuery r "first" query args) in
     env _ tr check = Err e ->
     viaStore Some (Some None) (env _ (tr ++ [event check]) (DbWhereFirst (db r) query args))
       (fst (First r ctx query args tr))) /\
  (forall e,
     let check := GetCountValue (generateCacheKey r "count" "") in
     env _ tr check = Err e ->
     viaStore (fun n => n) None (env _ (tr ++ [event check]) (DbCount (db r)))
       (fst (Count r ctx tr))) /\
  (forall entity de, snd (env _ tr (DbCreate (db r) entity)) = Some de ->
     Create r ctx (Some entity) tr =
       (Err (ErrDatabase de), tr ++ [event (DbCreate (db r) entity)])) /\
  (forall entity de, snd (env _ tr (DbSave (db r) entity)) = Some de ->
     Update r ctx (Some entity) tr =
       (Err (ErrDatabase de), tr ++ [event (DbSave (db r) entity)])) /\
  (forall id entity de, id <> INil ->
     env _ tr (DbFirst (db r) id) = Ok entity ->
     env _ (tr ++ [event (DbFirst (db r) id)]) (DbDelete (db r) entity) = Some de ->
     Delete r ctx id tr =
       (Err (ErrDatabase de),
        (tr ++ [event (DbFirst (db r) id)]) ++ [event (DbDelete (db r) entity)])) /\
  (forall id msg, id <> INil ->
     env _ tr (DbFirst (db r) id) = Err (DbFailure msg) ->
     Delete r ctx id tr =
       (Err (ErrDatabaseFindToDelete (DbFailure msg)), tr ++ [event (DbFirst (db r) id)])) /\
  (forall entities de, entities <> [] ->
     snd (env _ tr (DbCreateBatch (db r) entities)) = Some de ->
     CreateBatch r ctx entities tr =
       (Some (ErrBatchCreate de), tr ++ [event (DbCreateBatch (db r) entities)])) /\
  (forall entities de, entities <> [] ->
     snd (env _ tr (DbSaveBatch (db r) entities)) = Some de ->
     UpdateBatch r ctx entities tr =
       (Some (ErrBatchUpdate de), tr ++ [event (DbSaveBatch (db r) entities)])).
Proof.
  intros Hr Hctx. cbv zeta.
  split; [intros id e Hid He; split|repeat split].
  - by apply FindByID_cache_error with mgr e.
  - pose proof (FindByID_cache_error r mgr ctx id tr e Hr Hctx Hid He) as Hv.
    unfold Exists. unfold mbind at 1, M_bind at 1, bind at 1.
    destruct (FindByID r ctx id tr) as [found tr']. cbn [fst] in *.
    unfold viaStore in *. destruct (env _ _ (DbFirst (db r) id)) as [entity|[|msg]].
    + destruct Hv as [b ->]. by exists b.
    + by rewrite Hv.
    + by rewrite Hv.
  - intros e He. unfold FindAll. rewrite Hctx.
    unfold mbind at 1, M_bind at 1, bind at 1. rewrite (tryCache_error r mgr _ tr e Hr He).
    unfold mbind at 1, M_bind at 1, bind at 1, call at 1.
    unfold viaStore. destruct (env _ _ (DbFind (db r))) as [entities|[|msg]]; [|done..].
    unfold mbind, M_bind, bind.
    match goal with |- context [storeCache r ?c ?t] =>
      destruct (storeCache_result r c t) as (b & tr' & ->) end.
    by exists b.
  - intros query args e Hq He. unfold FindWhere. rewrite Hctx, Hq. cbn [negb].
    unfold mbind at 1, M_bind at 1, bind at 1. rewrite (tryCache_error r mgr _ tr e Hr He).
    unfold mbind at 1, M_bind at 1, bind at 1, call at 1.
    unfold viaStore. destruct (env _ _ (DbWhereFind (db r) query args)) as [entities|[|msg]];
      [|done..].
    unfold mbind, M_bind, bind.
    destruct (marshalEntities entities) as [data|].
    + match goal with |- context [storeCache r ?c ?t] =>
        destruct (storeCache_result r c t) as (b & tr' & ->) end.
      by exists b.
    + by exists false.
  - intros query args e Hq He. unfold First. rewrite Hctx, Hq. cbn [negb].
    unfold mbind at 1, M_bind at 1, bind at 1. rewrite (tryCache_error r mgr _ tr e Hr He).
    unfold mbind at 1, M_bind at 1, bind at 1, call at 1.
    unfold viaStore. destruct (env _ _ (DbWhereFirst (db r) query args)) as [entity|[|msg]];
      [|done..].
    unfold mbind, M_bind, bind.
    match goal with |- context [storeCache r ?c ?t] =>
      destruct (storeCache_result r c t) as (b & tr' & ->) end.
    by exists b.
  - intros e He. unfold Count. rewrite Hctx.
    unfold mbind at 1, M_bind at 1, bind at 1. rewrite (tryCache_error r mgr _ tr e Hr He).
    unfold mbind at 1, M_bind at 1, bind at 1, call at 1.
    unfold viaStore. destruct (env _ _ (DbCount (db r))) as [n|[|msg]]; [|done..].
    unfold mbind, M_bind, bind.
    match goal with |- context [storeCache r ?c ?t] =>
      destruct (storeCache_result r c t) as (b & tr' & ->) end.
    by exists b.
  - intros entity de He. unfold Create. unfold_M.
    destruct (env _ tr (DbCreate (db r) entity)) as [e' err]. cbn [snd] in He. by subst.
  - intros entity de He. unfold Update. unfold_M.
    destruct (env _ tr (DbSave (db r) entity)) as [e' err]. cbn [snd] in He. by subst.
  - intros id entity de Hid Hf Hd. unfold Delete. unfold_M.
    destruct id; [done|..]; by rewrite Hf, Hd.
  - intros id msg Hid Hf. unfold Delete. unfold_M.
    destruct id; [done|..]; by rewrite Hf.
  - intros entities de Hne He. unfold CreateBatch. unfold_M.
    destruct entities; [done|].
    destruct (env _ tr (DbCreateBatch _ _)) as [es err]. cbn [snd] in He. by subst.
  - intros entities de Hne He. unfold UpdateBatch. unfold_M.
    destruct entities; [done|].
    destruct (env _ tr (DbSaveBatch _ _)) as [es err]. cbn [snd] in He. by subst.
Qed.

(** What a chain method returns for the receiver [r] in heap [h]: a new
    address [r'], every repository of [h] where it was, and at [r'] a copy of
    the receiver that differs from it in its [db] handle alone. *)
Definition returnsCopy (h : Heap) (r : nat) (v : GenericRepository) (newDb : DB)
    (result : option (Heap * nat)) : Prop :=
  exists h' r' v',
    result = Some (h', r') /\
    r' <> r /\
    (forall a x, h !! a = Some x -> h' !! a = Some x) /\
    h' !! r' = Some v' /\
    db v' = newDb /\
    dbManager v' = dbManager v /\ redis v' = redis v /\ entityType v' = entityType v /\
    tableName v' = tableName v /\ primaryKey v' = primaryKey v /\ dbName v' = dbName v.

Lemma alloc_returnsCopy (h : Heap) (r : nat) (v : GenericRepository) (newDb : DB) :
  h !! r = Some v -> returnsCopy h r v newDb (Some (alloc h (with_db v newDb))).
Proof.
  intros Hr. exists (h ++ [with_db v newDb]), (length h), (with_db v newDb).
  split; [done|]. split.
  - apply lookup_lt_Some in Hr. lia.
  - split; [intros a x Ha; by apply lookup_app_l_Some|].
    split; [|done]. rewrite lookup_app_r by done. by rewrite Nat.sub_diag.
Qed.

(** C10, as amended.  [Preload], [Joins], [Order], [Limit] and [Offset] return a new
    repository value and leave the receiver, and every other repository,
    as it was; the new value differs from the receiver in its [db] handle
    alone.  [Limit] and [Offset] pass a negative argument on as 0. *)
Theorem chain_methods_copy (h : Heap) (r : nat) (v : GenericRepository) :
  h !! r = Some v ->
  (forall associations,
     returnsCopy h r v (foldl gormPreload (db v) associations) (Preload h r associations)) /\
  (forall query args, returnsCopy h r v (gormJoins (db v) query args) (Joins h r query args)) /\
  (forall value, returnsCopy h r v (gormOrder (db v) value) (Order h r value)) /\
  (forall limit, returnsCopy h r v (gormLimit (db v) (Z.max 0 limit)) (Limit h r limit)) /\
  (forall offset, returnsCopy h r v (gormOffset (db v) (Z.max 0 offset)) (Offset h r offset)).
Proof.
  intros Hr. repeat split; intros.
  - unfold Preload. rewrite Hr. by apply alloc_returnsCopy.
  - unfold Joins. rewrite Hr. by apply alloc_returnsCopy.
  - unfold Order. rewrite Hr. by apply alloc_returnsCopy.
  - unfold Limit. rewrite Hr.
    replace (if limit <? 0 then 0 else limit) with (Z.max 0 limit)
      by (destruct (Z.ltb_spec limit 0); lia).
    by apply alloc_returnsCopy.
  - unfold Offset. rewrite Hr.
    replace (if offset <? 0 then 0 else offset) with (Z.max 0 offset)
      by (destruct (Z.ltb_spec offset 0); lia).
    by apply alloc_returnsCopy.
Qed.

(** *** Which collaborator a call goes to *)

Definition is_cache_call (e : Event) : bool :=
  match e with
  | event c =>
      match c with
      | DbFirst _ _ | DbFind _ | DbWhereFind _ _ _ | DbWhereFirst _ _ _ | DbCount _
      | DbCreate _ _ | DbSave _ _ | DbDelete _ _ | DbCreateBatch _ _ | DbSaveBatch _ _ => false
      | _ => true
      end
  end.

(** The part of the trace an operation added holds no call to the cache
    manager. *)
Definition storeOnly {A} (tr : list Event) (out : A * list Event) : Prop :=
  exists new, snd out = tr ++ new /\ forallb (fun e => negb (is_cache_call e)) new = true.

(** The flags [cacheHit] and [cacheStored] of a read are both false. *)
Definition flagsOff {A} (result : res (A * bool * bool) error) : Prop :=
  match result with
  | Ok (_, cacheHit, cacheStored) => cacheHit = false /\ cacheStored = false
  | Err _ => True
  end.

(** The flag [cacheInvalidated] of a write is false. *)
Definition notInvalidated (result : res bool error) : Prop :=
  match result with
  | Ok cacheInvalidated => cacheInvalidated = false
  | Err _ => True
  end.

Ltac case_answer :=
  match goal with
  | |- context [isGormDB ?q] => destruct (isGormDB q); cbn [negb]
  | |- context [marshalEntities ?l] => destruct (marshalEntities l)
  | |- context [env ?R ?t ?c] => destruct (env R t c)
  | |- context [match ?x with ErrRecordNotFound => _ | DbFailure _ => _ end] => destruct x
  | |- context [match ?x with Some _ => _ | None => _ end] => destruct x
  | |- context [match ?x with Ok _ => _ | Err _ => _ end] => destruct x
  | |- context [match ?x with INil => _ | _ => _ end] => destruct x
  | |- context [match ?x with [] => _ | _ => _ end] => destruct x
  end.

Ltac store_only :=
  unfold storeOnly, flagsOff, notInvalidated; cbn [fst snd]; rewrite <- ?app_assoc;
  first [ done
        | by (exists []; rewrite app_nil_r)
        | by (eexists; split; [reflexivity|]) ].

(** A repository built without cache manager works on the relational store
    alone: no operation calls the cache, and the flags [cacheHit],
    [cacheStored] and [cacheInvalidated] stay false. *)
Theorem without_cache_manager (r : GenericRepository) (ctx : Context) (tr : list Event) :
  redis r = None ->
  (forall id, flagsOff (fst (FindByID r ctx id tr)) /\ storeOnly tr (FindByID r ctx id tr)) /\
  (forall id, flagsOff (fst (Exists r ctx id tr)) /\ storeOnly tr (Exists r ctx id tr)) /\
  (flagsOff (fst (FindAll r ctx tr)) /\ storeOnly tr (FindAll r ctx tr)) /\
  (forall query args,
     flagsOff (fst (FindWhere r ctx query args tr)) /\
     storeOnly tr (FindWhere r ctx query args tr)) /\
  (forall query args,
     flagsOff (fst (First r ctx query args tr)) /\
     storeOnly tr (First r ctx query args tr)) /\
  (flagsOff (fst (Count r ctx tr)) /\ storeOnly tr (Count r ctx tr)) /\
  (forall entity,
     notInvalidated (fst (Create r ctx entity tr)) /\ storeOnly tr (Create r ctx entity tr)) /\
  (forall entity,
     notInvalidated (fst (Update r ctx entity tr)) /\ storeOnly tr (Update r ctx entity tr)) /\
  (forall id, notInvalidated (fst (Delete r ctx id tr)) /\ storeOnly tr (Delete r ctx id tr)) /\
  (forall entities, storeOnly tr (CreateBatch r ctx entities tr)) /\
  (forall entities, storeOnly tr (UpdateBatch r ctx entities tr)) /\
  InvalidateCache r tr = (None, tr).
Proof.
  intros Hr.
  assert (forall id, flagsOff (fst (FindByID r ctx id tr)) /\ storeOnly tr (FindByID r ctx id tr))
    as HF.
  { intros id. unfold FindByID, tryCache, storeCache. rewrite Hr. unfold_M.
    split; repeat case_answer; store_only. }
  split; [done|]. split.
  { intros id. specialize (HF id). unfold Exists. unfold_M.
    destruct (FindByID r ctx id tr) as [[[[entity hit] stored]|err] tr']; cbn [fst snd] in *;
      [|done]. destruct HF as [[-> ->] Hs]. by destruct entity. }
  unfold FindAll, FindWhere, First, Count, Create, Update, Delete, CreateBatch, UpdateBatch,
    InvalidateCache, tryCache, storeCache, invalidateAfterWrite, invalidateBatch.
  rewrite Hr. unfold_M. repeat split; intros; repeat case_answer; store_only.
Qed.

(** A cache hit is the whole read: the entity the cache manager returns is
    the result, with [cacheHit] set, and the relational store is not
    called. *)
Theorem cache_hit_skips_store (r : GenericRepository) (mgr : RedisManager) (ctx : Context)
    (tr : list Event) :
  redis r = Some mgr ->
  ctxErr ctx = None ->
  (forall id entity, id <> INil ->
     let check := GetValue (generateCacheKey r "find_by_id" (Sprint id)) in
     env _ tr check = Ok entity ->
     FindByID r ctx id tr = (Ok (Some entity, true, false), tr ++ [event check]) /\
     Exists r ctx id tr = (Ok (true, true, false), tr ++ [event check])) /\
  (forall entities,
     let check := GetLargeValue (generateCacheKey r "find_all" "") in
     env _ tr check = Ok entities ->
     FindAll r ctx tr = (Ok (entities, true, false), tr ++ [event check])) /\
  (forall query args entities, isGormDB query = false ->
     let check := GetLargeValue (generateCacheKeyFromQuery r "find_where" query args) in
     env _ tr check = Ok entities ->
     FindWhere r ctx query args tr = (Ok (entities, true, false), tr ++ [event check])) /\
  (forall query args entity, isGormDB query = false ->
     let check := GetValue (generateCacheKeyFromQuery r "first" query args) in
     env _ tr check = Ok entity ->
     First r ctx query args tr = (Ok (Some entity, true, false), tr ++ [event check])) /\
  (forall count,
     let check := GetCountValue (generateCacheKey r "count" "") in
     env _ tr check = Ok count ->
     Count r ctx tr = (Ok (count, true, false), tr ++ [event check])).
Proof.
  intros Hr Hctx. cbv zeta.
  assert (forall id entity, id <> INil ->
            env _ tr (GetValue (generateCacheKey r "find_by_id" (Sprint id))) = Ok entity ->
            FindByID r ctx id tr =
              (Ok (Some entity, true, false),
               tr ++ [event (GetValue (generateCacheKey r "find_by_id" (Sprint id)))])) as HF.
  { intros id entity Hid He. unfold FindByID, tryCache. rewrite Hr, Hctx. unfold_M.
    destruct id; [done|..]; by rewrite He. }
  split; [|repeat split].
  - intros id entity Hid He. split; [by apply HF|].
    unfold Exists. unfold_M. by rewrite (HF id entity Hid He).
  - intros entities He. unfold FindAll, tryCache. rewrite Hr, Hctx. unfold_M. by rewrite He.
  - intros query args entities Hq He. unfold FindWhere, tryCache.
    rewrite Hr, Hctx, Hq. cbn [negb]. unfold_M. by rewrite He.
  - intros query args entity Hq He. unfold First, tryCache.
    rewrite Hr, Hctx, Hq. cbn [negb]. unfold_M. by rewrite He.
  - intros count He. unfold Count, tryCache. rewrite Hr, Hctx. unfold_M. by rewrite He.
Qed.

(** A query that is a [gorm.DB] pointer is never cached: with or without a
    cache manager, [FindWhere] and [First] make one call, to the relational
    store, and return its answer with both flags false. *)
Theorem gorm_query_not_cached (r : GenericRepository) (ctx : Context) (query : Query)
    (args : list Iface) (tr : list Event) :
  isGormDB query = true ->
  ctxErr ctx = None ->
  FindWhere r ctx query args tr =
    (match env _ tr (DbWhereFind (db r) query args) with
     | Ok entities => Ok (entities, false, false)
     | Err e => Err (ErrDatabase e)
     end, tr ++ [event (DbWhereFind (db r) query args)]) /\
  First r ctx query args tr =
    (match env _ tr (DbWhereFirst (db r) query args) with
     | Ok entity => Ok (Some entity, false, false)
     | Err ErrRecordNotFound => Ok (None, false, false)
     | Err e => Err (ErrDatabase e)
     end, tr ++ [event (DbWhereFirst (db r) query args)]).
Proof.
  intros Hq Hctx. unfold FindWhere, First. rewrite Hq, Hctx. cbn [negb]. unfold_M.
  split.
  - by destruct (env _ tr (DbWhereFind (db r) query args)).
  - by destruct (env _ tr (DbWhereFirst (db r) query args)) as [?|[|?]].
Qed.

(** A read on a context that is already cancelled returns the context's
    error before any call to the cache or to the relational store. *)
Theorem cancelled_context_stops_reads (r : GenericRepository) (ctx : Context) (msg : string)
    (tr : list Event) :
  ctxErr ctx = Some msg ->
  (forall id, id <> INil ->
     FindByID r ctx id tr = (Err (ErrContext msg), tr) /\
     Exists r ctx id tr = (Err (ErrContext msg), tr)) /\
  FindAll r ctx tr = (Err (ErrContext msg), tr) /\
  (forall query args, FindWhere r ctx query args tr = (Err (ErrContext msg), tr)) /\
  (forall query args, First r ctx query args tr = (Err (ErrContext msg), tr)) /\
  Count r ctx tr = (Err (ErrContext msg), tr).
Proof.
  intros Hctx. unfold Exists, FindByID, FindAll, FindWhere, First, Count. rewrite Hctx.
  unfold_M. repeat split; intros; by destruct id.
Qed.

(** *** Writes and their invalidations *)

(** The invalidation calls for the related entities: one for every related
    entity with an identifier. *)
Definition relatedEvents (rels : list (string * list RelatedEntity)) : list Event :=
  '(_, relatedEntities) ← rels;
  related ← relatedEntities;
  match EntityID related with
  | INil => []
  | id => [event (InvalidateEntityDependencies (EntityType related) id)]
  end.

(** The calls of [invalidateEntityCaches]: the pattern of the table, the
    entity's own dependencies, then those of its related entities. *)
Definition invalidationEvents (r : GenericRepository) (entity : T) : list Event :=
  event (InvalidatePattern ("sql4go:" +:+ dbName r +:+ ":" +:+ tableName r +:+ ":*")) ::
  event (InvalidateEntityDependencies (tableName r) (GetPrimaryKeyValue entity)) ::
  relatedEvents (relationshipsOf entity).

Lemma forEach_invalidateRelated (l : list RelatedEntity) (tr : list Event) :
  forEach l invalidateRelated tr =
  (tt, tr ++ (related ← l;
              match EntityID related with
              | INil => []
              | id => [event (InvalidateEntityDependencies (EntityType related) id)]
              end)).
Proof.
  revert tr; induction l as [|x l IH]; intros tr; cbn [forEach].
  - unfold_M. by rewrite app_nil_r.
  - unfold mbind at 1, M_bind at 1, bind at 1. unfold invalidateRelated at 1.
    destruct (EntityID x) eqn:Hx; unfold_M; rewrite IH; cbn [mbind list_bind app];
      rewrite Hx; by rewrite <- ?app_assoc.
Qed.

Lemma forEach_related (rels : list (string * list RelatedEntity)) (tr : list Event) :
  forEach rels (fun '(_, relatedEntities) => forEach relatedEntities invalidateRelated) tr =
  (tt, tr ++ relatedEvents rels).
Proof.
  revert tr; induction rels as [|[k l] rels IH]; intros tr; cbn [forEach].
  - unfold_M. by rewrite app_nil_r.
  - unfold mbind at 1, M_bind at 1, bind at 1. rewrite forEach_invalidateRelated, IH.
    unfold relatedEvents. cbn [mbind list_bind]. by rewrite <- app_assoc.
Qed.

Lemma invalidateEntityCaches_trace (r : GenericRepository) (mgr : RedisManager) (entity : T)
    (tr : list Event) :
  redis r = Some mgr ->
  invalidateEntityCaches r entity tr = (tt, tr ++ invalidationEvents r entity).
Proof.
  intros Hr. unfold invalidateEntityCaches, InvalidateCache. rewrite Hr.
  unfold mbind at 1, M_bind at 1, bind at 1, call at 1.
  unfold mbind at 1, M_bind at 1, bind at 1, call at 1.
  rewrite forEach_related. unfold invalidationEvents. by rewrite <- !app_assoc.
Qed.

Lemma invalidateAfterWrite_trace (r : GenericRepository) (mgr : RedisManager) (entity : T)
    (tr : list Event) :
  redis r = Some mgr ->
  invalidateAfterWrite r entity tr = (true, tr ++ invalidationEvents r entity).
Proof.
  intros Hr. unfold invalidateAfterWrite. rewrite Hr.
  unfold mbind, M_bind, bind. by rewrite (invalidateEntityCaches_trace r mgr).
Qed.

(** A write the relational store accepts is followed by the invalidation
    calls of the written entity, every one of them whatever the cache
    manager answers, and reports [cacheInvalidated] as true.  [Delete] of a
    record the store does not find deletes nothing, invalidates nothing and
    returns false without error. *)
Theorem writes_invalidate (r : GenericRepository) (mgr : RedisManager) (ctx : Context)
    (tr : list Event) :
  redis r = Some mgr ->
  (forall entity stored, env _ tr (DbCreate (db r) entity) = (stored, None) ->
     Create r ctx (Some entity) tr =
       (Ok true, tr ++ event (DbCreate (db r) entity) :: invalidationEvents r stored)) /\
  (forall entity stored, env _ tr (DbSave (db r) entity) = (stored, None) ->
     Update r ctx (Some entity) tr =
       (Ok true, tr ++ event (DbSave (db r) entity) :: invalidationEvents r stored)) /\
  (forall id entity, id <> INil ->
     env _ tr (DbFirst (db r) id) = Ok entity ->
     env _ (tr ++ [event (DbFirst (db r) id)]) (DbDelete (db r) entity) = None ->
     Delete r ctx id tr =
       (Ok true,
        tr ++ event (DbFirst (db r) id) :: event (DbDelete (db r) entity) ::
          invalidationEvents r entity)) /\
  (forall id, id <> INil ->
     env _ tr (DbFirst (db r) id) = Err ErrRecordNotFound ->
     Delete r ctx id tr = (Ok false, tr ++ [event (DbFirst (db r) id)])).
Proof.
  intros Hr. repeat split.
  - intros entity stored He. unfold Create.
    unfold mbind at 1, M_bind at 1, bind at 1, call at 1. rewrite He.
    unfold mbind, M_bind, bind. rewrite (invalidateAfterWrite_trace r mgr) by done.
    unfold ret. by rewrite <- app_assoc.
  - intros entity stored He. unfold Update.
    unfold mbind at 1, M_bind at 1, bind at 1, call at 1. rewrite He.
    unfold mbind, M_bind, bind. rewrite (invalidateAfterWrite_trace r mgr) by done.
    unfold ret. by rewrite <- app_assoc.
  - intros id entity Hid Hf Hd. unfold Delete.
    assert (forall X (a b : X), match id with INil => a | _ => b end = b) as ->
      by (by destruct id).
    unfold mbind at 1, M_bind at 1, bind at 1, call at 1. rewrite Hf.
    unfold mbind at 1, M_bind at 1, bind at 1, call at 1. rewrite Hd.
    unfold mbind, M_bind, bind. rewrite (invalidateAfterWrite_trace r mgr) by done.
    unfold ret. by rewrite <- !app_assoc.
  - intros id Hid Hf. unfold Delete. unfold_M. destruct id; [done|..]; by rewrite Hf.
Qed.

Definition batchEvents (r : GenericRepository) (entities : list (option T)) : list Event :=
  entity ← entities;
  match entity with
  | Some e => invalidationEvents r e
  | None => []
  end.

Lemma invalidateBatch_trace (r : GenericRepository) (mgr : RedisManager)
    (entities : list (option T)) (tr : list Event) :
  redis r = Some mgr ->
  invalidateBatch r entities tr = (tt, tr ++ batchEvents r entities).
Proof.
  intros Hr. unfold invalidateBatch. rewrite Hr.
  revert tr; induction entities as [|[e|] l IH]; intros tr; cbn [forEach].
  - unfold_M. by rewrite app_nil_r.
  - unfold mbind at 1, M_bind at 1, bind at 1.
    rewrite (invalidateEntityCaches_trace r mgr) by done. rewrite IH.
    unfold batchEvents. cbn [mbind list_bind]. by rewrite <- app_assoc.
  - unfold mbind at 1, M_bind at 1, bind at 1. unfold ret at 1. by rewrite IH.
Qed.

(** A batch the relational store accepts is followed by the invalidation
    calls of each of its entities, in order, a nil pointer being skipped; an
    empty batch makes no call at all. *)
Theorem batch_writes_invalidate (r : GenericRepository) (mgr : RedisManager) (ctx : Context)
    (tr : list Event) :
  redis r = Some mgr ->
  CreateBatch r ctx [] tr = (None, tr) /\
  UpdateBatch r ctx [] tr = (None, tr) /\
  (forall entities stored, entities <> [] ->
     env _ tr (DbCreateBatch (db r) entities) = (stored, None) ->
     CreateBatch r ctx entities tr =
       (None, tr ++ event (DbCreateBatch (db r) entities) :: batchEvents r stored)) /\
  (forall entities stored, entities <> [] ->
     env _ tr (DbSaveBatch (db r) entities) = (stored, None) ->
     UpdateBatch r ctx entities tr =
       (None, tr ++ event (DbSaveBatch (db r) entities) :: batchEvents r stored)).
Proof.
  intros Hr. repeat split.
  - intros entities stored Hne He. unfold CreateBatch. destruct entities; [done|].
    unfold mbind at 1, M_bind at 1, bind at 1, call at 1. rewrite He.
    unfold mbind, M_bind, bind. rewrite (invalidateBatch_trace r mgr) by done.
    unfold ret. by rewrite <- app_assoc.
  - intros entities stored Hne He. unfold UpdateBatch. destruct entities; [done|].
    unfold mbind at 1, M_bind at 1, bind at 1, call at 1. rewrite He.
    unfold mbind, M_bind, bind. rewrite (invalidateBatch_trace r mgr) by done.
    unfold ret. by rewrite <- app_assoc.
Qed.

(** *** The name space of a table's keys *)

(** The pattern of [InvalidateCache] without its star. *)
Definition tablePrefix (r : GenericRepository) : string :=
  "sql4go:" +:+ dbName r +:+ ":" +:+ tableName r +:+ ":".

Lemma prefix_app_head (a x y : string) :
  String.prefix (a +:+ x) (a +:+ y) = String.prefix x y.
Proof.
  induction a as [|c a IH]; [done|].
  rewrite !append_cons. cbn [String.prefix]. by destruct (ascii_dec c c).
Qed.

Lemma prefix_separator (c : ascii) (a b x y : string) :
  free_of c a = true -> free_of c b = true ->
  String.prefix (a +:+ String c x) (b +:+ String c y) = true ->
  a = b /\ String.prefix x y = true.
Proof.
  revert b; induction a as [|d a IH]; intros [|e b]; rewrite ?append_nil, ?append_cons;
    cbn [String.prefix free_of].
  - intros _ _. by destruct (ascii_dec c c).
  - intros _ [He _]%andb_prop. destruct (ascii_dec c e) as [<-|]; [|done].
    by rewrite Ascii.eqb_refl in He.
  - intros [Hd _]%andb_prop _. destruct (ascii_dec d c) as [->|]; [|done].
    by rewrite Ascii.eqb_refl in Hd.
  - intros [_ Ha]%andb_prop [_ Hb]%andb_prop. destruct (ascii_dec d e) as [->|]; [|done].
    intros H. destruct (IH b Ha Hb H) as [-> Hp]. done.
Qed.

Lemma generateCacheKey_tablePrefix (r : GenericRepository) (operation suffix : string) :
  exists rest, generateCacheKey r operation suffix = tablePrefix r +:+ rest.
Proof.
  unfold generateCacheKey, tablePrefix, cacheKeyPrefix, cacheKeySeparator.
  destruct (String.eqb suffix ""); eexists; rewrite !append_assoc; reflexivity.
Qed.

Lemma generateCacheKeyFromQuery_tablePrefix (r : GenericRepository) (operation : string)
    (query : Query) (args : list Iface) :
  exists rest, generateCacheKeyFromQuery r operation query args = tablePrefix r +:+ rest.
Proof.
  unfold generateCacheKeyFromQuery, tablePrefix, cacheKeyPrefix, cacheKeySeparator.
  eexists; rewrite !append_assoc; reflexivity.
Qed.

(** The keys of a repository all start with [sql4go:<db>:<table>:], the
    pattern of [InvalidateCache] without its star.  With database and table
    names that hold no separator, no key of another table, or of the same
    table in another database, starts with it. *)
Theorem cache_keys_in_table_namespace (r : GenericRepository) (mgr : RedisManager)
    (tr : list Event) :
  redis r = Some mgr ->
  snd (InvalidateCache r tr) = tr ++ [event (InvalidatePattern (tablePrefix r +:+ "*"))] /\
  (forall operation suffix,
     HasPrefix (generateCacheKey r operation suffix) (tablePrefix r) = true) /\
  (forall operation query args,
     HasPrefix (generateCacheKeyFromQuery r operation query args) (tablePrefix r) = true) /\
  (forall other,
     free_of ":" (dbName r) = true -> free_of ":" (tableName r) = true ->
     free_of ":" (dbName other) = true -> free_of ":" (tableName other) = true ->
     (dbName other, tableName other) <> (dbName r, tableName r) ->
     (forall operation suffix,
        HasPrefix (generateCacheKey other operation suffix) (tablePrefix r) = false) /\
     (forall operation query args,
        HasPrefix (generateCacheKeyFromQuery other operation query args) (tablePrefix r) =
          false)).
Proof.
  intros Hr. unfold HasPrefix. split; [|split; [|split]].
  - unfold InvalidateCache. rewrite Hr. unfold_M. cbn [snd]. unfold tablePrefix.
    by rewrite !append_assoc.
  - intros operation suffix.
    destruct (generateCacheKey_tablePrefix r operation suffix) as [rest ->].
    apply Redis.prefix_app.
  - intros operation query args.
    destruct (generateCacheKeyFromQuery_tablePrefix r operation query args) as [rest ->].
    apply Redis.prefix_app.
  - intros other Hd Ht Hd' Ht' Hne.
    assert (forall rest, String.prefix (tablePrefix r) (tablePrefix other +:+ rest) = false)
      as Hno.
    { intros rest. destruct (String.prefix _ _) eqn:Hp; [|done]. exfalso. apply Hne.
      unfold tablePrefix in Hp. rewrite !append_assoc in Hp.
      rewrite (prefix_app_head "sql4go:") in Hp.
      apply (prefix_separator ":" (dbName r) (dbName other)) in Hp as [-> Hp]; [|done..].
      change (":" +:+ ?x) with (String ":" x) in Hp.
      by apply (prefix_separator ":" (tableName r) (tableName other)) in Hp as [-> _]. }
    split.
    + intros operation suffix.
      destruct (generateCacheKey_tablePrefix other operation suffix) as [rest ->]. apply Hno.
    + intros operation query args.
      destruct (generateCacheKeyFromQuery_tablePrefix other operation query args)
        as [rest ->]. apply Hno.
Qed.

(** *** The dependency map of a query result *)

(** Identifier [id] is listed under key [k]. *)
Definition listed (deps : list (string * list Iface)) (k : string) (id : Iface) : Prop :=
  exists ids, (k, ids) ∈ deps /\ id ∈ ids.

(** A map: every key once, with a list of identifiers that is not empty and
    holds no nil. *)
Definition wellFormed (deps : list (string * list Iface)) : Prop :=
  NoDup (deps.*1) /\ forall k ids, (k, ids) ∈ deps -> ids <> [] /\ INil ∉ ids.

Lemma appendDep_keys (deps : list (string * list Iface)) (k : string) (id : Iface) :
  ((appendDep deps k id).*1 = deps.*1) \/
  ((k ∉ deps.*1) /\ (appendDep deps k id).*1 = deps.*1 ++ [k]).
Proof.
  induction deps as [|[k' ids] deps IH]; cbn [appendDep].
  - right. split; [apply not_elem_of_nil|done].
  - destruct (String.eqb_spec k' k) as [->|Hne]; [by left|].
    cbn [fmap list_fmap fst]. destruct IH as [IH|[Hk IH]].
    + left. cbn [fmap] in IH. by rewrite IH.
    + right. split.
      * intros [?|?]%elem_of_cons; [by subst|done].
      * cbn [fmap] in IH. by rewrite IH.
Qed.

Lemma appendDep_elem (deps : list (string * list Iface)) (k : string) (id : Iface)
    (k' : string) (ids' : list Iface) :
  (k', ids') ∈ appendDep deps k id ->
  (k', ids') ∈ deps \/
  (k' = k /\ exists ids, ids' = ids ++ [id] /\ (ids = [] \/ (k, ids) ∈ deps)).
Proof.
  induction deps as [|[k0 ids0] deps IH]; cbn [appendDep].
  - intros [= -> ->]%list_elem_of_singleton. right. split; [done|]. exists []. by split; [|left].
  - destruct (String.eqb_spec k0 k) as [->|Hne].
    + intros [[= -> ->]|H]%elem_of_cons.
      * right. split; [done|]. exists ids0. split; [done|]. right. by left.
      * left. by right.
    + intros [[= -> ->]|H]%elem_of_cons; [left; by left|].
      destruct (IH H) as [?|(-> & ids & -> & [->|Hin])]; [left; by right|right..].
      * split; [done|]. exists []. by split; [|left].
      * split; [done|]. exists ids. split; [done|]. right. by right.
Qed.

Lemma appendDep_wellFormed (deps : list (string * list Iface)) (k : string) (id : Iface) :
  id <> INil -> wellFormed deps -> wellFormed (appendDep deps k id).
Proof.
  intros Hid [Hnd Hok]. split.
  - destruct (appendDep_keys deps k id) as [->|[Hk ->]]; [done|].
    apply NoDup_app. split; [done|]. split; [|apply NoDup_singleton].
    by intros x Hx ->%list_elem_of_singleton.
  - intros k' ids' [Hin|(-> & ids & -> & Hids)]%appendDep_elem; [by apply (Hok k')|].
    split; [by destruct ids|].
    intros [Hin|Hin%list_elem_of_singleton]%elem_of_app; [|by subst].
    destruct Hids as [->|Hids]; [by apply elem_of_nil in Hin|].
    by apply (Hok k ids).
Qed.

Lemma appendDep_listed (deps : list (string * list Iface)) (k : string) (id : Iface) :
  listed (appendDep deps k id) k id /\
  (forall k' x, listed deps k' x -> listed (appendDep deps k id) k' x).
Proof.
  induction deps as [|[k0 ids0] deps [IH1 IH2]]; cbn [appendDep].
  - split; [exists [id]; split; by left|]. intros k' x (ids & H & _). by apply elem_of_nil in H.
  - destruct (String.eqb_spec k0 k) as [->|Hne]; split.
    + exists (ids0 ++ [id]). split; [by left|]. apply elem_of_app. right. by left.
    + intros k' x (ids & [[= -> ->]|H]%elem_of_cons & Hx).
      * exists (ids0 ++ [id]). split; [by left|]. apply elem_of_app. by left.
      * exists ids. split; [by right|done].
    + destruct IH1 as (ids & H & Hx). exists ids. split; [by right|done].
    + intros k' x (ids & [[= -> ->]|H]%elem_of_cons & Hx).
      * exists ids0. split; [by left|done].
      * destruct (IH2 k' x) as (ids' & H' & Hx'); [by exists ids|].
        exists ids'. split; [by right|done].
Qed.

(** What a step of the loops keeps: the map stays well formed and loses no
    identifier. *)
Definition grows (deps deps' : list (string * list Iface)) : Prop :=
  (wellFormed deps -> wellFormed deps') /\
  (forall k x, listed deps k x -> listed deps' k x).

Lemma grows_refl (deps : list (string * list Iface)) : grows deps deps.
Proof. by split. Qed.

Lemma grows_trans (a b c : list (string * list Iface)) : grows a b -> grows b c -> grows a c.
Proof. intros [H1 H2] [H3 H4]. split; auto. Qed.

Lemma grows_appendDep (deps : list (string * list Iface)) (k : string) (id : Iface) :
  id <> INil -> grows deps (appendDep deps k id).
Proof.
  intros Hid. split.
  - by apply appendDep_wellFormed.
  - apply appendDep_listed.
Qed.

Lemma grows_foldl {A} (f : list (string * list Iface) -> A -> list (string * list Iface))
    (l : list A) (deps : list (string * list Iface)) :
  (forall acc a, grows acc (f acc a)) -> grows deps (foldl f deps l).
Proof.
  intros Hf. revert deps; induction l as [|a l IH]; intros deps; cbn [foldl].
  - apply grows_refl.
  - eapply grows_trans; [apply Hf | apply IH].
Qed.

Lemma grows_appendRelated (deps : list (string * list Iface))
    (rels : list (string * list RelatedEntity)) :
  grows deps (appendRelated deps rels).
Proof.
  unfold appendRelated. apply grows_foldl. intros acc [k relatedEntities].
  apply grows_foldl. intros acc' related.
  destruct (EntityID related) eqn:Hid; [apply grows_refl|..]; by apply grows_appendDep.
Qed.

(** The body of the loop of [extractDependenciesFromEntities]. *)
Definition addEntity (r : GenericRepository) (deps : list (string * list Iface)) (entity : T)
  : list (string * list Iface) :=
  if isZero entity then deps
  else
    let pkValue := GetPrimaryKeyValue entity in
    let deps :=
      match pkValue with
      | INil => deps
      | _ => appendDep deps (tableName r) pkValue
      end in
    match GetRelationships with
    | Some get => appendRelated deps (get entity)
    | None =>
        match pkValue with
        | INil => deps
        | _ => appendRelated deps (extractRelationshipsFromEntity entity pkValue)
        end
    end.

Lemma addEntity_grows (r : GenericRepository) (deps : list (string * list Iface))
    (entity : T) :
  grows deps (addEntity r deps entity) /\
  (isZero entity = false -> GetPrimaryKeyValue entity <> INil ->
   listed (addEntity r deps entity) (tableName r) (GetPrimaryKeyValue entity)).
Proof.
  unfold addEntity. destruct (isZero entity); [split; [apply grows_refl|done]|].
  destruct (GetPrimaryKeyValue entity) as [|z|s] eqn:Hpk.
  - split; [|done]. destruct GetRelationships; [apply grows_appendRelated|apply grows_refl].
  - assert (grows deps (appendDep deps (tableName r) (IInt z))) as H1
      by (by apply grows_appendDep).
    assert (listed (appendDep deps (tableName r) (IInt z)) (tableName r) (IInt z)) as H2
      by apply (proj1 (appendDep_listed _ _ _)).
    destruct GetRelationships;
      (split; [eapply grows_trans; [apply H1|apply grows_appendRelated]
              |intros _ _; by apply (proj2 (grows_appendRelated _ _))]).
  - assert (grows deps (appendDep deps (tableName r) (IStr s))) as H1
      by (by apply grows_appendDep).
    assert (listed (appendDep deps (tableName r) (IStr s)) (tableName r) (IStr s)) as H2
      by apply (proj1 (appendDep_listed _ _ _)).
    destruct GetRelationships;
      (split; [eapply grows_trans; [apply H1|apply grows_appendRelated]
              |intros _ _; by apply (proj2 (grows_appendRelated _ _))]).
Qed.

Lemma extractDependencies_foldl (r : GenericRepository) (entities : list T) :
  extractDependenciesFromEntities r entities = foldl (addEntity r) [] entities.
Proof. reflexivity. Qed.

Lemma foldl_addEntity_listed (r : GenericRepository) (entities : list T)
    (deps : list (string * list Iface)) (entity : T) :
  entity ∈ entities -> isZero entity = false -> GetPrimaryKeyValue entity <> INil ->
  listed (foldl (addEntity r) deps entities) (tableName r) (GetPrimaryKeyValue entity).
Proof.
  intros Hin Hz Hpk. revert deps; induction entities as [|e l IH]; intros deps;
    [by apply elem_of_nil in Hin|].
  cbn [foldl]. apply elem_of_cons in Hin as [<-|Hin]; [|by apply IH].
  apply (proj2 (grows_foldl (addEntity r) l _ (fun acc a => proj1 (addEntity_grows r acc a)))).
  by apply addEntity_grows.
Qed.

(** The dependency map built from a query result lists every entity of the
    result that is not the zero value and has an identifier under the
    repository's table; it holds every key once, no empty list and no nil
    identifier; and it is empty when every entity is the zero value. *)
Theorem extractDependenciesFromEntities_lists_entities (r : GenericRepository)
    (entities : list T) :
  wellFormed (extractDependenciesFromEntities r entities) /\
  (forall entity, entity ∈ entities -> isZero entity = false ->
     GetPrimaryKeyValue entity <> INil ->
     listed (extractDependenciesFromEntities r entities) (tableName r)
       (GetPrimaryKeyValue entity)) /\
  ((forall entity, entity ∈ entities -> isZero entity = true) ->
   extractDependenciesFromEntities r entities = []).
Proof.
  rewrite extractDependencies_foldl. split; [|split].
  - apply (grows_foldl (addEntity r) entities [] (fun acc a => proj1 (addEntity_grows r acc a))).
    split; [apply NoDup_nil_2|]. intros k ids H. by apply elem_of_nil in H.
  - intros entity. apply foldl_addEntity_listed.
  - induction entities as [|e l IH]; [done|]. intros Hz. cbn [foldl].
    unfold addEntity at 2. rewrite (Hz e) by (by left). apply IH.
    intros entity Hin. apply Hz. by right.
Qed.

(** [FindWhere] on a cache miss stores the result of the relational store
    together with its dependency map, so that every entity of the result
    that has an identifier is listed under the repository's table; the
    invalidation calls of a later write of such an entity name that very
    entry. *)
Theorem FindWhere_registers_dependencies (r : GenericRepository) (mgr : RedisManager)
    (ctx : Context) (query : Query) (args : list Iface) (tr : list Event) (e : cache_err)
    (entities : list T) (data : string) :
  redis r = Some mgr ->
  ctxErr ctx = None ->
  isGormDB query = false ->
  let cacheKey := generateCacheKeyFromQuery r "find_where" query args in
  let dependencies := extractDependenciesFromEntities r entities in
  env _ tr (GetLargeValue cacheKey) = Err e ->
  env _ (tr ++ [event (GetLargeValue cacheKey)]) (DbWhereFind (db r) query args) =
    Ok entities ->
  marshalEntities entities = Some data ->
  snd (FindWhere r ctx query args tr) =
    tr ++ [event (GetLargeValue cacheKey); event (DbWhereFind (db r) query args);
           event (SetLargeWithDependencies cacheKey data dependencies)] /\
  (forall entity, entity ∈ entities -> isZero entity = false ->
     GetPrimaryKeyValue entity <> INil ->
     listed dependencies (tableName r) (GetPrimaryKeyValue entity) /\
     event (InvalidateEntityDependencies (tableName r) (GetPrimaryKeyValue entity))
       ∈ invalidationEvents r entity).
Proof.
  intros Hr Hctx Hq. cbv zeta. intros He Hdb Hm. split.
  - unfold FindWhere. rewrite Hctx, Hq. cbn [negb].
    unfold mbind at 1, M_bind at 1, bind at 1. rewrite (tryCache_error r mgr _ tr e Hr He).
    unfold mbind at 1, M_bind at 1, bind at 1, call at 1. rewrite Hdb, Hm.
    unfold storeCache. rewrite Hr. unfold_M. cbn [snd]. by rewrite <- !app_assoc.
  - intros entity Hin Hz Hpk. split.
    + rewrite extractDependencies_foldl.
      by apply foldl_addEntity_listed.
    + unfold invalidationEvents. right. left.
Qed.

(** *** The patterns of the manager's [InvalidateRelationships] *)

(** The two patterns [buildInvalidationPatterns] always builds lie under
    [sql4go:<entityType>:], and the custom patterns of the entity type follow
    them with the placeholder replaced by the identifier.  The repository's
    keys are [sql4go:<db>:<table>:...]: when the names hold no separator,
    none of them lies under [sql4go:<entityType>:] unless the database is
    named like the entity type. *)
Theorem relationship_patterns_miss_repository_keys
    (keyPatterns : string -> option (list string)) (et : string) (entityID : Iface)
    (r : GenericRepository) :
  free_of ":" et = true ->
  free_of ":" (dbName r) = true ->
  et <> dbName r ->
  let base := "sql4go:" +:+ et +:+ ":" in
  (exists custom,
     Redis.buildInvalidationPatterns keyPatterns et entityID =
       (base +:+ "*") :: (base +:+ "find_by_id:" +:+ Sprint entityID) :: custom /\
     length custom = length (default [] (keyPatterns et)) /\
     (forall a b, free_of "{" a = true -> free_of "{" b = true ->
        (a +:+ "{id}" +:+ b) ∈ default [] (keyPatterns et) ->
        (a +:+ Sprint entityID +:+ b) ∈ custom)) /\
  (forall operation suffix, HasPrefix (generateCacheKey r operation suffix) base = false) /\
  (forall operation query args,
     HasPrefix (generateCacheKeyFromQuery r operation query args) base = false).
Proof.
  intros Het Hdb Hne base.
  assert (forall rest, String.prefix base (tablePrefix r +:+ rest) = false) as Hno.
  { intros rest. destruct (String.prefix _ _) eqn:Hp; [|done]. exfalso. apply Hne.
    unfold base, tablePrefix in Hp. rewrite !append_assoc in Hp.
    rewrite (prefix_app_head "sql4go:") in Hp.
    by apply (prefix_separator ":" et (dbName r)) in Hp as [-> _]. }
  split; [|split].
  - unfold Redis.buildInvalidationPatterns, Redis.cacheKeyPrefix, Redis.cacheKeySeparator.
    destruct (keyPatterns et) as [customPatterns|]; cbn [default].
    + eexists. split; [unfold base; rewrite !append_assoc; reflexivity|].
      split; [by rewrite length_fmap|].
      intros a b Ha Hb Hin. apply list_elem_of_fmap. eexists. split; [|exact Hin].
      by rewrite Redis.ReplaceAll_placeholder, Redis.ReplaceAll_free.
    + exists []. split; [unfold base; by rewrite !append_assoc|]. split; [done|].
      intros a b _ _ Hin. by apply elem_of_nil in Hin.
  - intros operation suffix. unfold HasPrefix.
    destruct (generateCacheKey_tablePrefix r operation suffix) as [rest ->]. apply Hno.
  - intros operation query args. unfold HasPrefix.
    destruct (generateCacheKeyFromQuery_tablePrefix r operation query args) as [rest ->].
    apply Hno.
Qed.

End GenericRepository.

#[global] Arguments Build_GenericRepository {DB DBManager RedisManager}.
#[global] Arguments db {DB DBManager RedisManager} g.
#[global] Arguments generateCacheKey {DB DBManager RedisManager} r operation suffix.
#[global] Arguments event {T Query DB R} c.
#[global] Arguments GetValue {T Query DB} key.
#[global] Arguments DbFirst {T Query DB} d id.
#[global] Arguments DbSave {T Query DB} d entity.

(** *** Worked instances

    The users table of a shop database.  Entities are numbers, queries are
    strings, and a [db] handle is the list of the clauses chained so far. *)

Definition usersRepository : GenericRepository (list string) unit unit :=
  {| db := []; dbManager := Some tt; redis := Some tt; entityType := "User";
     tableName := "users"; primaryKey := "id"; dbName := "shop" |}.

Definition liveContext : Context := {| ctxErr := None |}.

(** An environment whose cache manager fails every call and whose store
    finds entity 42, and fails every write. *)
Definition cacheDown (R : Type) (tr : list (Event Z string (list string)))
    (c : Call Z string (list string) R) : R :=
  match c in Call _ _ _ R return R with
  | GetValue _ => Err (CacheFailure "connection refused")
  | SetValue _ _ _ _ _ => Some (CacheFailure "connection refused")
  | GetCountValue _ _ _ _ => Err (CacheFailure "connection refused")
  | SetCountValue _ _ _ _ _ => Some (CacheFailure "connection refused")
  | GetLargeValue _ _ _ _ => Err (CacheFailure "connection refused")
  | SetLargeValue _ _ _ _ _ => Some (CacheFailure "connection refused")
  | SetLargeWithDependencies _ _ _ _ _ _ => Some (CacheFailure "connection refused")
  | InvalidatePattern _ _ _ _ => Some (CacheFailure "connection refused")
  | InvalidateEntityDependencies _ _ _ _ _ => Some (CacheFailure "connection refused")
  | DbFirst _ _ => Ok 42
  | DbFind _ _ _ _ => Ok [42]
  | DbWhereFind _ _ _ _ _ _ => Ok [42]
  | DbWhereFirst _ _ _ _ _ _ => Ok 42
  | DbCount _ _ _ _ => Ok 1
  | DbCreate _ _ _ _ entity => (entity, Some (DbFailure "duplicate entry"))
  | DbSave _ entity => (entity, Some (DbFailure "deadlock"))
  | DbDelete _ _ _ _ _ => Some (DbFailure "deadlock")
  | DbCreateBatch _ _ _ _ entities => (entities, Some (DbFailure "duplicate entry"))
  | DbSaveBatch _ _ _ _ entities => (entities, Some (DbFailure "deadlock"))
  end.

(** C5 on the identifier lookup of the users table. *)
Lemma generateCacheKey_suffix_witness :
  generateCacheKey usersRepository "find_by_id" "" = "sql4go:shop:users:find_by_id" /\
  generateCacheKey usersRepository "find_by_id" "42" = "sql4go:shop:users:find_by_id:42" /\
  generateCacheKey usersRepository "find_by_id" "42" <>
    generateCacheKey usersRepository "find_by_id" "".
Proof.
  pose proof (generateCacheKey_suffix _ _ _ usersRepository "find_by_id" "42") as [H1 H2].
  assert ("42" <> "") as Hne by done.
  exact (conj H1 (H2 Hne)).
Defined.

(** C5 as stated fails: the identifier that is the empty string gets the
    key of the operation without discriminator, and that key does not end
    with a separator. *)
Lemma empty_discriminator_collides :
  IStr "" <> INil /\
  generateCacheKey usersRepository "find_by_id" (Sprint (IStr "")) =
    generateCacheKey usersRepository "find_by_id" "" /\
  generateCacheKey usersRepository "find_by_id" "" = "sql4go:shop:users:find_by_id".
Proof. by repeat split. Qed.

(** C8 with a cache that is down: the lookup of entity 7 returns the
    store's record, and the update the store refuses returns its error after
    the one call to the store. *)
Lemma cache_errors_swallowed_witness :
  (exists cacheStored,
     fst (FindByID Z string (list string) unit unit cacheDown usersRepository liveContext
            (IInt 7) []) = Ok (Some 42, false, cacheStored)) /\
  Update Z string (list string) unit unit IInt None (fun _ _ => []) cacheDown
    usersRepository liveContext (Some 5) [] =
    (Err (ErrDatabase (DbFailure "deadlock")), [event (DbSave [] 5)]).
Proof.
  pose proof (cache_errors_swallowed_store_errors_returned Z string (list string) unit unit
                (fun _ => false) (fun _ _ => "0123456789ab") IInt None (fun _ _ => [])
                (Z.eqb 0) (fun _ => Some "[]") cacheDown usersRepository tt liveContext []
                eq_refl eq_refl) as (Hfind & _ & _ & _ & _ & _ & Hupdate & _).
  assert (IInt 7 <> INil) as Hid by done.
  exact (conj (proj1 (Hfind (IInt 7) (CacheFailure "connection refused") Hid eq_refl))
              (Hupdate 5 (DbFailure "deadlock") eq_refl)).
Defined.

(** C10 on [Limit] with a negative argument. *)
Lemma chain_methods_copy_witness :
  returnsCopy (list string) unit unit [usersRepository] 0 usersRepository ["LIMIT 0"]
    (Limit (list string) unit unit (fun d n => d ++ ["LIMIT " +:+ Itoa n])
       [usersRepository] 0 (-5)).
Proof.
  exact (proj1 (proj2 (proj2 (proj2
           (chain_methods_copy (list string) unit unit
              (fun d a => d ++ ["PRELOAD " +:+ a])
              (fun d q _ => d ++ ["JOIN " +:+ q])
              (fun d _ => d ++ ["ORDER"])
              (fun d n => d ++ ["LIMIT " +:+ Itoa n])
              (fun d n => d ++ ["OFFSET " +:+ Itoa n])
              [usersRepository] 0 usersRepository eq_refl)))) (-5)).
Defined.

#[global] Arguments storeOnly {T Query DB A} tr out.
#[global] Arguments flagsOff {A} result.
#[global] Arguments InvalidatePattern {T Query DB} pattern.
#[global] Arguments InvalidateEntityDependencies {T Query DB} entityType entityID.
#[global] Arguments GetLargeValue {T Query DB} key.
#[global] Arguments DbWhereFind {T Query DB} d query args.
#[global] Arguments DbCreate {T Query DB} d entity.
#[global] Arguments DbCreateBatch {T Query DB} d entities.
#[global] Arguments SetLargeWithDependencies {T Query DB} key data dependencies.
#[global] Arguments tablePrefix {DB DBManager RedisManager} r.

(** *** Further worked instances

    The users table without cache manager, the orders table, and
    environments with a cache that answers: one that holds everything and
    one that holds nothing.  User [n] has the order [n + 100] and a profile
    without identifier; the zero user is 0. *)

Definition plainRepository : GenericRepository (list string) unit unit :=
  {| db := []; dbManager := Some tt; redis := None; entityType := "User";
     tableName := "users"; primaryKey := "id"; dbName := "shop" |}.

Definition ordersRepository : GenericRepository (list string) unit unit :=
  {| db := []; dbManager := Some tt; redis := Some tt; entityType := "Order";
     tableName := "orders"; primaryKey := "id"; dbName := "shop" |}.

Definition cancelledContext : Context := {| ctxErr := Some "context canceled" |}.

Definition usersRelationships : option (Z -> list (string * list RelatedEntity)) :=
  Some (fun n => [("orders", [{| EntityType := "orders"; EntityID := IInt (n + 100) |}]);
                  ("profile", [{| EntityType := "profiles"; EntityID := INil |}])]).

Definition warmCache (R : Type) (tr : list (Event Z string (list string)))
    (c : Call Z string (list string) R) : R :=
  match c in Call _ _ _ R return R with
  | GetValue _ => Ok 7
  | SetValue _ _ _ _ _ => None
  | GetCountValue _ _ _ _ => Ok 2
  | SetCountValue _ _ _ _ _ => None
  | GetLargeValue _ => Ok [7; 8]
  | SetLargeValue _ _ _ _ _ => None
  | SetLargeWithDependencies _ _ _ => None
  | InvalidatePattern _ => None
  | InvalidateEntityDependencies _ _ => None
  | DbFirst _ _ => Ok 42
  | DbFind _ _ _ _ => Ok [42]
  | DbWhereFind _ _ _ => Ok [42]
  | DbWhereFirst _ _ _ _ _ _ => Ok 42
  | DbCount _ _ _ _ => Ok 1
  | DbCreate _ entity => (entity, None)
  | DbSave _ entity => (entity, None)
  | DbDelete _ _ _ _ _ => None
  | DbCreateBatch _ entities => (entities, None)
  | DbSaveBatch _ _ _ _ entities => (entities, None)
  end.

Definition coldCache (R : Type) (tr : list (Event Z string (list string)))
    (c : Call Z string (list string) R) : R :=
  match c in Call _ _ _ R return R with
  | GetValue _ => Err CacheKeyNotFound
  | SetValue _ _ _ _ _ => None
  | GetCountValue _ _ _ _ => Err CacheKeyNotFound
  | SetCountValue _ _ _ _ _ => None
  | GetLargeValue _ => Err CacheKeyNotFound
  | SetLargeValue _ _ _ _ _ => None
  | SetLargeWithDependencies _ _ _ => None
  | InvalidatePattern _ => None
  | InvalidateEntityDependencies _ _ => None
  | DbFirst _ _ => Err ErrRecordNotFound
  | DbFind _ _ _ _ => Ok [0; 42]
  | DbWhereFind _ _ _ => Ok [0; 42]
  | DbWhereFirst _ _ _ _ _ _ => Ok 42
  | DbCount _ _ _ _ => Ok 1
  | DbCreate _ entity => (entity, None)
  | DbSave _ entity => (entity, None)
  | DbDelete _ _ _ _ _ => None
  | DbCreateBatch _ entities => (entities, None)
  | DbSaveBatch _ _ _ _ entities => (entities, None)
  end.

(** Without cache manager the lookup of user 7 goes to the store alone,
    even where the cache would have answered. *)
Lemma without_cache_manager_witness :
  flagsOff (fst (FindByID Z string (list string) unit unit warmCache plainRepository
                   liveContext (IInt 7) [])) /\
  storeOnly [] (FindByID Z string (list string) unit unit warmCache plainRepository
                  liveContext (IInt 7) []).
Proof.
  exact (proj1 (without_cache_manager Z string (list string) unit unit
                  (fun _ => false) (fun _ _ => "0123456789ab") IInt usersRelationships
                  (fun _ _ => []) (Z.eqb 0) (fun _ => Some "[]") warmCache
                  plainRepository liveContext [] eq_refl) (IInt 7)).
Defined.

(** With a warm cache the lookup of user 7 is one call, to the cache. *)
Lemma cache_hit_skips_store_witness :
  FindByID Z string (list string) unit unit warmCache usersRepository liveContext (IInt 7) [] =
    (Ok (Some 7, true, false), [event (GetValue "sql4go:shop:users:find_by_id:7")]).
Proof.
  assert (IInt 7 <> INil) as Hid by done.
  exact (proj1 (proj1 (cache_hit_skips_store Z string (list string) unit unit
                         (fun _ => false) (fun _ _ => "0123456789ab") IInt usersRelationships
                         (fun _ _ => []) (Z.eqb 0) (fun _ => Some "[]") warmCache
                         usersRepository tt liveContext [] eq_refl eq_refl)
                  (IInt 7) 7 Hid eq_refl)).
Defined.

(** A query that is a [gorm.DB] pointer goes to the store although the cache
    is warm. *)
Lemma gorm_query_not_cached_witness :
  FindWhere Z string (list string) unit unit (fun _ => true) (fun _ _ => "0123456789ab")
    IInt usersRelationships (fun _ _ => []) (Z.eqb 0) (fun _ => Some "[]") warmCache
    usersRepository liveContext "gorm" [] [] =
    (Ok ([42], false, false), [event (DbWhereFind [] "gorm" [])]).
Proof.
  exact (proj1 (gorm_query_not_cached Z string (list string) unit unit
                  (fun _ => true) (fun _ _ => "0123456789ab") IInt usersRelationships
                  (fun _ _ => []) (Z.eqb 0) (fun _ => Some "[]") warmCache
                  usersRepository liveContext "gorm" [] [] eq_refl eq_refl)).
Defined.

(** On a cancelled context [FindAll] makes no call. *)
Lemma cancelled_context_stops_reads_witness :
  FindAll Z string (list string) unit unit warmCache usersRepository cancelledContext [] =
    (Err (ErrContext "context canceled"), []).
Proof.
  exact (proj1 (proj2 (cancelled_context_stops_reads Z string (list string) unit unit
                         (fun _ => false) (fun _ _ => "0123456789ab") IInt usersRelationships
                         (fun _ _ => []) (Z.eqb 0) (fun _ => Some "[]") warmCache
                         usersRepository cancelledContext "context canceled" [] eq_refl))).
Defined.

(** Creating user 5 invalidates the users table, user 5 and order 105; the
    profile without identifier is skipped. *)
Lemma writes_invalidate_witness :
  Create Z string (list string) unit unit IInt usersRelationships (fun _ _ => []) coldCache
    usersRepository liveContext (Some 5) [] =
    (Ok true,
     [event (DbCreate [] 5); event (InvalidatePattern "sql4go:shop:users:*");
      event (InvalidateEntityDependencies "users" (IInt 5));
      event (InvalidateEntityDependencies "orders" (IInt 105))]).
Proof.
  exact (proj1 (writes_invalidate Z string (list string) unit unit IInt usersRelationships
                  (fun _ _ => []) coldCache usersRepository tt liveContext [] eq_refl)
           5 5 eq_refl).
Defined.

(** A batch of user 5 and a nil pointer. *)
Lemma batch_writes_invalidate_witness :
  CreateBatch Z string (list string) unit unit IInt usersRelationships (fun _ _ => [])
    coldCache usersRepository liveContext [Some 5; None] [] =
    (None,
     [event (DbCreateBatch [] [Some 5; None]); event (InvalidatePattern "sql4go:shop:users:*");
      event (InvalidateEntityDependencies "users" (IInt 5));
      event (InvalidateEntityDependencies "orders" (IInt 105))]).
Proof.
  assert ([Some 5; None] <> ([] : list (option Z))) as Hne by done.
  exact (proj1 (proj2 (proj2
           (batch_writes_invalidate Z string (list string) unit unit IInt usersRelationships
              (fun _ _ => []) coldCache usersRepository tt liveContext [] eq_refl)))
           [Some 5; None] [Some 5; None] Hne eq_refl).
Defined.

(** No key of the orders table starts with the prefix of the users table. *)
Lemma cache_keys_in_table_namespace_witness :
  HasPrefix (generateCacheKey usersRepository "find_by_id" "7") (tablePrefix usersRepository) =
    true /\
  HasPrefix (generateCacheKey ordersRepository "find_by_id" "7")
    (tablePrefix usersRepository) = false.
Proof.
  assert ((dbName _ _ _ ordersRepository, tableName _ _ _ ordersRepository) <>
          (dbName _ _ _ usersRepository, tableName _ _ _ usersRepository)) as Hne by done.
  pose proof (cache_keys_in_table_namespace Z string (list string) unit unit
                (fun _ _ => "0123456789ab") coldCache usersRepository tt [] eq_refl)
    as (_ & Hown & _ & Hother).
  exact (conj (Hown "find_by_id" "7")
              (proj1 (Hother ordersRepository eq_refl eq_refl eq_refl eq_refl Hne)
                 "find_by_id" "7")).
Defined.

(** The zero user is left out; user 42 is listed with its order. *)
Lemma extractDependenciesFromEntities_lists_entities_witness :
  listed (extractDependenciesFromEntities Z (list string) unit unit IInt usersRelationships
            (fun _ _ => []) (Z.eqb 0) usersRepository [0; 42]) "users" (IInt 42).
Proof.
  assert (42 ∈ [0; 42]) as Hin by (right; left).
  assert (IInt 42 <> INil) as Hpk by done.
  exact (proj1 (proj2 (extractDependenciesFromEntities_lists_entities Z (list string) unit
                         unit IInt usersRelationships (fun _ _ => []) (Z.eqb 0)
                         usersRepository [0; 42])) 42 Hin eq_refl Hpk).
Defined.

(** The query result of a cold cache is stored with its dependencies. *)
Lemma FindWhere_registers_dependencies_witness :
  snd (FindWhere Z string (list string) unit unit (fun _ => false)
         (fun _ _ => "0123456789ab") IInt usersRelationships (fun _ _ => []) (Z.eqb 0)
         (fun _ => Some "[0,42]") coldCache usersRepository liveContext "age > ?" [IInt 18]
         []) =
  [event (GetLargeValue "sql4go:shop:users:find_where:0123456789ab");
   event (DbWhereFind [] "age > ?" [IInt 18]);
   event (SetLargeWithDependencies "sql4go:shop:users:find_where:0123456789ab" "[0,42]"
            [("users", [IInt 42]); ("orders", [IInt 142])])].
Proof.
  exact (proj1 (FindWhere_registers_dependencies Z string (list string) unit unit
                  (fun _ => false) (fun _ _ => "0123456789ab") IInt usersRelationships
                  (fun _ _ => []) (Z.eqb 0) (fun _ => Some "[0,42]") coldCache
                  usersRepository tt liveContext "age > ?" [IInt 18] [] CacheKeyNotFound
                  [0; 42] "[0,42]" eq_refl eq_refl eq_refl eq_refl eq_refl eq_refl)).
Defined.

(** The patterns for user 7, with one custom pattern, against the keys of
    the users table in the database [shop]. *)
Lemma relationship_patterns_miss_repository_keys_witness :
  Redis.buildInvalidationPatterns
    (fun et => if String.eqb et "users" then Some ["sql4go:reports:user:{id}:*"] else None)
    "users" (IInt 7) =
    ["sql4go:users:*"; "sql4go:users:find_by_id:7"; "sql4go:reports:user:7:*"] /\
  HasPrefix (generateCacheKey usersRepository "find_by_id" "7") "sql4go:users:" = false.
Proof.
  assert ("users" <> dbName _ _ _ usersRepository) as Hne by done.
  pose proof (relationship_patterns_miss_repository_keys string (list string) unit unit
                (fun _ _ => "0123456789ab")
                (fun et => if String.eqb et "users" then Some ["sql4go:reports:user:{id}:*"]
                           else None)
                "users" (IInt 7) usersRepository eq_refl eq_refl Hne) as (_ & Hkeys & _).
  exact (conj eq_refl (Hkeys "find_by_id" "7")).
Defined.

(** *** A chained query and the cache of the original

    A cache that answers [GetLargeValue] with what was last stored under the
    key, and a store of three users that honours the clause [LIMIT 1] of a
    [db] handle. *)

Fixpoint lastStored (key : string) (tr : list (Event Z string (list string)))
  : option (list Z) :=
  match tr with
  | [] => None
  | e :: rest =>
      match lastStored key rest with
      | Some entities => Some entities
      | None =>
          match e with
          | event c =>
              match c with
              | SetLargeValue _ _ _ k entities =>
                  if String.eqb k key then Some entities else None
              | _ => None
              end
          end
      end
  end.

Definition rememberingCache (R : Type) (tr : list (Event Z string (list string)))
    (c : Call Z string (list string) R) : R :=
  match c in Call _ _ _ R return R with
  | GetValue _ => Err CacheKeyNotFound
  | SetValue _ _ _ _ _ => None
  | GetCountValue _ _ _ _ => Err CacheKeyNotFound
  | SetCountValue _ _ _ _ _ => None
  | GetLargeValue key =>
      match lastStored key tr with
      | Some entities => Ok entities
      | None => Err CacheKeyNotFound
      end
  | SetLargeValue _ _ _ _ _ => None
  | SetLargeWithDependencies _ _ _ => None
  | InvalidatePattern _ => None
  | InvalidateEntityDependencies _ _ => None
  | DbFirst _ _ => Ok 1
  | DbFind _ _ _ d => Ok (if existsb (String.eqb "LIMIT 1") d then [1] else [1; 2; 3])
  | DbWhereFind _ _ _ => Ok [1; 2; 3]
  | DbWhereFirst _ _ _ _ _ _ => Ok 1
  | DbCount _ _ _ _ => Ok 3
  | DbCreate _ entity => (entity, None)
  | DbSave _ entity => (entity, None)
  | DbDelete _ _ _ _ _ => None
  | DbCreateBatch _ entities => (entities, None)
  | DbSaveBatch _ _ _ _ entities => (entities, None)
  end.

(** C10 as stated fails: a chained query alters what a later operation on
    the original returns.  Alone, [FindAll] on the original returns the three
    users from the store.  After [FindAll] on the repository that [Limit]
    returned for 1, which stores its one user under the key of [find_all],
    [FindAll] on the original returns that one user as a cache hit. *)
Lemma chained_read_reaches_original :
  let limit := Limit (list string) unit unit (fun d n => d ++ ["LIMIT " +:+ Itoa n]) in
  let findAll := FindAll Z string (list string) unit unit rememberingCache in
  exists h chained,
    limit [usersRepository] 0%nat 1 = Some (h, 1%nat) /\
    h !! 0%nat = Some usersRepository /\
    h !! 1%nat = Some chained /\
    fst (findAll usersRepository liveContext []) = Ok ([1; 2; 3], false, true) /\
    fst (findAll chained liveContext []) = Ok ([1], false, true) /\
    fst (findAll usersRepository liveContext (snd (findAll chained liveContext []))) =
      Ok ([1], true, false).
Proof. cbv zeta. do 2 eexists. repeat split; reflexivity. Qed.

(** *** Table names from struct names

    [convertStructNameToTableName] with the helpers of package [strings] it
    calls.  [strings.ToLower] maps a string of ASCII bytes byte by byte and
    any other string rune by rune; the second mapping is left open. *)

Section TableNames.

Variable unicodeToLower : string -> string.

Fixpoint isASCII (s : string) : bool :=
  match s with
  | EmptyString => true
  | String c r => (nat_of_ascii c <? 128)%nat && isASCII r
  end.

Definition lowerByte (c : ascii) : ascii :=
  let n := nat_of_ascii c in
  if ((65 <=? n) && (n <=? 90))%nat then ascii_of_nat (n + 32) else c.

Fixpoint mapBytes (f : ascii -> ascii) (s : string) : string :=
  match s with
  | EmptyString => EmptyString
  | String c r => String (f c) (mapBytes f r)
  end.

Definition ToLower (s : string) : string :=
  if isASCII s then mapBytes lowerByte s else unicodeToLower s.

(** [strings.HasSuffix] and [strings.TrimSuffix]. *)
Definition HasSuffix (s suffix : string) : bool :=
  (String.length suffix <=? String.length s)%nat &&
  String.eqb (drop (String.length s - String.length suffix) s) suffix.

Definition TrimSuffix (s suffix : string) : string :=
  if HasSuffix s suffix then take (String.length s - String.length suffix) s else s.

(** [s[i]]: [None] is the panic of an index out of range. *)
Definition byteAt (s : string) (i : Z) : option ascii :=
  if i <? 0 then None else String.get (Z.to_nat i) s.

Definition isVowel (b : ascii) : bool :=
  Ascii.eqb b "a" || Ascii.eqb b "e" || Ascii.eqb b "i" || Ascii.eqb b "o" || Ascii.eqb b "u".

(** The last two branches of the pluralization: ["es"] after a sibilant,
    ["s"] otherwise. *)
Definition regularPlural (tableName : string) : string :=
  if HasSuffix tableName "s" || HasSuffix tableName "x" || HasSuffix tableName "z" ||
     HasSuffix tableName "ch" || HasSuffix tableName "sh"
  then tableName +:+ "es"
  else tableName +:+ "s".

Definition convertStructNameToTableName (structName : string) : option string :=
  let tableName := ToLower structName in
  if HasSuffix tableName "y" then
    b ← byteAt tableName (len tableName - 2);
    if negb (isVowel b) then Some (TrimSuffix tableName "y" +:+ "ies")
    else Some (regularPlural tableName)
  else Some (regularPlural tableName).

Lemma drop_append (x s : string) : drop (String.length x) (x +:+ s) = s.
Proof. induction x as [|c x IH]; [done|]. by rewrite append_cons. Qed.

Lemma HasSuffix_append (x s : string) : HasSuffix (x +:+ s) s = true.
Proof.
  unfold HasSuffix. rewrite length_append.
  replace (String.length x + String.length s - String.length s)%nat with (String.length x)
    by lia.
  rewrite drop_append, String.eqb_refl, andb_true_r. apply Nat.leb_le. lia.
Qed.

Lemma HasSuffix_length (s suffix : string) :
  HasSuffix s suffix = true -> (String.length suffix <= String.length s)%nat.
Proof. unfold HasSuffix. intros [H _]%andb_prop. by apply Nat.leb_le. Qed.

Lemma get_in_range (s : string) (n : nat) :
  (n < String.length s)%nat -> exists c, String.get n s = Some c.
Proof.
  revert n; induction s as [|c s IH]; intros n; cbn [String.length]; [lia|].
  destruct n as [|n]; [by exists c|]. intros Hn. apply IH. lia.
Qed.

Lemma regularPlural_shape (t : string) :
  HasSuffix (regularPlural t) "s" = true /\
  (len (regularPlural t) = len t + 1 \/ len (regularPlural t) = len t + 2).
Proof.
  unfold regularPlural.
  destruct (_ || _).
  - split.
    + replace (t +:+ "es") with ((t +:+ "e") +:+ "s") by (by rewrite append_assoc).
      apply HasSuffix_append.
    + right. unfold len. rewrite length_append. cbn [String.length]. lia.
  - split; [apply HasSuffix_append|].
    left. unfold len. rewrite length_append. cbn [String.length]. lia.
Qed.

(** [convertStructNameToTableName] panics exactly when the lower-cased name
    is ["y"], for the struct names ["y"] and ["Y"] among the ASCII ones;
    for every other name it returns a name that ends in ["s"] and is one or
    two bytes longer than the lower-cased name. *)
Theorem convertStructNameToTableName_plural (structName : string) :
  (convertStructNameToTableName structName = None <-> ToLower structName = "y") /\
  (isASCII structName = true ->
   (ToLower structName = "y" <-> structName = "y" \/ structName = "Y")) /\
  (forall tableName, convertStructNameToTableName structName = Some tableName ->
     HasSuffix tableName "s" = true /\
     (len tableName = len (ToLower structName) + 1 \/
      len tableName = len (ToLower structName) + 2)).
Proof.
  unfold convertStructNameToTableName. set (t := ToLower structName).
  split; [|split].
  - destruct (HasSuffix t "y") eqn:Hy.
    + pose proof (HasSuffix_length _ _ Hy) as Hlen. cbn [String.length] in Hlen.
      unfold byteAt, len. destruct (Z.ltb_spec (Z.of_nat (String.length t) - 2) 0) as [Hlt|Hge].
      * cbn [mbind option_bind]. split; [intros _|done].
        unfold HasSuffix in Hy. apply andb_prop in Hy as [_ Hy%String.eqb_eq].
        replace (String.length t - String.length "y")%nat with 0%nat in Hy
          by (cbn [String.length]; lia). done.
      * destruct (get_in_range t (Z.to_nat (Z.of_nat (String.length t) - 2))) as [b ->];
          [lia|]. cbn [mbind option_bind].
        split; [by destruct (negb (isVowel b))|].
        intros Ht. rewrite Ht in Hge. cbn in Hge. lia.
    + split; [done|]. intros Ht. rewrite Ht in Hy. done.
  - intros Hascii. unfold t, ToLower. rewrite Hascii. split.
    + destruct structName as [|c [|? ?]]; [done| |done]. cbn [mapBytes].
      intros [= Hc]. unfold lowerByte in Hc.
      destruct (((65 <=? nat_of_ascii c) && (nat_of_ascii c <=? 90))%nat) eqn:Hr.
      * right. f_equal. apply (f_equal nat_of_ascii) in Hc.
        apply andb_prop in Hr as [H1%Nat.leb_le H2%Nat.leb_le].
        rewrite nat_ascii_embedding in Hc by lia.
        assert (nat_of_ascii c = 89)%nat as Hn
          by (change (nat_of_ascii "y") with 121%nat in Hc; lia).
        rewrite <- (ascii_nat_embedding c), Hn. done.
      * left. by f_equal.
    + by intros [->| ->].
  - intros tableName. destruct (HasSuffix t "y") eqn:Hy.
    + destruct (byteAt t (len t - 2)) as [b|]; [|done]. cbn [mbind option_bind].
      destruct (negb (isVowel b)); intros [= <-]; [|apply regularPlural_shape].
      split.
      * replace (TrimSuffix t "y" +:+ "ies") with ((TrimSuffix t "y" +:+ "ie") +:+ "s")
          by (by rewrite append_assoc).
        apply HasSuffix_append.
      * right. pose proof (HasSuffix_length _ _ Hy) as Hlen. cbn [String.length] in Hlen.
        unfold len, TrimSuffix. rewrite Hy, length_append, Redis.take_length.
        cbn [String.length]. lia.
    + intros [= <-]. apply regularPlural_shape.
Qed.

End TableNames.

(** ["City"] becomes ["cities"], ["Day"] ["days"] and ["Status"]
    ["statuses"]; ["Y"] panics. *)
Lemma convertStructNameToTableName_plural_witness :
  convertStructNameToTableName id "Y" = None /\
  convertStructNameToTableName id "City" = Some "cities" /\
  convertStructNameToTableName id "Day" = Some "days" /\
  convertStructNameToTableName id "Status" = Some "statuses".
Proof.
  split; [|by vm_compute].
  exact (proj2 (proj1 (convertStructNameToTableName_plural id "Y")) eq_refl).
Defined.

End Repository.
